(** * TranscribeLecture: the session resilience logic of [TranscriptionApp]

    A shallow embedding of the React component [TranscriptionApp]
    (frontend/src/components/TranscriptionApp.tsx, the revision with
    reconnect, keepalive and status polling).

    The component is event driven: every function below is the body of one
    callback.  Two kinds of storage occur in the source and are kept apart:

    - React state ([useState]): a callback reads the [state] constant of the
      render that created it.  That captured record is the explicit
      argument [cap] of every callback here; it never changes after the
      closure was created.  Updates go through [setState] with a
      functional updater and land in the field [state] of the world.
    - Refs ([useRef]): mutable cells shared by all closures, read at the
      moment the callback runs.  They are the record [Refs].

    The browser side (timers, WebSocket objects, the registered
    visibility listener) is part of the world as well, so that a callback
    that schedules another one is a function from worlds to worlds.

    Covered: the life of the mounted component.  Not covered: the cleanup
    on unmount, copying and saving the text, and the JSX apart from the
    [disabled] attributes of the three buttons. *)

From stdpp Require Import base option list gmap strings pretty.
From Stdlib Require Import ZArith Lia Ascii.

Local Open Scope Z_scope.
Local Open Scope string_scope.

(** ** Values exchanged with the server *)

(** A JS value as far as the component builds and serialises one.  A number
    is kept as the decimal text ECMAScript's Number::toString gives it, which
    is what JSON.stringify emits. *)
#[warnings="-register-all"]
Inductive JValue : Type :=
| JUndefined
| JNull
| JBool (b : bool)
| JNumber (repr : string)
| JString (s : string)
| JObject (fields : list (string * JValue)).

(** Property read [obj.key]; a missing property reads as undefined. *)
Fixpoint get_field (key : string) (fields : list (string * JValue)) : JValue :=
  match fields with
  | [] => JUndefined
  | (k, v) :: rest => if String.eqb k key then v else get_field key rest
  end.

Definition get_prop (key : string) (v : JValue) : JValue :=
  match v with
  | JObject fields => get_field key fields
  | _ => JUndefined
  end.

Definition dquote : Ascii.ascii := Ascii.ascii_of_nat 34.
Definition backslash : Ascii.ascii := Ascii.ascii_of_nat 92.

Definition hex_digit (n : nat) : Ascii.ascii :=
  Ascii.ascii_of_nat (if Nat.ltb n 10 then 48 + n else 87 + n).

(** QuoteJSONString, one code unit at a time. *)
Definition json_escape (c : Ascii.ascii) : string :=
  let n := Ascii.nat_of_ascii c in
  if Nat.eqb n 34 then String backslash (String dquote EmptyString)
  else if Nat.eqb n 92 then String backslash (String backslash EmptyString)
  else if Nat.eqb n 8 then String backslash "b"
  else if Nat.eqb n 12 then String backslash "f"
  else if Nat.eqb n 10 then String backslash "n"
  else if Nat.eqb n 13 then String backslash "r"
  else if Nat.eqb n 9 then String backslash "t"
  else if Nat.ltb n 32 then
    String backslash
      (String "u" (String "0" (String "0"
         (String (hex_digit (Nat.div n 16))
            (String (hex_digit (Nat.modulo n 16)) EmptyString)))))
  else String c EmptyString.

Fixpoint json_escape_all (s : string) : string :=
  match s with
  | EmptyString => EmptyString
  | String c rest => json_escape c ++ json_escape_all rest
  end.

Definition json_quote (s : string) : string :=
  String dquote (json_escape_all s ++ String dquote EmptyString).

Fixpoint join_comma (parts : list string) : string :=
  match parts with
  | [] => EmptyString
  | [p] => p
  | p :: rest => p ++ "," ++ join_comma rest
  end.

(** [JSON.stringify]: a property whose value is undefined is left out of an
    object.  At top level undefined has no JSON text; [WebSocket.send] would
    coerce it to the text below, and the component never does that. *)
Fixpoint JSON_stringify (v : JValue) : string :=
  match v with
  | JUndefined => "undefined"
  | JNull => "null"
  | JBool true => "true"
  | JBool false => "false"
  | JNumber repr => repr
  | JString s => json_quote s
  | JObject fields =>
      let fix members (fs : list (string * JValue)) : list string :=
        match fs with
        | [] => []
        | (k, JUndefined) :: rest => members rest
        | (k, x) :: rest => (json_quote k ++ ":" ++ JSON_stringify x) :: members rest
        end in
      "{" ++ join_comma (members fields) ++ "}"
  end.

Arguments JSON_stringify : simpl never.

(** An inbound frame after [JSON.parse]: the properties the router reads.
    [None] is a missing property. *)
Record Frame : Type := mkFrame {
  data_type : option string;
  data_text : option string;
  data_translated_text : option string;
  data_message : option string
}.

(** The body of the status resource after [response.json()]. *)
Record StatusData : Type := mkStatusData {
  status_is_recording : bool;
  status_text : option string;
  status_translated_text : option string
}.

(** What [fetch] and [response.json()] can do to the poller. *)
Inductive FetchOutcome : Type :=
| FetchRejected                     (* fetch throws: network error *)
| ResponseNotOk                     (* response.ok is false *)
| ResponseBadJson                   (* response.json() throws *)
| ResponseOk (data : StatusData).

(** JS truthiness of a possibly missing string: the empty string and
    undefined are falsy. *)
Definition truthy (s : option string) : bool :=
  match s with
  | Some (String _ _) => true
  | _ => false
  end.

(** [a || b] on strings. *)
Definition js_or (a : option string) (b : string) : string :=
  match a with
  | Some (String c rest) => String c rest
  | _ => b
  end.

(** ** Component state *)

Record TranscriptionState : Type := mkState {
  isRecording : bool;
  text : string;
  translatedText : string;
  error : option string;
  sessionId : option string
}.

Definition initial_state : TranscriptionState :=
  {| isRecording := false; text := EmptyString; translatedText := EmptyString;
     error := None; sessionId := None |}.

(** The settings the form holds when the user presses start. *)
Record FormValues : Type := mkForm {
  method : string;
  recognizerType : string;
  source : string;
  language : string;
  chunkDuration : string;          (* the number, as Number::toString prints it *)
  enableTranslation : bool;
  targetLanguage : string
}.

(** Timer handles and socket handles; abbreviations, so that lookups in
    maps and lists keyed by them are the library's own. *)
Abbreviation TimerId := positive (only parsing).
Abbreviation SocketId := nat (only parsing).

Inductive ReadyState : Type := CONNECTING | OPEN | CLOSING | CLOSED.

Global Instance ReadyState_eq_dec : EqDecision ReadyState.
Proof. solve_decision. Defined.

(** Closures handed to [setTimeout]. *)
Inductive TimeoutCallback : Type :=
| ReconnectCallback (cap : TranscriptionState)    (* reconnectWebSocket, the arrow passed to setTimeout *)
| CloseRetryCallback (cap : TranscriptionState).  (* ws.onclose of setupWebSocketHandlers, 500 ms *)

(** Closures handed to [setInterval]. *)
Inductive IntervalCallback : Type :=
| KeepaliveTick (cap : TranscriptionState) (ws : SocketId)
| ConnectionCheck (cap : TranscriptionState)
| PollSessionStatus (cap : TranscriptionState).

Inductive Timer : Type :=
| Timeout (delay : Z) (callback : TimeoutCallback)
| Interval (period : Z) (callback : IntervalCallback).

(** The handler properties of a WebSocket object. *)
Inductive OnOpen : Type :=
| StartOnOpen                                     (* startRecording *)
| ReconnectOnOpen (cap : TranscriptionState).     (* reconnectWebSocket *)

Inductive OnError : Type :=
| ReconnectOnError (cap : TranscriptionState)     (* reconnectWebSocket *)
| SetupOnError (cap : TranscriptionState).        (* setupWebSocketHandlers *)

Inductive OnClose : Type :=
| ReconnectOnClose (cap : TranscriptionState)     (* reconnectWebSocket *)
| SetupOnClose (cap : TranscriptionState).        (* setupWebSocketHandlers *)

Record Socket : Type := mkSocket {
  url : string;
  readyState : ReadyState;
  onopen : option OnOpen;
  onmessage : bool;      (* set by setupWebSocketHandlers; it reads no captured state *)
  onerror : option OnError;
  onclose : option OnClose;
  sent : list string     (* frames handed to the network, oldest first *)
}.

Record Refs : Type := mkRefs {
  wsRef : option SocketId;
  reconnectTimeoutRef : option TimerId;
  reconnectAttemptsRef : Z;
  pingIntervalRef : option TimerId;
  sessionIdRef : option string;
  recordingParamsRef : option JValue;
  statusPollIntervalRef : option TimerId
}.

Record World : Type := mkWorld {
  state : TranscriptionState;       (* React state, updaters applied *)
  rendered : TranscriptionState;    (* the state the last render closed over *)
  refs : Refs;
  timers : gmap TimerId Timer;      (* pending timeouts and running intervals *)
  next_timer : TimerId;
  sockets : list Socket;            (* every WebSocket constructed so far *)
  visibilityListener : option TranscriptionState;
  connectionCheckInterval : option TimerId
}.

(** ** Field updates *)

Definition set_state (v : TranscriptionState) (w : World) : World :=
  {| state := v; rendered := rendered w; refs := refs w; timers := timers w;
     next_timer := next_timer w; sockets := sockets w;
     visibilityListener := visibilityListener w;
     connectionCheckInterval := connectionCheckInterval w |}.

Definition set_rendered (v : TranscriptionState) (w : World) : World :=
  {| state := state w; rendered := v; refs := refs w; timers := timers w;
     next_timer := next_timer w; sockets := sockets w;
     visibilityListener := visibilityListener w;
     connectionCheckInterval := connectionCheckInterval w |}.

Definition set_refs (v : Refs) (w : World) : World :=
  {| state := state w; rendered := rendered w; refs := v; timers := timers w;
     next_timer := next_timer w; sockets := sockets w;
     visibilityListener := visibilityListener w;
     connectionCheckInterval := connectionCheckInterval w |}.

Definition set_timers (v : gmap TimerId Timer) (w : World) : World :=
  {| state := state w; rendered := rendered w; refs := refs w; timers := v;
     next_timer := next_timer w; sockets := sockets w;
     visibilityListener := visibilityListener w;
     connectionCheckInterval := connectionCheckInterval w |}.

Definition set_next_timer (v : TimerId) (w : World) : World :=
  {| state := state w; rendered := rendered w; refs := refs w; timers := timers w;
     next_timer := v; sockets := sockets w;
     visibilityListener := visibilityListener w;
     connectionCheckInterval := connectionCheckInterval w |}.

Definition set_sockets (v : list Socket) (w : World) : World :=
  {| state := state w; rendered := rendered w; refs := refs w; timers := timers w;
     next_timer := next_timer w; sockets := v;
     visibilityListener := visibilityListener w;
     connectionCheckInterval := connectionCheckInterval w |}.

Definition set_visibilityListener (v : option TranscriptionState) (w : World) : World :=
  {| state := state w; rendered := rendered w; refs := refs w; timers := timers w;
     next_timer := next_timer w; sockets := sockets w;
     visibilityListener := v;
     connectionCheckInterval := connectionCheckInterval w |}.

Definition set_connectionCheckInterval (v : option TimerId) (w : World) : World :=
  {| state := state w; rendered := rendered w; refs := refs w; timers := timers w;
     next_timer := next_timer w; sockets := sockets w;
     visibilityListener := visibilityListener w;
     connectionCheckInterval := v |}.

(** [ref.current = v] for each of the seven refs. *)
Definition assign_wsRef (v : option SocketId) (w : World) : World :=
  let r := refs w in
  set_refs {| wsRef := v; reconnectTimeoutRef := reconnectTimeoutRef r;
              reconnectAttemptsRef := reconnectAttemptsRef r;
              pingIntervalRef := pingIntervalRef r; sessionIdRef := sessionIdRef r;
              recordingParamsRef := recordingParamsRef r;
              statusPollIntervalRef := statusPollIntervalRef r |} w.

Definition assign_reconnectTimeoutRef (v : option TimerId) (w : World) : World :=
  let r := refs w in
  set_refs {| wsRef := wsRef r; reconnectTimeoutRef := v;
              reconnectAttemptsRef := reconnectAttemptsRef r;
              pingIntervalRef := pingIntervalRef r; sessionIdRef := sessionIdRef r;
              recordingParamsRef := recordingParamsRef r;
              statusPollIntervalRef := statusPollIntervalRef r |} w.

Definition assign_reconnectAttemptsRef (v : Z) (w : World) : World :=
  let r := refs w in
  set_refs {| wsRef := wsRef r; reconnectTimeoutRef := reconnectTimeoutRef r;
              reconnectAttemptsRef := v;
              pingIntervalRef := pingIntervalRef r; sessionIdRef := sessionIdRef r;
              recordingParamsRef := recordingParamsRef r;
              statusPollIntervalRef := statusPollIntervalRef r |} w.

Definition assign_pingIntervalRef (v : option TimerId) (w : World) : World :=
  let r := refs w in
  set_refs {| wsRef := wsRef r; reconnectTimeoutRef := reconnectTimeoutRef r;
              reconnectAttemptsRef := reconnectAttemptsRef r;
              pingIntervalRef := v; sessionIdRef := sessionIdRef r;
              recordingParamsRef := recordingParamsRef r;
              statusPollIntervalRef := statusPollIntervalRef r |} w.

Definition assign_sessionIdRef (v : option string) (w : World) : World :=
  let r := refs w in
  set_refs {| wsRef := wsRef r; reconnectTimeoutRef := reconnectTimeoutRef r;
              reconnectAttemptsRef := reconnectAttemptsRef r;
              pingIntervalRef := pingIntervalRef r; sessionIdRef := v;
              recordingParamsRef := recordingParamsRef r;
              statusPollIntervalRef := statusPollIntervalRef r |} w.

Definition assign_recordingParamsRef (v : option JValue) (w : World) : World :=
  let r := refs w in
  set_refs {| wsRef := wsRef r; reconnectTimeoutRef := reconnectTimeoutRef r;
              reconnectAttemptsRef := reconnectAttemptsRef r;
              pingIntervalRef := pingIntervalRef r; sessionIdRef := sessionIdRef r;
              recordingParamsRef := v;
              statusPollIntervalRef := statusPollIntervalRef r |} w.

Definition assign_statusPollIntervalRef (v : option TimerId) (w : World) : World :=
  let r := refs w in
  set_refs {| wsRef := wsRef r; reconnectTimeoutRef := reconnectTimeoutRef r;
              reconnectAttemptsRef := reconnectAttemptsRef r;
              pingIntervalRef := pingIntervalRef r; sessionIdRef := sessionIdRef r;
              recordingParamsRef := recordingParamsRef r;
              statusPollIntervalRef := v |} w.

(** [setState(prev => f prev)] *)
Definition setState (f : TranscriptionState -> TranscriptionState) (w : World) : World :=
  set_state (f (state w)) w.

(** ** The browser: timers and sockets *)

(** [setTimeout] and [setInterval] draw their handles from one counter; the
    handle returned is [next_timer] of the world before the call.  Handles
    are positive, hence truthy. *)
Definition setTimeout (callback : TimeoutCallback) (delay : Z) (w : World) : World :=
  set_next_timer (Pos.succ (next_timer w))
    (set_timers (<[next_timer w := Timeout delay callback]> (timers w)) w).

Definition setInterval (callback : IntervalCallback) (period : Z) (w : World) : World :=
  set_next_timer (Pos.succ (next_timer w))
    (set_timers (<[next_timer w := Interval period callback]> (timers w)) w).

Definition clearTimeout (id : TimerId) (w : World) : World :=
  set_timers (delete id (timers w)) w.

Definition clearInterval (id : TimerId) (w : World) : World :=
  set_timers (delete id (timers w)) w.

Definition ws_url_prefix : string := "ws://localhost:8000/ws/transcribe/".

(** The template literal with the session id spliced in; null prints as
    the four letters. *)
Definition ws_url (session : option string) : string :=
  ws_url_prefix ++ match session with Some sid => sid | None => "null" end.

(** [new WebSocket(url)]: the handle of the new object is its index. *)
Definition new_WebSocket (address : string) (w : World) : World :=
  set_sockets (sockets w ++
    [{| url := address; readyState := CONNECTING; onopen := None;
        onmessage := false; onerror := None; onclose := None; sent := [] |}]) w.

Definition update_socket (ws : SocketId) (f : Socket -> Socket) (w : World) : World :=
  set_sockets (alter f ws (sockets w)) w.

Definition with_readyState (v : ReadyState) (s : Socket) : Socket :=
  {| url := url s; readyState := v; onopen := onopen s; onmessage := onmessage s;
     onerror := onerror s; onclose := onclose s; sent := sent s |}.

Definition with_sent (v : list string) (s : Socket) : Socket :=
  {| url := url s; readyState := readyState s; onopen := onopen s;
     onmessage := onmessage s; onerror := onerror s; onclose := onclose s; sent := v |}.

Definition with_onopen (v : option OnOpen) (s : Socket) : Socket :=
  {| url := url s; readyState := readyState s; onopen := v;
     onmessage := onmessage s; onerror := onerror s; onclose := onclose s;
     sent := sent s |}.

Definition with_handlers (e : option OnError) (c : option OnClose) (s : Socket) : Socket :=
  {| url := url s; readyState := readyState s; onopen := onopen s;
     onmessage := true; onerror := e; onclose := c; sent := sent s |}.

Definition ready_of (ws : SocketId) (w : World) : option ReadyState :=
  readyState <$> sockets w !! ws.

(** [ws.send(data)]: InvalidStateError while connecting, queued when open,
    silently dropped once closing or closed. *)
Definition ws_send (data : string) (s : Socket) : option Socket :=
  match readyState s with
  | CONNECTING => None
  | OPEN => Some (with_sent (sent s ++ [data]) s)
  | CLOSING | CLOSED => Some s
  end.

(** [ws.close()] *)
Definition ws_close (s : Socket) : Socket :=
  match readyState s with
  | CONNECTING | OPEN => with_readyState CLOSING s
  | CLOSING | CLOSED => s
  end.

(** How the body of a callback ends. *)
Inductive Completion : Type :=
| Normal (w : World)
| Thrown (w : World).

Definition world_of (c : Completion) : World :=
  match c with Normal w | Thrown w => w end.

Definition send_on (ws : SocketId) (data : string) (w : World) : Completion :=
  match sockets w !! ws with
  | Some s =>
      match ws_send data s with
      | Some s' => Normal (update_socket ws (fun _ => s') w)
      | None => Thrown w
      end
  | None => Normal w
  end.

(** [!wsRef.current || wsRef.current.readyState !== WebSocket.OPEN] *)
Definition not_open (w : World) : bool :=
  match wsRef (refs w) with
  | Some ws => negb (bool_decide (ready_of ws w = Some OPEN))
  | None => true
  end.

(** ** The callbacks of the component *)

(** The delay expression of [reconnectWebSocket]:
    [attempts === 0 ? 100 : Math.min(1000 * Math.pow(2, attempts - 1), 10000)] *)
Definition reconnect_delay (attempts : Z) : Z :=
  if (attempts =? 0)%Z then 100
  else Z.min (1000 * 2 ^ (attempts - 1)) 10000.

(** The early return that opens [reconnectWebSocket]. *)
Definition reconnect_refused (cap : TranscriptionState) (w : World) : bool :=
  negb (isRecording cap)
  || negb (truthy (sessionIdRef (refs w)))
  || negb (bool_decide (is_Some (recordingParamsRef (refs w)))).

(** [reconnectWebSocket], up to and including the call of [setTimeout]. *)
Definition reconnectWebSocket (cap : TranscriptionState) (w : World) : World :=
  if reconnect_refused cap w then w
  else
    let w := match reconnectTimeoutRef (refs w) with
             | Some id => clearTimeout id w
             | None => w
             end in
    let delay := reconnect_delay (reconnectAttemptsRef (refs w)) in
    let w := assign_reconnectAttemptsRef (reconnectAttemptsRef (refs w) + 1) w in
    let id := next_timer w in
    let w := setTimeout (ReconnectCallback cap) delay w in
    assign_reconnectTimeoutRef (Some id) w.

(** The arrow [reconnectWebSocket] passes to [setTimeout].  [state] in it is
    the same captured record the early return above has tested.
    [constructor_throws] says whether [new WebSocket] raises. *)
Definition reconnectTimeoutCallback
    (cap : TranscriptionState) (constructor_throws : bool) (w : World) : World :=
  if negb (isRecording cap) then w
  else if constructor_throws then
    (if isRecording cap then reconnectWebSocket cap w else w)
  else
    let ws := length (sockets w) in
    let w := new_WebSocket (ws_url (sessionIdRef (refs w))) w in
    let w := assign_wsRef (Some ws) w in
    update_socket ws (fun s =>
      {| url := url s; readyState := readyState s;
         onopen := Some (ReconnectOnOpen cap); onmessage := onmessage s;
         onerror := Some (ReconnectOnError cap);
         onclose := Some (ReconnectOnClose cap); sent := sent s |}) w.

Definition ping_frame : JValue := JObject [("type", JString "ping")].
Definition stop_frame : JValue := JObject [("type", JString "stop")].
Definition clear_frame : JValue := JObject [("type", JString "clear")].

(** The keepalive arrow of [setupWebSocketHandlers].  [ws] is the socket the
    handlers were installed on, not [wsRef.current]. *)
Definition keepalive (cap : TranscriptionState) (ws : SocketId) (w : World) : World :=
  match sockets w !! ws with
  | Some s =>
      if bool_decide (readyState s = OPEN) then
        match ws_send (JSON_stringify ping_frame) s with
        | Some s' => update_socket ws (fun _ => s') w
        | None => if isRecording cap then reconnectWebSocket cap w else w
        end
      else if isRecording cap && bool_decide (readyState s = CLOSED)
      then reconnectWebSocket cap w
      else w
  | None => if isRecording cap then reconnectWebSocket cap w else w
  end.

Definition type_is (data : Frame) (kind : string) : bool :=
  bool_decide (data_type data = Some kind).

(** [ws.onmessage] of [setupWebSocketHandlers]; [None] is a payload
    [JSON.parse] rejects. *)
Definition onmessage_handler (payload : option Frame) (w : World) : World :=
  match payload with
  | None => w
  | Some data =>
      if type_is data "pong" then w
      else if type_is data "started" then w
      else if type_is data "reconnected" then
        setState (fun prev =>
          {| isRecording := isRecording prev;
             text := js_or (data_text data) EmptyString;
             translatedText := js_or (data_translated_text data) EmptyString;
             error := error prev; sessionId := sessionId prev |}) w
      else if type_is data "text" then
        let fullText := js_or (data_text data) EmptyString in
        if truthy (Some fullText) then
          setState (fun prev =>
            {| isRecording := isRecording prev; text := fullText;
               translatedText := translatedText prev;
               error := error prev; sessionId := sessionId prev |}) w
        else w
      else if type_is data "translated_text" then
        let translated := js_or (data_translated_text data) EmptyString in
        if truthy (Some translated) then
          setState (fun prev =>
            {| isRecording := isRecording prev; text := text prev;
               translatedText := translated;
               error := error prev; sessionId := sessionId prev |}) w
        else w
      else if type_is data "complete" then
        if truthy (data_text data) then
          setState (fun prev =>
            {| isRecording := false; text := js_or (data_text data) EmptyString;
               translatedText := translatedText prev;
               error := None; sessionId := sessionId prev |}) w
        else
          setState (fun prev =>
            {| isRecording := false; text := text prev;
               translatedText := translatedText prev;
               error := None; sessionId := sessionId prev |}) w
      else if type_is data "stopped" then
        let w := setState (fun prev =>
            {| isRecording := false; text := text prev;
               translatedText := translatedText prev;
               error := None; sessionId := sessionId prev |}) w in
        match pingIntervalRef (refs w) with
        | Some id => clearInterval id w
        | None => w
        end
      else if type_is data "cleared" then
        setState (fun prev =>
          {| isRecording := isRecording prev; text := EmptyString;
             translatedText := EmptyString;
             error := error prev; sessionId := sessionId prev |}) w
      else if type_is data "error" then
        setState (fun prev =>
          {| isRecording := false; text := text prev;
             translatedText := translatedText prev;
             error := data_message data; sessionId := sessionId prev |}) w
      else w
  end.

(** [ws.onerror] of [setupWebSocketHandlers] *)
Definition setup_onerror (cap : TranscriptionState) (w : World) : World :=
  if isRecording cap then reconnectWebSocket cap w else w.

(** [ws.onclose] of [setupWebSocketHandlers]: a bare [setTimeout], its handle
    is kept nowhere. *)
Definition setup_onclose (cap : TranscriptionState) (w : World) : World :=
  if isRecording cap then setTimeout (CloseRetryCallback cap) 500 w else w.

Definition closeRetryCallback (cap : TranscriptionState) (w : World) : World :=
  if isRecording cap then reconnectWebSocket cap w else w.

Definition setupWebSocketHandlers
    (cap : TranscriptionState) (ws : SocketId) (w : World) : World :=
  let w := match pingIntervalRef (refs w) with
           | Some id => clearInterval id w
           | None => w
           end in
  let id := next_timer w in
  let w := setInterval (KeepaliveTick cap ws) 10000 w in
  let w := assign_pingIntervalRef (Some id) w in
  update_socket ws
    (with_handlers (Some (SetupOnError cap)) (Some (SetupOnClose cap))) w.

(** [ws.onerror] and [ws.onclose] as [reconnectWebSocket] installs them. *)
Definition reconnect_onerror (cap : TranscriptionState) (w : World) : World :=
  if isRecording cap then reconnectWebSocket cap w else w.

Definition reconnect_onclose (cap : TranscriptionState) (code : Z) (w : World) : World :=
  if isRecording cap && negb (code =? 1000)%Z then reconnectWebSocket cap w else w.

(** The object [ws.onopen] of [reconnectWebSocket] builds from the cached
    parameters, property by property. *)
Definition replayed_params (p : JValue) : JValue :=
  JObject
    [("method", get_prop "method" p);
     ("recognizer_type", get_prop "recognizer_type" p);
     ("source", get_prop "source" p);
     ("language", get_prop "language" p);
     ("chunk_duration", get_prop "chunk_duration" p);
     ("enable_translation", get_prop "enable_translation" p);
     ("target_language", get_prop "target_language" p)].

(** [ws.onopen] of [reconnectWebSocket].  Reading a property of null raises
    a TypeError, after the counter was reset. *)
Definition reconnect_onopen
    (cap : TranscriptionState) (ws : SocketId) (w : World) : Completion :=
  let w := assign_reconnectAttemptsRef 0 w in
  match recordingParamsRef (refs w) with
  | None => Thrown w
  | Some p =>
      match send_on ws (JSON_stringify (replayed_params p)) w with
      | Normal w => Normal (setupWebSocketHandlers cap ws w)
      | Thrown w => Thrown w
      end
  end.

(** [JSON.stringify(recordingParamsRef.current)] *)
Definition cached_params_text (w : World) : string :=
  match recordingParamsRef (refs w) with
  | Some p => JSON_stringify p
  | None => JSON_stringify JNull
  end.

(** [ws.onopen] of [startRecording] *)
Definition start_onopen (ws : SocketId) (w : World) : Completion :=
  send_on ws (cached_params_text w) w.

(** The object literal [startRecording] stores in [recordingParamsRef]. *)
Definition params_of (form : FormValues) : JValue :=
  JObject
    [("method", JString (method form));
     ("recognizer_type",
        if String.eqb (method form) "system_recognizer"
        then JString (recognizerType form) else JUndefined);
     ("source", JString (source form));
     ("language", JString (language form));
     ("chunk_duration", JNumber (chunkDuration form));
     ("enable_translation", JBool (enableTranslation form));
     ("target_language", JString (targetLanguage form))].

(** [`session_${Date.now()}`] *)
Definition session_id (now : Z) : string := "session_" ++ pretty now.

(** [startRecording]; [new WebSocket] is not inside a try block here. *)
Definition startRecording
    (cap : TranscriptionState) (form : FormValues) (now : Z)
    (constructor_throws : bool) (w : World) : Completion :=
  let sid := session_id now in
  let w := assign_sessionIdRef (Some sid) w in
  let w := assign_reconnectAttemptsRef 0 w in
  let w := assign_recordingParamsRef (Some (params_of form)) w in
  let w := set_state {| isRecording := true; text := EmptyString;
                        translatedText := EmptyString; error := None;
                        sessionId := Some sid |} w in
  if constructor_throws then Thrown w
  else
    let ws := length (sockets w) in
    let w := new_WebSocket (ws_url (Some sid)) w in
    let w := assign_wsRef (Some ws) w in
    let w := update_socket ws (with_onopen (Some StartOnOpen)) w in
    Normal (setupWebSocketHandlers cap ws w).

(** [stopRecording] *)
Definition stopRecording (w : World) : Completion :=
  let w := match reconnectTimeoutRef (refs w) with
           | Some id => assign_reconnectTimeoutRef None (clearTimeout id w)
           | None => w
           end in
  let w := match pingIntervalRef (refs w) with
           | Some id => assign_pingIntervalRef None (clearInterval id w)
           | None => w
           end in
  let w := match statusPollIntervalRef (refs w) with
           | Some id => assign_statusPollIntervalRef None (clearInterval id w)
           | None => w
           end in
  let finish (w : World) : World :=
    let w := assign_sessionIdRef None w in
    let w := assign_recordingParamsRef None w in
    setState (fun prev =>
      {| isRecording := false; text := text prev;
         translatedText := translatedText prev;
         error := error prev; sessionId := sessionId prev |}) w in
  match wsRef (refs w) with
  | Some ws =>
      match send_on ws (JSON_stringify stop_frame) w with
      | Normal w =>
          let w := update_socket ws ws_close w in
          let w := assign_wsRef None w in
          Normal (finish w)
      | Thrown w => Thrown w
      end
  | None => Normal (finish w)
  end.

(** The click handler of the clear button, from the [setState] on. *)
Definition clearText (w : World) : World :=
  let w := setState (fun prev =>
      {| isRecording := isRecording prev; text := EmptyString;
         translatedText := EmptyString;
         error := error prev; sessionId := sessionId prev |}) w in
  match wsRef (refs w) with
  | Some ws =>
      if bool_decide (ready_of ws w = Some OPEN)
      then world_of (send_on ws (JSON_stringify clear_frame) w)
      else w
  | None => w
  end.

(** [handleVisibilityChange]; [hidden] is [document.hidden]. *)
Definition handleVisibilityChange
    (cap : TranscriptionState) (hidden : bool) (w : World) : World :=
  if hidden then w
  else if isRecording cap then
    if not_open w then
      reconnectWebSocket cap (assign_reconnectAttemptsRef 0 w)
    else w
  else w.

(** The arrow behind [connectionCheckInterval]. *)
Definition connectionCheck (cap : TranscriptionState) (w : World) : World :=
  if isRecording cap && not_open w then reconnectWebSocket cap w else w.

(** [pollSessionStatus]; the outcome of the request is an input. *)
Definition pollSessionStatus
    (cap : TranscriptionState) (outcome : FetchOutcome) (w : World) : World :=
  if negb (isRecording cap) || negb (truthy (sessionIdRef (refs w))) then w
  else
    match outcome with
    | FetchRejected => w
    | ResponseNotOk => w
    | ResponseBadJson => w
    | ResponseOk data =>
        if status_is_recording data then
          setState (fun prev =>
            {| isRecording := isRecording prev;
               text := js_or (status_text data) (text prev);
               translatedText := js_or (status_translated_text data) (translatedText prev);
               error := error prev; sessionId := sessionId prev |}) w
        else
          setState (fun prev =>
            {| isRecording := false; text := text prev;
               translatedText := translatedText prev;
               error := error prev; sessionId := sessionId prev |}) w
    end.

(** ** Rendering: the effect that depends on [state.isRecording] *)

Definition effect_cleanup (w : World) : World :=
  let w := set_visibilityListener None w in
  let w := match connectionCheckInterval w with
           | Some id => clearInterval id w
           | None => w
           end in
  match statusPollIntervalRef (refs w) with
  | Some id => clearInterval id w
  | None => w
  end.

Definition effect_setup (cap : TranscriptionState) (w : World) : World :=
  let id := next_timer w in
  let w := setInterval (ConnectionCheck cap) 3000 w in
  let w := set_connectionCheckInterval (Some id) w in
  let id := next_timer w in
  let w := setInterval (PollSessionStatus cap) 1000 w in
  let w := assign_statusPollIntervalRef (Some id) w in
  set_visibilityListener (Some cap) w.

(** A render commits the current state; the effect is re-run when its
    dependency [state.isRecording] differs from the previous render's. *)
Definition render (w : World) : World :=
  let previous := rendered w in
  let w := set_rendered (state w) w in
  if Bool.eqb (isRecording previous) (isRecording (state w)) then w
  else effect_setup (state w) (effect_cleanup w).

Definition null_refs : Refs :=
  {| wsRef := None; reconnectTimeoutRef := None; reconnectAttemptsRef := 0;
     pingIntervalRef := None; sessionIdRef := None; recordingParamsRef := None;
     statusPollIntervalRef := None |}.

(** The component after mounting: first render, effect run once. *)
Definition initial_world : World :=
  effect_setup initial_state
    {| state := initial_state; rendered := initial_state; refs := null_refs;
       timers := ∅; next_timer := 1%positive; sockets := [];
       visibilityListener := None; connectionCheckInterval := None |}.

(** ** The event loop *)

(** What the environment decides when a timer callback runs. *)
Record Env : Type := mkEnv {
  constructor_throws : bool;
  fetch_outcome : FetchOutcome
}.

Inductive Event : Type :=
| Render
| ClickStart (form : FormValues) (now : Z) (ctor_throws : bool)
| ClickStop
| ClickClear
| VisibilityChange (hidden : bool)
| TimerFires (id : TimerId) (env : Env)
| SocketOpen (ws : SocketId)
| SocketMessage (ws : SocketId) (payload : option Frame)
| SocketError (ws : SocketId)
| SocketClose (ws : SocketId) (code : Z)
| SocketClosing (ws : SocketId).        (* the peer began the closing handshake *)

Definition run_timeout (callback : TimeoutCallback) (env : Env) (w : World) : World :=
  match callback with
  | ReconnectCallback cap => reconnectTimeoutCallback cap (constructor_throws env) w
  | CloseRetryCallback cap => closeRetryCallback cap w
  end.

Definition run_interval (callback : IntervalCallback) (env : Env) (w : World) : World :=
  match callback with
  | KeepaliveTick cap ws => keepalive cap ws w
  | ConnectionCheck cap => connectionCheck cap w
  | PollSessionStatus cap => pollSessionStatus cap (fetch_outcome env) w
  end.

Definition dispatch_open (ws : SocketId) (s : Socket) (w : World) : World :=
  if bool_decide (readyState s = CONNECTING) then
    let w := update_socket ws (with_readyState OPEN) w in
    match onopen s with
    | Some StartOnOpen => world_of (start_onopen ws w)
    | Some (ReconnectOnOpen cap) => world_of (reconnect_onopen cap ws w)
    | None => w
    end
  else w.

Definition dispatch_message (s : Socket) (payload : option Frame) (w : World) : World :=
  if bool_decide (readyState s = OPEN) && onmessage s
  then onmessage_handler payload w
  else w.

Definition dispatch_error (s : Socket) (w : World) : World :=
  if bool_decide (readyState s = CLOSED) then w
  else
    match onerror s with
    | Some (ReconnectOnError cap) => reconnect_onerror cap w
    | Some (SetupOnError cap) => setup_onerror cap w
    | None => w
    end.

(** The closing handshake has begun on an open socket: the ready state
    changes, no handler runs until the close event. *)
Definition dispatch_closing (ws : SocketId) (s : Socket) (w : World) : World :=
  if bool_decide (readyState s = OPEN)
  then update_socket ws (with_readyState CLOSING) w
  else w.

Definition dispatch_close (ws : SocketId) (s : Socket) (code : Z) (w : World) : World :=
  if bool_decide (readyState s = CLOSED) then w
  else
    let w := update_socket ws (with_readyState CLOSED) w in
    match onclose s with
    | Some (ReconnectOnClose cap) => reconnect_onclose cap code w
    | Some (SetupOnClose cap) => setup_onclose cap w
    | None => w
    end.

(** One turn of the event loop.  The buttons are disabled exactly as the
    JSX says; a socket event reaches a handler only in a ready state in
    which the browser dispatches it. *)
Definition step (ev : Event) (w : World) : World :=
  match ev with
  | Render => render w
  | ClickStart form now ctor_throws =>
      if isRecording (rendered w) then w
      else world_of (startRecording (rendered w) form now ctor_throws w)
  | ClickStop =>
      if isRecording (rendered w) then world_of (stopRecording w) else w
  | ClickClear =>
      if negb (truthy (Some (text (rendered w))))
         && negb (truthy (Some (translatedText (rendered w))))
      then w else clearText w
  | VisibilityChange hidden =>
      match visibilityListener w with
      | Some cap => handleVisibilityChange cap hidden w
      | None => w
      end
  | TimerFires id env =>
      match timers w !! id with
      | Some (Timeout _ callback) => run_timeout callback env (clearTimeout id w)
      | Some (Interval _ callback) => run_interval callback env w
      | None => w
      end
  | SocketOpen ws =>
      match sockets w !! ws with
      | Some s => dispatch_open ws s w
      | None => w
      end
  | SocketMessage ws payload =>
      match sockets w !! ws with
      | Some s => dispatch_message s payload w
      | None => w
      end
  | SocketError ws =>
      match sockets w !! ws with
      | Some s => dispatch_error s w
      | None => w
      end
  | SocketClose ws code =>
      match sockets w !! ws with
      | Some s => dispatch_close ws s code w
      | None => w
      end
  | SocketClosing ws =>
      match sockets w !! ws with
      | Some s => dispatch_closing ws s w
      | None => w
      end
  end.

(** Events are handled one after the other, oldest first. *)
Definition run (evs : list Event) (w : World) : World :=
  foldl (fun acc ev => step ev acc) w evs.

(** ** Predicates and sample executions used by the properties *)

(** Pending timeouts armed by [reconnectWebSocket] are all the one whose
    handle [reconnectTimeoutRef] holds, and the closure of each captured an
    active session. *)
Definition one_pending_reconnect (w : World) : Prop :=
  forall id delay cap,
    timers w !! id = Some (Timeout delay (ReconnectCallback cap)) ->
    reconnectTimeoutRef (refs w) = Some id /\ isRecording cap = true.

(** An operation neither arms a reconnect timeout nor touches the ref that
    tracks it. *)
Definition arms_nothing (w w' : World) : Prop :=
  (forall id delay cap,
      timers w' !! id = Some (Timeout delay (ReconnectCallback cap)) ->
      timers w !! id = Some (Timeout delay (ReconnectCallback cap)))
  /\ reconnectTimeoutRef (refs w') = reconnectTimeoutRef (refs w).

(** No transport is, or can come to be, addressed by session [sid]: the
    cached id is another one and no socket from index [floor] on carries
    the address of [sid]. *)
Definition session_gone (sid : string) (floor : nat) (w : World) : Prop :=
  sessionIdRef (refs w) <> Some sid
  /\ forall i s, (floor <= i)%nat -> sockets w !! i = Some s ->
      url s <> ws_url (Some sid).

(** The event does not start a session at the clock value [now0]. *)
Definition not_started_at (now0 : Z) (ev : Event) : Prop :=
  match ev with
  | ClickStart _ now _ => now <> now0
  | _ => True
  end.

Definition sample_form : FormValues :=
  {| method := "system_recognizer"; recognizerType := "macos";
     source := "microphone"; language := "ru"; chunkDuration := "0.2";
     enableTranslation := false; targetLanguage := "en" |}.

Definition quiet : Env :=
  {| constructor_throws := false; fetch_outcome := FetchRejected |}.

Definition failing : Env :=
  {| constructor_throws := true; fetch_outcome := FetchRejected |}.

(** Start, first render, the socket opens and the server sends a text. *)
Definition session_open : World :=
  run [ClickStart sample_form 1700 false; Render; SocketOpen 0%nat;
       SocketMessage 0%nat
         (Some {| data_type := Some "text"; data_text := Some "abc";
                  data_translated_text := None; data_message := None |});
       Render]
    initial_world.

(** The socket then dies; the 3 s sweep (timer 4) notices and arms the
    reconnect timeout (timer 6, attempt 0). *)
Definition session_lost : World :=
  run [SocketClose 0%nat 1006; TimerFires 4%positive quiet] session_open.

(** Four attempts in a row fail in the constructor (timers 6 to 9), each
    arming the next one; timer 10 is pending and the counter is at 5. *)
Definition four_failures : World :=
  run [TimerFires 6%positive failing; TimerFires 7%positive failing;
       TimerFires 8%positive failing; TimerFires 9%positive failing]
    session_lost.

(** The state captured by the closures of the render that follows the
    start (the effect's listeners and everything they create). *)
Definition live_capture : TranscriptionState :=
  {| isRecording := true; text := EmptyString; translatedText := EmptyString;
     error := None; sessionId := Some (session_id 1700) |}.

Definition text_frame (snapshot : option string) : Frame :=
  {| data_type := Some "text"; data_text := snapshot;
     data_translated_text := None; data_message := None |}.

Definition resumed_frame (snapshot : option string) : Frame :=
  {| data_type := Some "reconnected"; data_text := snapshot;
     data_translated_text := None; data_message := None |}.

Definition stopped_frame : Frame :=
  {| data_type := Some "stopped"; data_text := None;
     data_translated_text := None; data_message := None |}.

(** Scenario B up to the resumed socket: the socket dies, the user clears
    the text while nothing is connected, the sweep arms the reconnect,
    the reconnect builds socket 1 and it opens. *)
Definition cleared_offline : World :=
  run [SocketClose 0%nat 1006; ClickClear] session_open.

Definition resumed_after_clear : World :=
  run [TimerFires 4%positive quiet; TimerFires 6%positive quiet;
       SocketOpen 1%nat] cleared_offline.

(** A field that carries nothing: absent, or the empty string. *)
Definition empty_or_absent (field : option string) : Prop :=
  field = None \/ field = Some EmptyString.

(** The server acknowledges a stop on the first socket of [session_open]. *)
Definition stopped_by_server : World :=
  step (SocketMessage 0%nat (Some stopped_frame)) session_open.

(** The resumed socket of Scenario B enters the closing handshake. *)
Definition resumed_closing : World :=
  step (SocketClosing 1%nat) resumed_after_clear.

(** A socket is consistent with the parameter frame [frame]: the first
    frame it has sent, if any, is [frame]; a socket that has sent nothing is
    not open yet and, while connecting, has an [onopen] handler. *)
Definition socket_ok (frame : string) (s : Socket) : Prop :=
  match sent s with
  | [] => readyState s <> OPEN /\ (readyState s = CONNECTING -> is_Some (onopen s))
  | first :: _ => first = frame
  end.

(** The cached parameters are [p] and every socket from index [floor] on is
    consistent with their serialisation. *)
Definition replay_inv (p : JValue) (floor : nat) (w : World) : Prop :=
  recordingParamsRef (refs w) = Some p
  /\ forall i s, (floor <= i)%nat -> sockets w !! i = Some s ->
      socket_ok (JSON_stringify p) s.

(** The event belongs to the running session: it neither starts another
    one nor stops this one. *)
Definition same_session (ev : Event) : Prop :=
  match ev with
  | ClickStart _ _ _ => False
  | ClickStop => False
  | _ => True
  end.

(** Scenario B again, as the events that follow [startRecording]. *)
Definition outage_and_resume : list Event :=
  [Render; SocketOpen 0%nat;
   SocketMessage 0%nat (Some (text_frame (Some "abc"))); Render;
   SocketClose 0%nat 1006; ClickClear;
   TimerFires 4%positive quiet; TimerFires 6%positive quiet; SocketOpen 1%nat].

Definition complete_frame : Frame :=
  {| data_type := Some "complete"; data_text := Some "abc";
     data_translated_text := None; data_message := None |}.

(** A session whose first socket died and was replaced (socket 1, opened by
    the reconnect path, so its handlers captured the active state) receives
    a complete frame; the component re-renders and the server closes the
    socket normally.  The [onclose] handler has armed its retry (timer 10). *)
Definition completed_then_closed : World :=
  run [ClickStart sample_form 1700 false; Render; SocketOpen 0%nat;
       SocketClose 0%nat 1006; TimerFires 4%positive quiet;
       TimerFires 6%positive quiet; SocketOpen 1%nat;
       SocketMessage 1%nat (Some complete_frame); Render;
       SocketClose 1%nat 1000]
    initial_world.

(** ** Further definitions: the rest of the component *)

(** The kinds the router has a branch for. *)
Definition handled_kinds : list string :=
  ["pong"; "started"; "reconnected"; "text"; "translated_text"; "complete";
   "stopped"; "cleared"; "error"].

Definition translation_frame (snapshot : option string) : Frame :=
  {| data_type := Some "translated_text"; data_text := None;
     data_translated_text := snapshot; data_message := None |}.

(** Start and first render: the first socket is still connecting. *)
Definition session_connecting : World :=
  run [ClickStart sample_form 1700 false; Render] initial_world.

(** The first three statements of [stopRecording]: each tracked timer is
    cancelled and its ref set to null. *)
Definition cancel_tracked (w : World) : World :=
  let w := match reconnectTimeoutRef (refs w) with
           | Some id => assign_reconnectTimeoutRef None (clearTimeout id w)
           | None => w
           end in
  let w := match pingIntervalRef (refs w) with
           | Some id => assign_pingIntervalRef None (clearInterval id w)
           | None => w
           end in
  match statusPollIntervalRef (refs w) with
  | Some id => assign_statusPollIntervalRef None (clearInterval id w)
  | None => w
  end.

(** The last three statements of [stopRecording]. *)
Definition forget_session (w : World) : World :=
  setState (fun prev =>
      {| isRecording := false; text := text prev;
         translatedText := translatedText prev;
         error := error prev; sessionId := sessionId prev |})
    (assign_recordingParamsRef None (assign_sessionIdRef None w)).

(** What a pending interval must satisfy: it is the one its ref tracks,
    it has the period the source gives it, and the closures the effect
    creates captured the recording flag of the last render. *)
Definition interval_ok (w : World) (id : TimerId) (period : Z)
    (callback : IntervalCallback) : Prop :=
  match callback with
  | KeepaliveTick _ _ =>
      pingIntervalRef (refs w) = Some id /\ period = 10000
  | ConnectionCheck cap =>
      connectionCheckInterval w = Some id /\ period = 3000
      /\ isRecording cap = isRecording (rendered w)
  | PollSessionStatus cap =>
      statusPollIntervalRef (refs w) = Some id /\ period = 1000
      /\ isRecording cap = isRecording (rendered w)
  end.

Definition tracked_intervals (w : World) : Prop :=
  (forall id period callback,
      timers w !! id = Some (Interval period callback) ->
      interval_ok w id period callback)
  /\ (forall cap, visibilityListener w = Some cap ->
        isRecording cap = isRecording (rendered w)).

(** The cleanup of the first effect, run when the component unmounts. *)
Definition unmount_cleanup (w : World) : World :=
  let w := match wsRef (refs w) with
           | Some ws => update_socket ws ws_close w
           | None => w
           end in
  let w := match reconnectTimeoutRef (refs w) with
           | Some id => clearTimeout id w
           | None => w
           end in
  let w := match pingIntervalRef (refs w) with
           | Some id => clearInterval id w
           | None => w
           end in
  match statusPollIntervalRef (refs w) with
  | Some id => clearInterval id w
  | None => w
  end.

(** Unmounting runs the cleanups of both effects, in the order the effects
    were declared. *)
Definition unmount (w : World) : World :=
  effect_cleanup (unmount_cleanup w).

(** [if (handle) clearTimeout(handle)] on the table of timers. *)
Definition cancel (handle : option TimerId) (table : gmap TimerId Timer) :
    gmap TimerId Timer :=
  match handle with
  | Some id => delete id table
  | None => table
  end.

(** A session that loses its connection, is picked up by the sweep and is
    then stopped by the user. *)
Definition outage_then_stop : list Event :=
  [ClickStart sample_form 1700 false; Render; SocketOpen 0%nat;
   SocketMessage 0%nat (Some (text_frame (Some "abc"))); Render;
   SocketClose 0%nat 1006; TimerFires 4%positive quiet; ClickStop; Render].

(** The user starts a recording and the component renders. *)
Definition start_then_render : list Event :=
  [ClickStart sample_form 1700 false; Render].

(** The first four statements of [startRecording]: the session id, the
    counter and the parameters are cached and the state is reset. *)
Definition begin_session (form : FormValues) (now : Z) (w : World) : World :=
  set_state {| isRecording := true; text := EmptyString;
               translatedText := EmptyString; error := None;
               sessionId := Some (session_id now) |}
    (assign_recordingParamsRef (Some (params_of form))
       (assign_reconnectAttemptsRef 0
          (assign_sessionIdRef (Some (session_id now)) w))).

(** The socket was opened at the address of a session that
    [startRecording] named. *)
Definition addressed (s : Socket) : Prop :=
  exists now, url s = ws_url (Some (session_id now)).

(** What the refs, the state, the reconnect timeouts and the sockets say
    about the session agrees. *)
Definition session_consistent (w : World) : Prop :=
  0 <= reconnectAttemptsRef (refs w)
  /\ (sessionIdRef (refs w) = None <-> recordingParamsRef (refs w) = None)
  /\ (forall sid, sessionIdRef (refs w) = Some sid ->
        sessionId (state w) = Some sid /\ exists now, sid = session_id now)
  /\ (forall id delay cap,
        timers w !! id = Some (Timeout delay (ReconnectCallback cap)) ->
        reconnectTimeoutRef (refs w) = Some id /\ is_Some (sessionIdRef (refs w)))
  /\ Forall addressed (sockets w).

(** The socket [reconnectWebSocket]'s timeout leaves behind: connecting,
    with the three handlers of the reconnect path. *)
Definition reconnecting_socket (cap : TranscriptionState) (address : string) : Socket :=
  {| url := address; readyState := CONNECTING;
     onopen := Some (ReconnectOnOpen cap); onmessage := false;
     onerror := Some (ReconnectOnError cap);
     onclose := Some (ReconnectOnClose cap); sent := [] |}.

(** An outage as the sweep repairs it: the sweep ticks, the reconnect
    timeout it armed fires, the new socket opens. *)
Definition repair (sweep : TimerId) (env env' : Env) (w : World) : list Event :=
  [TimerFires sweep env; TimerFires (next_timer w) env';
   SocketOpen (length (sockets w))].

(** ** The platform default *)

(** [hay.includes(needle)] *)
Fixpoint includes (needle hay : string) : bool :=
  String.prefix needle hay
  || match hay with
     | EmptyString => false
     | String _ rest => includes needle rest
     end.

(** [getDefaultRecognizerType]; [platform] is the text
    [navigator.platform.toLowerCase()] yields. *)
Definition getDefaultRecognizerType (platform : string) : string :=
  if includes "mac" platform || includes "darwin" platform then "macos"
  else if includes "win" platform then "windows"
  else "google".

(** ** Saving and clearing the transcript *)

(** JavaScript truthiness of a parsed JSON value; a number is held as the
    text [Number::toString] prints for it. *)
Definition js_truthy (v : JValue) : bool :=
  match v with
  | JUndefined | JNull => false
  | JBool b => b
  | JNumber repr => negb (String.eqb repr "0") && negb (String.eqb repr "NaN")
  | JString s => truthy (Some s)
  | JObject _ => true
  end.

(** What the [catch] block of [saveText] can receive. *)
Inductive SaveError : Type :=
| FetchFailed                      (* fetch rejected *)
| BodyNotJson                      (* response.json() rejected *)
| ReadOfNull                       (* data is null: data.success raises a TypeError *)
| NotSaved (detail : JValue).      (* new Error(data.detail || ...) *)

(** What the browser is asked to do, in order. *)
Inductive Effect : Type :=
| Alert (message : string)
| AlertSaved (file : JValue)       (* the template with data.file spliced in *)
| ConsoleError (label : string)
| SaveFailed (error : SaveError)   (* console.error in the catch block of saveText *)
| Post (address : string)
| ClipboardWrite (content : string)
| NewBlob (content mime : string)
| CreateObjectURL
| CreateAnchor (download : string) (* createElement, href and download set *)
| AppendChild
| Click
| RemoveChild
| RevokeObjectURL.

(** The outcome of the POST request of [saveText]. *)
Inductive SaveOutcome : Type :=
| SaveRejected
| SaveBodyBad
| SaveBody (data : JValue).

Definition colon : Ascii.ascii := Ascii.ascii_of_nat 58.
Definition full_stop : Ascii.ascii := Ascii.ascii_of_nat 46.
Definition hyphen : Ascii.ascii := Ascii.ascii_of_nat 45.
Definition newline : Ascii.ascii := Ascii.ascii_of_nat 10.

(** [s.replace(/[:.]/g, "-")] *)
Fixpoint replace_colon_dot (s : string) : string :=
  match s with
  | EmptyString => EmptyString
  | String c rest =>
      String (if Ascii.eqb c colon || Ascii.eqb c full_stop then hyphen else c)
        (replace_colon_dot rest)
  end.

(** The template of the file name; [iso] is [new Date().toISOString()]. *)
Definition download_name (iso : string) : string :=
  "transcript_" ++ replace_colon_dot iso ++ ".txt".

(** The eight statements that hand a text to the user as a file. *)
Definition save_locally (content iso : string) : list Effect :=
  [NewBlob content "text/plain;charset=utf-8"; CreateObjectURL;
   CreateAnchor (download_name iso); AppendChild; Click; RemoveChild;
   RevokeObjectURL].

Definition save_url (sid : string) : string :=
  "http://localhost:8000/api/save/" ++ sid.

(** [saveText]; [cap] is the state of the render whose button was pressed. *)
Definition saveText (cap : TranscriptionState) (outcome : SaveOutcome)
    (iso : string) : list Effect :=
  if negb (truthy (Some (text cap))) then [Alert "Нет текста для сохранения"]
  else
    match sessionId cap with
    | Some (String c rest) =>
        let fallback (error : SaveError) : list Effect :=
          SaveFailed error :: save_locally (text cap) iso in
        Post (save_url (String c rest)) ::
        match outcome with
        | SaveRejected => fallback FetchFailed
        | SaveBodyBad => fallback BodyNotJson
        | SaveBody JNull | SaveBody JUndefined => fallback ReadOfNull
        | SaveBody data =>
            if js_truthy (get_prop "success" data)
            then [AlertSaved (get_prop "file" data)]
            else
              fallback
                (NotSaved (if js_truthy (get_prop "detail" data)
                           then get_prop "detail" data
                           else JString "Ошибка сохранения"))
        end
    | _ => save_locally (text cap) iso
    end.

Definition translation_rule : string :=
  String newline (String newline "--- Перевод ---") ++ String newline EmptyString.

(** [textToCopy] of the clear button; [translating] is [enableTranslation]. *)
Definition textToCopy (translating : bool) (cap : TranscriptionState) : string :=
  if translating && truthy (Some (translatedText cap))
  then text cap ++ translation_rule ++ translatedText cap
  else text cap.

(** The clear button up to its [setState]: the text goes to the clipboard,
    a failure is logged and otherwise ignored. *)
Definition copy_before_clear (translating : bool) (cap : TranscriptionState)
    (accepted : bool) : list Effect :=
  if truthy (Some (textToCopy translating cap)) then
    ClipboardWrite (textToCopy translating cap) ::
    (if accepted then [] else [ConsoleError "Ошибка копирования:"])
  else [].

(** The [disabled] attributes of the save and clear buttons. *)
Definition save_enabled (cap : TranscriptionState) : bool :=
  truthy (Some (text cap)).

Definition clear_enabled (cap : TranscriptionState) : bool :=
  negb (negb (truthy (Some (text cap)))
        && negb (truthy (Some (translatedText cap)))).

(** How often a character occurs in a string. *)
Fixpoint occurrences (c : Ascii.ascii) (s : string) : nat :=
  match s with
  | EmptyString => 0
  | String d rest => (if Ascii.eqb d c then 1 else 0) + occurrences c rest
  end.

(** A finished transcript whose session the state still names. *)
Definition transcript_held : TranscriptionState :=
  {| isRecording := false; text := "abc"; translatedText := EmptyString;
     error := None; sessionId := Some (session_id 1700) |}.

(** A render that shows a translation only, with translation switched off
    in the form. *)
Definition translation_only : TranscriptionState :=
  {| isRecording := false; text := EmptyString; translatedText := "abc";
     error := None; sessionId := None |}.

(** The socket [startRecording] leaves behind. *)
Definition first_socket (cap : TranscriptionState) (now : Z) : Socket :=
  {| url := ws_url (Some (session_id now)); readyState := CONNECTING;
     onopen := Some StartOnOpen; onmessage := true;
     onerror := Some (SetupOnError cap); onclose := Some (SetupOnClose cap);
     sent := [] |}.

(** The state [startRecording] sets. *)
Definition fresh_state (now : Z) : TranscriptionState :=
  {| isRecording := true; text := EmptyString; translatedText := EmptyString;
     error := None; sessionId := Some (session_id now) |}.

(** ** Sessions that follow one another *)

(** Other settings than [sample_form]. *)
Definition other_form : FormValues :=
  {| method := "whisper_base"; recognizerType := "google";
     source := "system"; language := "en"; chunkDuration := "30";
     enableTranslation := true; targetLanguage := "ru" |}.

(** The status resource answers that the session records no more. *)
Definition not_recording : Env :=
  {| constructor_throws := false;
     fetch_outcome := ResponseOk {| status_is_recording := false;
                                    status_text := None;
                                    status_translated_text := None |} |}.

(** The session started at 1700 loses its socket and the reconnect path
    builds socket 1 for it.  While that socket is connecting the poller
    learns that the server records no more; the component re-renders and
    the user starts a session with other settings at 1800. *)
Definition overlapping_sessions : World :=
  run [ClickStart sample_form 1700 false; Render; SocketOpen 0%nat;
       SocketClose 0%nat 1006; TimerFires 4%positive quiet;
       TimerFires 6%positive quiet; TimerFires 5%positive not_recording;
       Render; ClickStart other_form 1800 false]
    initial_world.

(** The event is not a press of the start button. *)
Definition not_a_start (ev : Event) : Prop :=
  match ev with
  | ClickStart _ _ _ => False
  | _ => True
  end.

(** No session is cached, no reconnect timeout is pending and [n] sockets
    have been constructed so far. *)
Definition dormant (n : nat) (w : World) : Prop :=
  sessionIdRef (refs w) = None
  /\ (forall id delay cap,
        timers w !! id <> Some (Timeout delay (ReconnectCallback cap)))
  /\ length (sockets w) = n.

(** The session of [session_lost] is stopped, the component re-renders
    and the user starts again while the clock still reads 1700. *)
Definition stop_and_restart : list Event :=
  [ClickStop; Render; ClickStart sample_form 1700 false].

(** The resumed socket of Scenario B dies: its close handler, installed
    by [setupWebSocketHandlers] from the reconnect path, arms the retry
    (timer 8). *)
Definition resumed_then_lost : World :=
  step (SocketClose 1%nat 1006) resumed_after_clear.

(** The user then stops, the component re-renders and the user starts a
    session at 1800; the retry armed before the stop is still pending. *)
Definition restarted_later : World :=
  run [ClickStop; Render; ClickStart other_form 1800 false] resumed_then_lost.

(** The handle the poller's ref holds was handed out before. *)
Definition poll_handle_old (w : World) : Prop :=
  forall id, statusPollIntervalRef (refs w) = Some id ->
    (id < next_timer w)%positive.

(** The status resource reports a recording session and the text xyz. *)
Definition still_recording : Env :=
  {| constructor_throws := false;
     fetch_outcome := ResponseOk {| status_is_recording := true;
                                    status_text := Some "xyz";
                                    status_translated_text := None |} |}.

(** The events that lead from mounting to [session_lost]. *)
Definition outage : list Event :=
  [ClickStart sample_form 1700 false; Render; SocketOpen 0%nat;
   SocketMessage 0%nat (Some (text_frame (Some "abc"))); Render;
   SocketClose 0%nat 1006; TimerFires 4%positive quiet].

(** What can follow a stop while the user does not start again. *)
Definition aftermath : list Event :=
  [TimerFires 4%positive quiet; TimerFires 6%positive quiet;
   VisibilityChange false; Render; SocketClose 0%nat 1005;
   TimerFires 7%positive quiet].

(** * Properties *)

(** ** What [reconnectWebSocket] does when it is not refused *)

Lemma reconnect_refused_true cap w :
  reconnect_refused cap w = true -> reconnectWebSocket cap w = w.
Proof. unfold reconnectWebSocket. by intros ->. Qed.

Lemma reconnect_delay_later k :
  1 <= k -> reconnect_delay k = Z.min (1000 * 2 ^ (k - 1)) 10000.
Proof.
  intros Hk. unfold reconnect_delay.
  destruct (Z.eqb_spec k 0) as [->|_]; [lia | reflexivity].
Qed.

Lemma reconnect_delay_capped k : 5 <= k -> reconnect_delay k = 10000.
Proof.
  intros Hk. rewrite reconnect_delay_later by lia.
  assert (2 ^ 4 <= 2 ^ (k - 1)) as Hpow by (apply Z.pow_le_mono_r; lia).
  change (2 ^ 4) with 16 in Hpow. lia.
Qed.

Lemma reconnect_timers cap w :
  reconnect_refused cap w = false ->
  timers (reconnectWebSocket cap w) =
    <[next_timer w :=
        Timeout (reconnect_delay (reconnectAttemptsRef (refs w))) (ReconnectCallback cap)]>
      (match reconnectTimeoutRef (refs w) with
       | Some id => delete id (timers w)
       | None => timers w
       end).
Proof.
  intros Hgo. unfold reconnectWebSocket. rewrite Hgo.
  by destruct (reconnectTimeoutRef (refs w)).
Qed.

Lemma reconnect_refs cap w :
  reconnect_refused cap w = false ->
  refs (reconnectWebSocket cap w) =
    {| wsRef := wsRef (refs w);
       reconnectTimeoutRef := Some (next_timer w);
       reconnectAttemptsRef := reconnectAttemptsRef (refs w) + 1;
       pingIntervalRef := pingIntervalRef (refs w);
       sessionIdRef := sessionIdRef (refs w);
       recordingParamsRef := recordingParamsRef (refs w);
       statusPollIntervalRef := statusPollIntervalRef (refs w) |}.
Proof.
  intros Hgo. unfold reconnectWebSocket. rewrite Hgo.
  by destruct (reconnectTimeoutRef (refs w)).
Qed.

(** [reconnectWebSocket] touches timers and two refs, nothing else. *)
Lemma reconnect_frame cap w :
  state (reconnectWebSocket cap w) = state w
  /\ rendered (reconnectWebSocket cap w) = rendered w
  /\ sockets (reconnectWebSocket cap w) = sockets w
  /\ visibilityListener (reconnectWebSocket cap w) = visibilityListener w
  /\ connectionCheckInterval (reconnectWebSocket cap w) = connectionCheckInterval w
  /\ wsRef (refs (reconnectWebSocket cap w)) = wsRef (refs w)
  /\ pingIntervalRef (refs (reconnectWebSocket cap w)) = pingIntervalRef (refs w)
  /\ sessionIdRef (refs (reconnectWebSocket cap w)) = sessionIdRef (refs w)
  /\ recordingParamsRef (refs (reconnectWebSocket cap w)) = recordingParamsRef (refs w)
  /\ statusPollIntervalRef (refs (reconnectWebSocket cap w)) = statusPollIntervalRef (refs w).
Proof.
  unfold reconnectWebSocket.
  destruct (reconnect_refused cap w); [done|].
  by destruct (reconnectTimeoutRef (refs w)).
Qed.

(** ** C1: the backoff schedule *)

(** C1. For a counter [k >= 0] the delay is 100 ms at [k = 0] and
    [min (1000 * 2^(k-1)) 10000] ms from [k = 1] on; for [k = 0..5] it is
    100, 1000, 2000, 4000, 8000, 10000 and it stays 10000 for every larger
    [k].  A call of [reconnectWebSocket] that is not refused arms the timer
    with the delay of the counter it found, and leaves the counter one
    higher. *)
Theorem reconnect_backoff_schedule (k : Z) :
  0 <= k ->
  (k = 0 -> reconnect_delay k = 100)
  /\ (1 <= k -> reconnect_delay k = Z.min (1000 * 2 ^ (k - 1)) 10000)
  /\ reconnect_delay <$> [0; 1; 2; 3; 4; 5] = [100; 1000; 2000; 4000; 8000; 10000]
  /\ (5 <= k -> reconnect_delay k = 10000)
  /\ (forall cap w,
        reconnect_refused cap w = false ->
        reconnectAttemptsRef (refs w) = k ->
        timers (reconnectWebSocket cap w) !! next_timer w
          = Some (Timeout (reconnect_delay k) (ReconnectCallback cap))
        /\ reconnectTimeoutRef (refs (reconnectWebSocket cap w)) = Some (next_timer w)
        /\ reconnectAttemptsRef (refs (reconnectWebSocket cap w)) = k + 1).
Proof.
  intros Hk.
  split; [by intros -> |].
  split; [apply reconnect_delay_later |].
  split; [reflexivity |].
  split; [apply reconnect_delay_capped |].
  intros cap w Hgo Hcount.
  rewrite reconnect_timers, reconnect_refs, Hcount by done.
  split; [apply lookup_insert_eq | done].
Qed.

Lemma reconnect_backoff_schedule_witness :
  reconnect_delay 5 = 10000
  /\ timers (reconnectWebSocket live_capture four_failures) !! 11%positive
       = Some (Timeout 10000 (ReconnectCallback live_capture))
  /\ reconnectAttemptsRef (refs (reconnectWebSocket live_capture four_failures)) = 6.
Proof.
  destruct (reconnect_backoff_schedule 5) as (_ & _ & _ & Hcap & Hcall); [lia |].
  destruct (Hcall live_capture four_failures) as (Htimer & _ & Hcount);
    [vm_compute; reflexivity | vm_compute; reflexivity |].
  split_and!; [apply Hcap; lia | exact Htimer | exact Hcount].
Defined.

(** ** C3: one pending reconnect at most *)

Lemma arms_nothing_keeps w w' :
  arms_nothing w w' -> one_pending_reconnect w -> one_pending_reconnect w'.
Proof.
  intros [Hsub Href] Hone id delay cap Hid.
  rewrite Href. eapply Hone, Hsub, Hid.
Qed.

Lemma keeps_same_timers w w' :
  timers w' = timers w ->
  reconnectTimeoutRef (refs w') = reconnectTimeoutRef (refs w) ->
  one_pending_reconnect w -> one_pending_reconnect w'.
Proof.
  intros Ht Hr. apply arms_nothing_keeps. split; [|done].
  intros id delay cap. by rewrite Ht.
Qed.

Lemma keeps_clear id w :
  one_pending_reconnect w -> one_pending_reconnect (clearTimeout id w).
Proof.
  apply arms_nothing_keeps. split; [|done].
  intros i delay cap. simpl. rewrite lookup_delete_Some. tauto.
Qed.

Lemma keeps_setInterval callback period w :
  one_pending_reconnect w -> one_pending_reconnect (setInterval callback period w).
Proof.
  apply arms_nothing_keeps. split; [|done].
  intros i delay cap. simpl. rewrite lookup_insert_Some.
  intros [[_ ?]|[_ ?]]; [discriminate | done].
Qed.

Lemma keeps_close_retry cap w :
  one_pending_reconnect w ->
  one_pending_reconnect (setTimeout (CloseRetryCallback cap) 500 w).
Proof.
  apply arms_nothing_keeps. split; [|done].
  intros i delay c. simpl. rewrite lookup_insert_Some.
  intros [[_ ?]|[_ ?]]; [discriminate | done].
Qed.

Lemma keeps_reconnect cap w :
  one_pending_reconnect w -> one_pending_reconnect (reconnectWebSocket cap w).
Proof.
  intros Hone. destruct (reconnect_refused cap w) eqn:Hgo.
  { by rewrite reconnect_refused_true. }
  intros id delay c. rewrite reconnect_timers, reconnect_refs by done. simpl.
  rewrite lookup_insert_Some. intros [[-> Hnew]|[Hne Hold]].
  { injection Hnew as _ <-. split; [done|].
    unfold reconnect_refused in Hgo. by destruct (isRecording cap). }
  exfalso. destruct (reconnectTimeoutRef (refs w)) as [old|] eqn:Href.
  - apply lookup_delete_Some in Hold as [Hneq Hold].
    apply Hone in Hold as [Hold _]. congruence.
  - apply Hone in Hold as [Hold _]. congruence.
Qed.

(** Once the tracked handle is cleared, no reconnect timeout is left, so
    the ref may be reset. *)
Lemma keeps_clear_tracked id w :
  reconnectTimeoutRef (refs w) = Some id ->
  one_pending_reconnect w ->
  one_pending_reconnect (assign_reconnectTimeoutRef None (clearTimeout id w)).
Proof.
  intros Href Hone i delay cap. simpl.
  rewrite lookup_delete_Some. intros [Hne Hi].
  apply Hone in Hi as [Hi _]. congruence.
Qed.

Create HintDb pending discriminated.

#[local] Hint Resolve keeps_clear keeps_setInterval keeps_close_retry
  keeps_reconnect keeps_clear_tracked : pending.

#[local] Hint Extern 1 (one_pending_reconnect (clearInterval _ _)) =>
  apply keeps_clear : pending.

(** Every other primitive leaves timers and the tracking ref as they are. *)
Ltac peel_pending w :=
  apply (keeps_same_timers w); [reflexivity | reflexivity | ].

#[local] Hint Extern 1 (one_pending_reconnect (set_state _ ?w)) =>
  peel_pending w : pending.
#[local] Hint Extern 1 (one_pending_reconnect (setState _ ?w)) =>
  peel_pending w : pending.
#[local] Hint Extern 1 (one_pending_reconnect (set_rendered _ ?w)) =>
  peel_pending w : pending.
#[local] Hint Extern 1 (one_pending_reconnect (set_sockets _ ?w)) =>
  peel_pending w : pending.
#[local] Hint Extern 1 (one_pending_reconnect (new_WebSocket _ ?w)) =>
  peel_pending w : pending.
#[local] Hint Extern 1 (one_pending_reconnect (update_socket _ _ ?w)) =>
  peel_pending w : pending.
#[local] Hint Extern 1 (one_pending_reconnect (set_visibilityListener _ ?w)) =>
  peel_pending w : pending.
#[local] Hint Extern 1 (one_pending_reconnect (set_connectionCheckInterval _ ?w)) =>
  peel_pending w : pending.
#[local] Hint Extern 1 (one_pending_reconnect (assign_wsRef _ ?w)) =>
  peel_pending w : pending.
#[local] Hint Extern 1 (one_pending_reconnect (assign_reconnectAttemptsRef _ ?w)) =>
  peel_pending w : pending.
#[local] Hint Extern 1 (one_pending_reconnect (assign_pingIntervalRef _ ?w)) =>
  peel_pending w : pending.
#[local] Hint Extern 1 (one_pending_reconnect (assign_sessionIdRef _ ?w)) =>
  peel_pending w : pending.
#[local] Hint Extern 1 (one_pending_reconnect (assign_recordingParamsRef _ ?w)) =>
  peel_pending w : pending.
#[local] Hint Extern 1 (one_pending_reconnect (assign_statusPollIntervalRef _ ?w)) =>
  peel_pending w : pending.

Ltac crush_pending :=
  intros; repeat case_match; subst; cbv zeta; eauto 20 with pending.

Lemma send_on_world ws data w :
  world_of (send_on ws data w) = w
  \/ exists s', world_of (send_on ws data w) = update_socket ws (fun _ => s') w.
Proof.
  unfold send_on. repeat case_match; simpl; eauto.
Qed.

Lemma send_on_pending ws data w c :
  send_on ws data w = c ->
  one_pending_reconnect w -> one_pending_reconnect (world_of c).
Proof.
  intros <-. destruct (send_on_world ws data w) as [->|[s' ->]]; crush_pending.
Qed.

Lemma setup_pending cap ws w :
  one_pending_reconnect w -> one_pending_reconnect (setupWebSocketHandlers cap ws w).
Proof. unfold setupWebSocketHandlers. crush_pending. Qed.

#[local] Hint Resolve setup_pending : pending.

Lemma timeout_callback_pending cap throws w :
  one_pending_reconnect w ->
  one_pending_reconnect (reconnectTimeoutCallback cap throws w).
Proof. unfold reconnectTimeoutCallback. crush_pending. Qed.

Lemma keepalive_pending cap ws w :
  one_pending_reconnect w -> one_pending_reconnect (keepalive cap ws w).
Proof. unfold keepalive. crush_pending. Qed.

Lemma onmessage_pending payload w :
  one_pending_reconnect w -> one_pending_reconnect (onmessage_handler payload w).
Proof. unfold onmessage_handler. crush_pending. Qed.

Lemma reconnect_onopen_pending cap ws w :
  one_pending_reconnect w ->
  one_pending_reconnect (world_of (reconnect_onopen cap ws w)).
Proof.
  unfold reconnect_onopen. intros Hone. cbv zeta.
  destruct (recordingParamsRef _); [|crush_pending].
  destruct (send_on _ _ _) as [w'|w'] eqn:Hsend;
    apply send_on_pending in Hsend; simpl world_of in *; crush_pending.
Qed.

Lemma start_onopen_pending ws w :
  one_pending_reconnect w -> one_pending_reconnect (world_of (start_onopen ws w)).
Proof. unfold start_onopen. intros. by eapply send_on_pending. Qed.

Lemma start_pending cap form now throws w :
  one_pending_reconnect w ->
  one_pending_reconnect (world_of (startRecording cap form now throws w)).
Proof. unfold startRecording. crush_pending; simpl; crush_pending. Qed.

Lemma stop_pending w :
  one_pending_reconnect w -> one_pending_reconnect (world_of (stopRecording w)).
Proof.
  unfold stopRecording. intros Hone. cbv zeta.
  set (w1 := match reconnectTimeoutRef (refs w) with
             | Some id => _ | None => w end).
  assert (one_pending_reconnect w1) as H1 by (subst w1; crush_pending).
  clearbody w1.
  set (w2 := match pingIntervalRef (refs w1) with
             | Some id => _ | None => w1 end).
  assert (one_pending_reconnect w2) as H2 by (subst w2; crush_pending).
  clearbody w2.
  set (w3 := match statusPollIntervalRef (refs w2) with
             | Some id => _ | None => w2 end).
  assert (one_pending_reconnect w3) as H3 by (subst w3; crush_pending).
  clearbody w3.
  destruct (wsRef (refs w3)); [|simpl; crush_pending].
  destruct (send_on _ _ _) as [w'|w'] eqn:Hsend;
    apply send_on_pending in Hsend; simpl world_of in *; crush_pending.
Qed.

Lemma clear_pending w :
  one_pending_reconnect w -> one_pending_reconnect (clearText w).
Proof.
  unfold clearText. intros Hone. cbv zeta.
  repeat case_match; try crush_pending.
  eapply send_on_pending; [reflexivity|]. crush_pending.
Qed.

Lemma visibility_pending cap hidden w :
  one_pending_reconnect w ->
  one_pending_reconnect (handleVisibilityChange cap hidden w).
Proof. unfold handleVisibilityChange. crush_pending. Qed.

Lemma poll_pending cap outcome w :
  one_pending_reconnect w -> one_pending_reconnect (pollSessionStatus cap outcome w).
Proof. unfold pollSessionStatus. crush_pending. Qed.

Lemma render_pending w :
  one_pending_reconnect w -> one_pending_reconnect (render w).
Proof. unfold render, effect_setup, effect_cleanup. crush_pending. Qed.

Lemma step_pending ev w :
  one_pending_reconnect w -> one_pending_reconnect (step ev w).
Proof.
  intros Hone. destruct ev; simpl.
  - by apply render_pending.
  - case_match; [done | by apply start_pending].
  - case_match; [by apply stop_pending | done].
  - case_match; [done | by apply clear_pending].
  - case_match; [by apply visibility_pending | done].
  - destruct (timers w !! id) as [[delay [cap|cap]|period [cap ws|cap|cap]]|] eqn:Hid;
      simpl; try done.
    + apply timeout_callback_pending. by apply keeps_clear.
    + unfold closeRetryCallback. crush_pending.
    + by apply keepalive_pending.
    + unfold connectionCheck. crush_pending.
    + by apply poll_pending.
  - case_match; [|done]. unfold dispatch_open.
    case_match; [|done]. cbv zeta.
    destruct (onopen _) as [[|cap]|].
    + apply start_onopen_pending. crush_pending.
    + apply reconnect_onopen_pending. crush_pending.
    + crush_pending.
  - case_match; [|done]. unfold dispatch_message.
    case_match; [by apply onmessage_pending | done].
  - case_match; [|done].
    unfold dispatch_error, reconnect_onerror, setup_onerror. crush_pending.
  - case_match; [|done].
    unfold dispatch_close, reconnect_onclose, setup_onclose. crush_pending.
  - case_match; [|done]. unfold dispatch_closing. crush_pending.
Qed.

Lemma initial_pending : one_pending_reconnect initial_world.
Proof. intros id delay cap. vm_compute. intros H.
  repeat (destruct id as [id|id|]; try discriminate).
Qed.

Lemma run_pending evs w :
  one_pending_reconnect w -> one_pending_reconnect (run evs w).
Proof.
  revert w. induction evs as [|ev evs IH]; intros w Hone; [done|].
  simpl. apply IH. by apply step_pending.
Qed.

(** What holds of C3.  [reconnectWebSocket] changes nothing when the state
    its closure captured is inactive, when the cached session id is null or
    when the cached parameters are null.  When it does schedule it deletes
    the timeout whose handle it had stored before it arms the new one, and
    in every world the component can reach the new timeout is then the
    only pending reconnect; so at every moment at most one reconnect
    timeout is pending. *)
Theorem reconnect_guarded_and_single
    (cap : TranscriptionState) (w0 : World) (evs : list Event) :
  (isRecording cap = false \/ sessionIdRef (refs w0) = None
     \/ recordingParamsRef (refs w0) = None ->
   reconnectWebSocket cap w0 = w0)
  /\ (reconnect_refused cap w0 = false ->
      forall old, reconnectTimeoutRef (refs w0) = Some old ->
        timers (reconnectWebSocket cap w0) =
          <[next_timer w0 :=
              Timeout (reconnect_delay (reconnectAttemptsRef (refs w0)))
                (ReconnectCallback cap)]> (delete old (timers w0)))
  /\ (reconnect_refused cap (run evs initial_world) = false ->
      forall id delay c,
        timers (reconnectWebSocket cap (run evs initial_world)) !! id
          = Some (Timeout delay (ReconnectCallback c)) ->
        id = next_timer (run evs initial_world) /\ c = cap)
  /\ (forall i j di dj ci cj,
        timers (run evs initial_world) !! i = Some (Timeout di (ReconnectCallback ci)) ->
        timers (run evs initial_world) !! j = Some (Timeout dj (ReconnectCallback cj)) ->
        i = j).
Proof.
  pose proof (run_pending evs _ initial_pending) as Hone.
  split_and!.
  - intros Hoff. apply reconnect_refused_true. unfold reconnect_refused.
    destruct Hoff as [->|[->| ->]]; simpl; by rewrite ?orb_true_r.
  - intros Hgo old Hold. rewrite reconnect_timers by done. by rewrite Hold.
  - intros Hgo id delay c Hid.
    destruct (keeps_reconnect cap _ Hone _ _ _ Hid) as [Href _].
    rewrite reconnect_refs in Href by done. simpl in Href.
    injection Href as <-. split; [done|].
    rewrite reconnect_timers, lookup_insert_eq in Hid by done. congruence.
  - intros i j di dj ci cj Hi Hj.
    apply Hone in Hi as [Hi _]. apply Hone in Hj as [Hj _]. congruence.
Qed.

Lemma reconnect_guarded_and_single_witness :
  reconnectWebSocket initial_state four_failures = four_failures
  /\ timers (reconnectWebSocket live_capture four_failures) =
       <[11%positive := Timeout 10000 (ReconnectCallback live_capture)]>
         (delete 10%positive (timers four_failures)).
Proof.
  split.
  - apply (reconnect_guarded_and_single initial_state four_failures []).
    left. reflexivity.
  - apply (reconnect_guarded_and_single live_capture four_failures []).
    + vm_compute. reflexivity.
    + vm_compute. reflexivity.
Defined.

(** C3, the code at the failing input.  In [completed_then_closed] the
    session is inactive (a complete frame was processed and rendered) while
    the cached id and parameters are still set.  The retry armed by the
    [onclose] handler of socket 1 calls the [reconnectWebSocket] of the
    render in which recording was active; its guard reads that captured
    flag, so the call is not a no-op: it arms a reconnect (timer 11), whose
    callback then constructs a third socket for the session. *)
Theorem stale_close_handler_reconnects :
  isRecording (state completed_then_closed) = false
  /\ isRecording (rendered completed_then_closed) = false
  /\ timers completed_then_closed !! 10%positive
       = Some (Timeout 500 (CloseRetryCallback live_capture))
  /\ step (TimerFires 10%positive quiet) completed_then_closed
       = reconnectWebSocket live_capture (clearTimeout 10%positive completed_then_closed)
  /\ timers (clearTimeout 10%positive completed_then_closed) !! 11%positive = None
  /\ timers (reconnectWebSocket live_capture
                (clearTimeout 10%positive completed_then_closed)) !! 11%positive
       = Some (Timeout 100 (ReconnectCallback live_capture))
  /\ reconnectWebSocket live_capture (clearTimeout 10%positive completed_then_closed)
       <> clearTimeout 10%positive completed_then_closed
  /\ url <$> sockets (run [TimerFires 10%positive quiet; TimerFires 11%positive quiet]
                        completed_then_closed) !! 2%nat
       = Some (ws_url (Some (session_id 1700))).
Proof.
  split_and!; try (vm_compute; reflexivity).
  intros Heq. apply (f_equal next_timer) in Heq. vm_compute in Heq. discriminate.
Qed.

(** ** C2: nothing is opened for a session once it was stopped *)

Lemma ws_url_session address now :
  ws_url address = ws_url (Some (session_id now)) ->
  address = Some (session_id now).
Proof.
  unfold ws_url, session_id. intros H. apply (inj (String.app _)) in H.
  destruct address as [sid|]; [by subst|]. discriminate.
Qed.

Lemma gone_same sid floor w w' :
  sessionIdRef (refs w') = sessionIdRef (refs w) ->
  sockets w' = sockets w ->
  session_gone sid floor w -> session_gone sid floor w'.
Proof. unfold session_gone. by intros -> ->. Qed.

Lemma gone_update sid floor ws f w :
  (forall s, sockets w !! ws = Some s -> url (f s) = url s) ->
  session_gone sid floor w -> session_gone sid floor (update_socket ws f w).
Proof.
  intros Hurl [Hid Hsock]. split; [done|].
  intros i s Hi. simpl. destruct (decide (i = ws)) as [->|Hne].
  - rewrite list_lookup_alter_eq, fmap_Some. intros (s0 & Hs0 & ->).
    rewrite (Hurl s0) by done. by eapply Hsock.
  - rewrite list_lookup_alter_ne by done. by apply Hsock.
Qed.

Lemma gone_new_socket_at now floor address w :
  address <> Some (session_id now) ->
  session_gone (session_id now) floor w ->
  session_gone (session_id now) floor (new_WebSocket (ws_url address) w).
Proof.
  intros Haddr [Hid Hsock]. split; [done|].
  intros i s Hi. simpl. rewrite lookup_app_Some.
  intros [Hold|[_ Hnew]]; [by eapply Hsock|].
  apply list_lookup_singleton_Some in Hnew as [_ <-]. simpl.
  intros Hurl. by apply ws_url_session in Hurl.
Qed.

Lemma gone_new_socket now floor w :
  session_gone (session_id now) floor w ->
  session_gone (session_id now) floor
    (new_WebSocket (ws_url (sessionIdRef (refs w))) w).
Proof. intros Hgone. apply gone_new_socket_at; [apply Hgone | done]. Qed.

Lemma session_id_inj now now' : session_id now = session_id now' -> now = now'.
Proof.
  unfold session_id. intros H. apply (inj (String.app _)) in H.
  by apply (inj pretty).
Qed.

Lemma gone_reconnect sid floor cap w :
  session_gone sid floor w -> session_gone sid floor (reconnectWebSocket cap w).
Proof.
  destruct (reconnect_frame cap w) as (_ & _ & Hs & _ & _ & _ & _ & Hid & _).
  by apply gone_same.
Qed.

Create HintDb gone discriminated.

Ltac peel_gone w := apply (gone_same _ _ w); [reflexivity | reflexivity | ].

#[local] Hint Resolve gone_reconnect gone_new_socket : gone.
#[local] Hint Extern 1 (session_gone _ _ (set_state _ ?w)) => peel_gone w : gone.
#[local] Hint Extern 1 (session_gone _ _ (setState _ ?w)) => peel_gone w : gone.
#[local] Hint Extern 1 (session_gone _ _ (set_rendered _ ?w)) => peel_gone w : gone.
#[local] Hint Extern 1 (session_gone _ _ (setTimeout _ _ ?w)) => peel_gone w : gone.
#[local] Hint Extern 1 (session_gone _ _ (setInterval _ _ ?w)) => peel_gone w : gone.
#[local] Hint Extern 1 (session_gone _ _ (clearTimeout _ ?w)) => peel_gone w : gone.
#[local] Hint Extern 1 (session_gone _ _ (clearInterval _ ?w)) => peel_gone w : gone.
#[local] Hint Extern 1 (session_gone _ _ (set_visibilityListener _ ?w)) =>
  peel_gone w : gone.
#[local] Hint Extern 1 (session_gone _ _ (set_connectionCheckInterval _ ?w)) =>
  peel_gone w : gone.
#[local] Hint Extern 1 (session_gone _ _ (assign_wsRef _ ?w)) => peel_gone w : gone.
#[local] Hint Extern 1 (session_gone _ _ (assign_reconnectTimeoutRef _ ?w)) =>
  peel_gone w : gone.
#[local] Hint Extern 1 (session_gone _ _ (assign_reconnectAttemptsRef _ ?w)) =>
  peel_gone w : gone.
#[local] Hint Extern 1 (session_gone _ _ (assign_pingIntervalRef _ ?w)) =>
  peel_gone w : gone.
#[local] Hint Extern 1 (session_gone _ _ (assign_recordingParamsRef _ ?w)) =>
  peel_gone w : gone.
#[local] Hint Extern 1 (session_gone _ _ (assign_statusPollIntervalRef _ ?w)) =>
  peel_gone w : gone.
#[local] Hint Extern 2 (session_gone _ _ (update_socket _ _ _)) =>
  (apply gone_update; [by intros [] | ]) : gone.

Ltac crush_gone :=
  intros; repeat case_match; subst; cbv zeta; eauto 20 with gone.

Lemma send_on_gone sid floor ws data w c :
  send_on ws data w = c ->
  session_gone sid floor w -> session_gone sid floor (world_of c).
Proof.
  intros <- Hgone. unfold send_on, ws_send.
  destruct (sockets w !! ws) as [s|] eqn:Hs; [|done].
  destruct (readyState s); simpl; try done;
    (apply gone_update; [|done]); intros s0; rewrite Hs; by intros [= <-].
Qed.

Lemma setup_gone sid floor cap ws w :
  session_gone sid floor w -> session_gone sid floor (setupWebSocketHandlers cap ws w).
Proof. unfold setupWebSocketHandlers. crush_gone. Qed.

#[local] Hint Resolve setup_gone : gone.

Lemma timeout_callback_gone now floor cap throws w :
  session_gone (session_id now) floor w ->
  session_gone (session_id now) floor (reconnectTimeoutCallback cap throws w).
Proof.
  unfold reconnectTimeoutCallback. crush_gone.
Qed.

Lemma keepalive_gone sid floor cap ws w :
  session_gone sid floor w -> session_gone sid floor (keepalive cap ws w).
Proof.
  unfold keepalive. intros Hgone.
  destruct (sockets w !! ws) as [s|] eqn:Hs; [|crush_gone].
  case_match; [|crush_gone].
  pose proof (send_on_gone sid floor ws (JSON_stringify ping_frame) w _ eq_refl Hgone)
    as Hsend.
  unfold send_on in Hsend. rewrite Hs in Hsend.
  destruct (ws_send _ s); [done | crush_gone].
Qed.

Lemma onmessage_gone sid floor payload w :
  session_gone sid floor w -> session_gone sid floor (onmessage_handler payload w).
Proof. unfold onmessage_handler. crush_gone. Qed.

Lemma reconnect_onopen_gone sid floor cap ws w :
  session_gone sid floor w ->
  session_gone sid floor (world_of (reconnect_onopen cap ws w)).
Proof.
  unfold reconnect_onopen. intros Hgone. cbv zeta.
  destruct (recordingParamsRef _); [|crush_gone].
  destruct (send_on _ _ _) as [w'|w'] eqn:Hsend;
    apply (send_on_gone sid floor) in Hsend; simpl world_of in *; crush_gone.
Qed.

Lemma start_onopen_gone sid floor ws w :
  session_gone sid floor w -> session_gone sid floor (world_of (start_onopen ws w)).
Proof. unfold start_onopen. intros. by eapply send_on_gone. Qed.

Lemma start_gone now0 floor cap form now throws w :
  now <> now0 ->
  session_gone (session_id now0) floor w ->
  session_gone (session_id now0) floor
    (world_of (startRecording cap form now throws w)).
Proof.
  intros Hnow [Hid Hsock]. unfold startRecording. cbv zeta.
  assert (Some (session_id now) <> Some (session_id now0)) as Hne.
  { intros H%(inj Some). by apply session_id_inj in H. }
  assert (session_gone (session_id now0) floor
            (assign_sessionIdRef (Some (session_id now)) w)) as Hgone by done.
  destruct throws; simpl world_of; [crush_gone|].
  apply setup_gone. apply gone_update; [by intros []|].
  match goal with
  | |- session_gone _ _ (assign_wsRef _ ?v) => peel_gone v
  end.
  apply gone_new_socket_at; [done|]. crush_gone.
Qed.

Lemma stop_gone sid floor w :
  session_gone sid floor w -> session_gone sid floor (world_of (stopRecording w)).
Proof.
  unfold stopRecording. intros Hgone. cbv zeta.
  set (w1 := match reconnectTimeoutRef (refs w) with
             | Some id => _ | None => w end).
  assert (session_gone sid floor w1) as H1 by (subst w1; crush_gone).
  clearbody w1.
  set (w2 := match pingIntervalRef (refs w1) with
             | Some id => _ | None => w1 end).
  assert (session_gone sid floor w2) as H2 by (subst w2; crush_gone).
  clearbody w2.
  set (w3 := match statusPollIntervalRef (refs w2) with
             | Some id => _ | None => w2 end).
  assert (session_gone sid floor w3) as H3 by (subst w3; crush_gone).
  clearbody w3.
  assert (forall v, session_gone sid floor v ->
            session_gone sid floor (assign_sessionIdRef None v)) as Hnull.
  { intros v [_ Hs]. by split. }
  destruct (wsRef (refs w3)) as [n|]; [|simpl; crush_gone].
  destruct (send_on _ _ _) as [w'|w'] eqn:Hsend;
    apply (send_on_gone sid floor) in Hsend; try done; simpl world_of in *.
  peel_gone (assign_recordingParamsRef None
               (assign_sessionIdRef None
                  (assign_wsRef None (update_socket n ws_close w')))).
  peel_gone (assign_sessionIdRef None
               (assign_wsRef None (update_socket n ws_close w'))).
  apply Hnull. peel_gone (update_socket n ws_close w').
  apply gone_update; [|done]. intros s _. unfold ws_close. by destruct (readyState s).
Qed.

Lemma clear_gone sid floor w :
  session_gone sid floor w -> session_gone sid floor (clearText w).
Proof.
  unfold clearText. intros Hgone. cbv zeta.
  repeat case_match; try crush_gone.
  eapply send_on_gone; [reflexivity|]. crush_gone.
Qed.

Lemma visibility_gone sid floor cap hidden w :
  session_gone sid floor w ->
  session_gone sid floor (handleVisibilityChange cap hidden w).
Proof. unfold handleVisibilityChange. crush_gone. Qed.

Lemma poll_gone sid floor cap outcome w :
  session_gone sid floor w -> session_gone sid floor (pollSessionStatus cap outcome w).
Proof. unfold pollSessionStatus. crush_gone. Qed.

Lemma render_gone sid floor w :
  session_gone sid floor w -> session_gone sid floor (render w).
Proof. unfold render, effect_setup, effect_cleanup. crush_gone. Qed.

Lemma step_gone now0 floor ev w :
  not_started_at now0 ev ->
  session_gone (session_id now0) floor w ->
  session_gone (session_id now0) floor (step ev w).
Proof.
  intros Hev Hgone. destruct ev; simpl.
  - by apply render_gone.
  - case_match; [done | by apply start_gone].
  - case_match; [by apply stop_gone | done].
  - case_match; [done | by apply clear_gone].
  - case_match; [by apply visibility_gone | done].
  - destruct (timers w !! id) as [[delay [cap|cap]|period [cap ws|cap|cap]]|] eqn:Hid;
      simpl; try done.
    + apply timeout_callback_gone. crush_gone.
    + unfold closeRetryCallback. crush_gone.
    + by apply keepalive_gone.
    + unfold connectionCheck. crush_gone.
    + by apply poll_gone.
  - case_match; [|done]. unfold dispatch_open.
    case_match; [|done]. cbv zeta.
    destruct (onopen _) as [[|cap]|].
    + apply start_onopen_gone. crush_gone.
    + apply reconnect_onopen_gone. crush_gone.
    + crush_gone.
  - case_match; [|done]. unfold dispatch_message.
    case_match; [by apply onmessage_gone | done].
  - case_match; [|done].
    unfold dispatch_error, reconnect_onerror, setup_onerror. crush_gone.
  - case_match; [|done].
    unfold dispatch_close, reconnect_onclose, setup_onclose. crush_gone.
  - case_match; [|done]. unfold dispatch_closing. crush_gone.
Qed.

Lemma run_gone now0 floor evs w :
  Forall (not_started_at now0) evs ->
  session_gone (session_id now0) floor w ->
  session_gone (session_id now0) floor (run evs w).
Proof.
  intros Hevs. revert w.
  induction Hevs as [|ev evs Hev _ IH]; intros w Hgone; [done|].
  simpl. apply IH. by apply step_gone.
Qed.

(** What a completed [stopRecording] leaves behind. *)
Lemma stop_normal_refs w w' :
  stopRecording w = Normal w' ->
  reconnectTimeoutRef (refs w') = None
  /\ sessionIdRef (refs w') = None
  /\ recordingParamsRef (refs w') = None
  /\ isRecording (state w') = false
  /\ (forall id, reconnectTimeoutRef (refs w) = Some id -> timers w' !! id = None).
Proof.
  unfold stopRecording, send_on. cbv zeta. intros Hstop.
  destruct (reconnectTimeoutRef (refs w)) as [tid|] eqn:Ht;
    destruct (pingIntervalRef (refs w)) as [pid|] eqn:Hp;
    destruct (statusPollIntervalRef (refs w)) as [sid|] eqn:Hs;
    simpl in Hstop; rewrite ?Ht, ?Hp, ?Hs in Hstop; simpl in Hstop;
    repeat case_match; simplify_eq; simpl;
    (split_and!; try done);
    intros id [= <-]; rewrite ?lookup_delete_None;
    rewrite ?lookup_delete_eq; eauto.
Qed.

(** ** The message router: C4, C5, C10 *)

Lemma js_or_empty (s : option string) :
  js_or s EmptyString = default EmptyString s.
Proof. by destruct s as [[|c rest]|]. Qed.

Lemma text_frame_step data w :
  data_type data = Some "text" ->
  onmessage_handler (Some data) w =
    if truthy (data_text data)
    then set_state {| isRecording := isRecording (state w);
                      text := default EmptyString (data_text data);
                      translatedText := translatedText (state w);
                      error := error (state w);
                      sessionId := sessionId (state w) |} w
    else w.
Proof.
  intros Htype. unfold onmessage_handler, type_is. rewrite Htype. simpl.
  by destruct (data_text data) as [[|c rest]|].
Qed.

(** C4, counterexample to the claim as stated: with the text ["abc"] on
    screen, a text frame whose snapshot is the empty string does not
    replace the text by that snapshot; the handler skips the update. *)
Lemma empty_text_frame_does_not_replace :
  text (state session_open) = "abc"
  /\ text (state (onmessage_handler (Some (text_frame (Some EmptyString))) session_open))
       = "abc"
  /\ text (state (onmessage_handler (Some (text_frame (Some EmptyString))) session_open))
       <> EmptyString.
Proof. split_and!; [vm_compute; reflexivity .. | vm_compute; discriminate]. Qed.

(** C4 (as amended). A text frame with a non-empty snapshot replaces the
    whole accumulated text by the snapshot and touches nothing else.  For
    every state and every snapshot, empty or not, applying the frame twice
    gives the state applying it once gives, and a frame whose snapshot
    equals the current text leaves the state as it is. *)
Theorem text_frame_replaces_idempotent
    (data : Frame) (snapshot : string) (w : World) :
  data_type data = Some "text" ->
  data_text data = Some snapshot ->
  (snapshot <> EmptyString ->
   onmessage_handler (Some data) w =
     set_state {| isRecording := isRecording (state w);
                  text := snapshot;
                  translatedText := translatedText (state w);
                  error := error (state w);
                  sessionId := sessionId (state w) |} w)
  /\ onmessage_handler (Some data) (onmessage_handler (Some data) w)
       = onmessage_handler (Some data) w
  /\ (text (state w) = snapshot -> onmessage_handler (Some data) w = w).
Proof.
  intros Htype Htext. rewrite !text_frame_step by done. rewrite Htext.
  destruct snapshot as [|c rest]; simpl.
  - split_and!; done.
  - split_and!; [done | done |].
    intros <-. destruct w as [[] ? ? ? ? ? ? ?]. reflexivity.
Qed.

Lemma text_frame_replaces_idempotent_witness :
  text (state (onmessage_handler (Some (text_frame (Some "xyz"))) session_open))
    = "xyz"
  /\ onmessage_handler (Some (text_frame (Some "abc"))) session_open = session_open.
Proof.
  destruct (text_frame_replaces_idempotent (text_frame (Some "xyz")) "xyz" session_open)
    as (Hreplace & _ & _); [reflexivity | reflexivity |].
  destruct (text_frame_replaces_idempotent (text_frame (Some "abc")) "abc" session_open)
    as (_ & _ & Hsame); [reflexivity | reflexivity |].
  split.
  - rewrite Hreplace; [reflexivity | discriminate].
  - apply Hsame. vm_compute. reflexivity.
Defined.

(** C5. A frame of kind reconnected sets the text and the translated text
    to what the server sent (the empty string for an absent field),
    whatever they were, and changes nothing else.  In particular, after the
    user has cleared the text while no socket was open, the frame the
    resumed socket delivers makes the text the server's text again. *)
Theorem reconnected_frame_replaces (data : Frame) (w : World) :
  data_type data = Some "reconnected" ->
  onmessage_handler (Some data) w =
    set_state {| isRecording := isRecording (state w);
                 text := default EmptyString (data_text data);
                 translatedText := default EmptyString (data_translated_text data);
                 error := error (state w);
                 sessionId := sessionId (state w) |} w
  /\ text (state session_open) = "abc"
  /\ not_open cleared_offline = true
  /\ text (state cleared_offline) = EmptyString
  /\ text (state resumed_after_clear) = EmptyString
  /\ text (state (step (SocketMessage 1%nat
                          (Some (resumed_frame (Some "старый текст"))))
                    resumed_after_clear))
       = "старый текст".
Proof.
  intros Htype. split_and!; try (vm_compute; reflexivity).
  unfold onmessage_handler, type_is. rewrite Htype. simpl.
  by rewrite !js_or_empty.
Qed.

Lemma reconnected_frame_replaces_witness :
  text (state (onmessage_handler (Some (resumed_frame (Some "server text")))
                 cleared_offline))
    = "server text".
Proof.
  destruct (reconnected_frame_replaces (resumed_frame (Some "server text"))
              cleared_offline) as [Hframe _]; [reflexivity |].
  rewrite Hframe. reflexivity.
Defined.

Lemma js_or_keeps field previous : empty_or_absent field -> js_or field previous = previous.
Proof. by intros [-> | ->]. Qed.

Lemma js_or_nonempty field previous :
  previous <> EmptyString -> js_or field previous <> EmptyString.
Proof. by destruct field as [[|c rest]|]. Qed.

Lemma poll_ok_state cap data w :
  state (pollSessionStatus cap (ResponseOk data) w) = state w
  \/ state (pollSessionStatus cap (ResponseOk data) w) =
       {| isRecording := isRecording (state w);
          text := js_or (status_text data) (text (state w));
          translatedText := js_or (status_translated_text data) (translatedText (state w));
          error := error (state w); sessionId := sessionId (state w) |}
  \/ state (pollSessionStatus cap (ResponseOk data) w) =
       {| isRecording := false; text := text (state w);
          translatedText := translatedText (state w);
          error := error (state w); sessionId := sessionId (state w) |}.
Proof.
  unfold pollSessionStatus. repeat case_match; simpl; auto.
Qed.

(** C10. A text frame whose text is empty or absent leaves everything as it
    was; a successful poll response whose text (translated text) is empty
    or absent leaves the local text (translated text) as it was; and
    neither a text frame, a translation frame nor a poll response turns a
    non-empty local text or translated text into the empty string. *)
Theorem empty_snapshot_never_overwrites
    (data : Frame) (status : StatusData) (cap : TranscriptionState) (w : World) :
  (data_type data = Some "text" -> empty_or_absent (data_text data) ->
   onmessage_handler (Some data) w = w)
  /\ (empty_or_absent (status_text status) ->
      text (state (pollSessionStatus cap (ResponseOk status) w)) = text (state w))
  /\ (empty_or_absent (status_translated_text status) ->
      translatedText (state (pollSessionStatus cap (ResponseOk status) w))
        = translatedText (state w))
  /\ (data_type data = Some "text" \/ data_type data = Some "translated_text" ->
      (text (state w) <> EmptyString ->
       text (state (onmessage_handler (Some data) w)) <> EmptyString)
      /\ (translatedText (state w) <> EmptyString ->
          translatedText (state (onmessage_handler (Some data) w)) <> EmptyString))
  /\ (text (state w) <> EmptyString ->
      text (state (pollSessionStatus cap (ResponseOk status) w)) <> EmptyString)
  /\ (translatedText (state w) <> EmptyString ->
      translatedText (state (pollSessionStatus cap (ResponseOk status) w))
        <> EmptyString).
Proof.
  split_and!.
  - intros Htype Hempty. rewrite text_frame_step by done.
    by destruct Hempty as [-> | ->].
  - intros Hempty.
    destruct (poll_ok_state cap status w) as [-> | [-> | ->]]; simpl; try done.
    by apply js_or_keeps.
  - intros Hempty.
    destruct (poll_ok_state cap status w) as [-> | [-> | ->]]; simpl; try done.
    by apply js_or_keeps.
  - intros [Htype | Htype].
    + rewrite text_frame_step by done.
      destruct (data_text data) as [[|c rest]|]; simpl; done.
    + unfold onmessage_handler, type_is. rewrite Htype. simpl.
      destruct (data_translated_text data) as [[|c rest]|]; simpl; done.
  - intros Hfull.
    destruct (poll_ok_state cap status w) as [-> | [-> | ->]]; simpl; try done.
    by apply js_or_nonempty.
  - intros Hfull.
    destruct (poll_ok_state cap status w) as [-> | [-> | ->]]; simpl; try done.
    by apply js_or_nonempty.
Qed.

Lemma empty_snapshot_never_overwrites_witness :
  onmessage_handler (Some (text_frame None)) session_open = session_open
  /\ text (state (pollSessionStatus live_capture
                    (ResponseOk {| status_is_recording := true;
                                   status_text := Some EmptyString;
                                   status_translated_text := None |})
                    session_open))
       = "abc".
Proof.
  destruct (empty_snapshot_never_overwrites (text_frame None)
              {| status_is_recording := true; status_text := Some EmptyString;
                 status_translated_text := None |} live_capture session_open)
    as (Hframe & Hpoll & _).
  split.
  - apply Hframe; [reflexivity | left; reflexivity].
  - rewrite Hpoll; [vm_compute; reflexivity | right; reflexivity].
Defined.

(** ** C9: the status poller *)

(** C9. When the status request fails (the fetch is rejected, or the body
    is not JSON) the poller changes nothing at all; and whatever the
    outcome, the poller leaves every ref, every timer and every socket as
    it found them: it arms no reconnect and neither constructs nor closes
    a socket. *)
Theorem poll_errors_swallowed
    (cap : TranscriptionState) (outcome : FetchOutcome) (w : World) :
  pollSessionStatus cap FetchRejected w = w
  /\ pollSessionStatus cap ResponseBadJson w = w
  /\ pollSessionStatus cap ResponseNotOk w = w
  /\ refs (pollSessionStatus cap outcome w) = refs w
  /\ timers (pollSessionStatus cap outcome w) = timers w
  /\ next_timer (pollSessionStatus cap outcome w) = next_timer w
  /\ sockets (pollSessionStatus cap outcome w) = sockets w.
Proof.
  assert (forall o, refs (pollSessionStatus cap o w) = refs w
                    /\ timers (pollSessionStatus cap o w) = timers w
                    /\ next_timer (pollSessionStatus cap o w) = next_timer w
                    /\ sockets (pollSessionStatus cap o w) = sockets w) as Hframe.
  { intros o. unfold pollSessionStatus. by repeat case_match. }
  split_and!; try (unfold pollSessionStatus; by repeat case_match);
    apply Hframe.
Qed.

(** ** C7: the stopped frame *)

Lemma cleanup_next_timer w : next_timer (effect_cleanup w) = next_timer w.
Proof.
  unfold effect_cleanup. cbv zeta. by repeat case_match.
Qed.

Lemma setup_installs_poll cap w :
  statusPollIntervalRef (refs (effect_setup cap w)) = Some (Pos.succ (next_timer w))
  /\ timers (effect_setup cap w) !! Pos.succ (next_timer w)
       = Some (Interval 1000 (PollSessionStatus cap)).
Proof. split; [done|]. simpl. apply lookup_insert_eq. Qed.

Lemma render_reruns_effect w :
  isRecording (rendered w) <> isRecording (state w) ->
  render w = effect_setup (state w) (effect_cleanup (set_rendered (state w) w)).
Proof.
  intros Hdiff. unfold render. cbv zeta. simpl state.
  destruct (Bool.eqb_spec (isRecording (rendered w)) (isRecording (state w))); done.
Qed.

Lemma inactive_poller_idle cap outcome w :
  isRecording cap = false -> pollSessionStatus cap outcome w = w.
Proof. intros Hoff. unfold pollSessionStatus. by rewrite Hoff. Qed.

(** ** C6: the keepalive *)

(** C6, counterexample to the claim as stated.  In [resumed_closing] the
    keepalive of the resumed socket is timer 7, its closure captured the
    active session, the session refs are intact and the socket is in the
    closing handshake, hence not open.  A keepalive tick changes nothing:
    it does not call [reconnectWebSocket], which in this world would have
    armed a timeout. *)
Lemma keepalive_ignores_closing_socket :
  timers resumed_closing !! 7%positive
    = Some (Interval 10000 (KeepaliveTick live_capture 1%nat))
  /\ ready_of 1%nat resumed_closing = Some CLOSING
  /\ isRecording (state resumed_closing) = true
  /\ step (TimerFires 7%positive quiet) resumed_closing = resumed_closing
  /\ keepalive live_capture 1%nat resumed_closing
       <> reconnectWebSocket live_capture resumed_closing.
Proof.
  split_and!; try (vm_compute; reflexivity).
  intros Heq. apply (f_equal next_timer) in Heq. vm_compute in Heq. discriminate.
Qed.

(** C6 (as amended). [setupWebSocketHandlers] installs the keepalive with
    a fixed period of 10000 ms.  On a tick: if the socket is open a ping
    frame is sent on it; if the socket is closed and the session was active
    in the state the handler captured, the tick is a call of
    [reconnectWebSocket]; if the socket is connecting or closing, or the
    captured session is inactive and the socket not open, the tick does
    nothing. *)
Theorem keepalive_behaviour
    (cap : TranscriptionState) (ws : SocketId) (s : Socket) (w : World) :
  sockets w !! ws = Some s ->
  pingIntervalRef (refs (setupWebSocketHandlers cap ws w))
    = Some (next_timer w)
  /\ timers (setupWebSocketHandlers cap ws w) !! next_timer w
       = Some (Interval 10000 (KeepaliveTick cap ws))
  /\ (readyState s = OPEN ->
      keepalive cap ws w =
        update_socket ws
          (fun _ => with_sent (sent s ++ [JSON_stringify ping_frame]) s) w)
  /\ (readyState s = CLOSED -> isRecording cap = true ->
      keepalive cap ws w = reconnectWebSocket cap w)
  /\ (readyState s = CONNECTING \/ readyState s = CLOSING ->
      keepalive cap ws w = w)
  /\ (isRecording cap = false -> readyState s <> OPEN -> keepalive cap ws w = w).
Proof.
  intros Hs. split_and!.
  - unfold setupWebSocketHandlers. by destruct (pingIntervalRef (refs w)).
  - unfold setupWebSocketHandlers.
    destruct (pingIntervalRef (refs w)); simpl; apply lookup_insert_eq.
  - intros Hopen. unfold keepalive, ws_send. rewrite Hs, Hopen. reflexivity.
  - intros Hclosed Hactive. unfold keepalive. rewrite Hs, Hclosed, Hactive.
    reflexivity.
  - intros Hstate. unfold keepalive. rewrite Hs.
    destruct Hstate as [-> | ->]; simpl; by rewrite andb_false_r.
  - intros Hoff Hnot. unfold keepalive. rewrite Hs, Hoff.
    by destruct (readyState s).
Qed.

Lemma keepalive_behaviour_witness :
  keepalive live_capture 1%nat resumed_closing = resumed_closing
  /\ sent <$> sockets (keepalive live_capture 1%nat resumed_after_clear) !! 1%nat
       = Some [JSON_stringify (params_of sample_form); JSON_stringify ping_frame].
Proof.
  destruct (keepalive_behaviour live_capture 1%nat
              {| url := ws_url (Some (session_id 1700)); readyState := CLOSING;
                 onopen := Some (ReconnectOnOpen live_capture); onmessage := true;
                 onerror := Some (SetupOnError live_capture);
                 onclose := Some (SetupOnClose live_capture);
                 sent := [JSON_stringify (params_of sample_form)] |}
              resumed_closing) as (_ & _ & _ & _ & Hidle & _);
    [vm_compute; reflexivity |].
  destruct (keepalive_behaviour live_capture 1%nat
              {| url := ws_url (Some (session_id 1700)); readyState := OPEN;
                 onopen := Some (ReconnectOnOpen live_capture); onmessage := true;
                 onerror := Some (SetupOnError live_capture);
                 onclose := Some (SetupOnClose live_capture);
                 sent := [JSON_stringify (params_of sample_form)] |}
              resumed_after_clear) as (_ & _ & Hping & _);
    [vm_compute; reflexivity |].
  split.
  - apply Hidle. right. reflexivity.
  - rewrite Hping by reflexivity. vm_compute. reflexivity.
Defined.

(** ** C8: the parameter frame is the same on every open *)

(** The object rebuilt property by property serialises to the very text of
    the cached object. *)
Lemma replayed_params_text form :
  JSON_stringify (replayed_params (params_of form)) = JSON_stringify (params_of form).
Proof.
  unfold replayed_params, params_of, get_prop. cbn [get_field String.eqb Ascii.eqb Bool.eqb].
  destruct (String.eqb (method form) "system_recognizer"); reflexivity.
Qed.

Lemma replay_same p floor w w' :
  recordingParamsRef (refs w') = recordingParamsRef (refs w) ->
  sockets w' = sockets w ->
  replay_inv p floor w -> replay_inv p floor w'.
Proof. unfold replay_inv. by intros -> ->. Qed.

Lemma replay_update p floor ws f w :
  (forall s, sockets w !! ws = Some s -> (floor <= ws)%nat ->
     socket_ok (JSON_stringify p) s -> socket_ok (JSON_stringify p) (f s)) ->
  replay_inv p floor w -> replay_inv p floor (update_socket ws f w).
Proof.
  intros Hok [Hp Hsock]. split; [done|].
  intros i s Hi. simpl. destruct (decide (i = ws)) as [->|Hne].
  - rewrite list_lookup_alter_eq, fmap_Some. intros (s0 & Hs0 & ->).
    apply Hok; [done | done |]. by eapply Hsock.
  - rewrite list_lookup_alter_ne by done. by apply Hsock.
Qed.

Lemma ok_with_handlers frame e c s :
  socket_ok frame s -> socket_ok frame (with_handlers e c s).
Proof. done. Qed.

Lemma ok_left_open frame v s :
  v <> OPEN -> v <> CONNECTING ->
  socket_ok frame s -> socket_ok frame (with_readyState v s).
Proof.
  unfold socket_ok. simpl. destruct (sent s); [|done]. intros ? ? _. by split.
Qed.

Lemma ok_ws_send frame data s s' :
  ws_send data s = Some s' -> socket_ok frame s -> socket_ok frame s'.
Proof.
  unfold ws_send. intros Hsend Hok.
  destruct (readyState s) eqn:Hr; simplify_eq; try done.
  unfold socket_ok in *. simpl. rewrite Hr in Hok.
  destruct (sent s); simpl; [by destruct Hok | done].
Qed.

Lemma replay_reconnect p floor cap w :
  replay_inv p floor w -> replay_inv p floor (reconnectWebSocket cap w).
Proof.
  destruct (reconnect_frame cap w) as (_ & _ & Hs & _ & _ & _ & _ & _ & Hp & _).
  by apply replay_same.
Qed.

Create HintDb replay discriminated.

Ltac peel_replay w := apply (replay_same _ _ w); [reflexivity | reflexivity | ].

#[local] Hint Resolve replay_reconnect : replay.
#[local] Hint Extern 1 (replay_inv _ _ (set_state _ ?w)) => peel_replay w : replay.
#[local] Hint Extern 1 (replay_inv _ _ (setState _ ?w)) => peel_replay w : replay.
#[local] Hint Extern 1 (replay_inv _ _ (set_rendered _ ?w)) => peel_replay w : replay.
#[local] Hint Extern 1 (replay_inv _ _ (setTimeout _ _ ?w)) => peel_replay w : replay.
#[local] Hint Extern 1 (replay_inv _ _ (setInterval _ _ ?w)) => peel_replay w : replay.
#[local] Hint Extern 1 (replay_inv _ _ (clearTimeout _ ?w)) => peel_replay w : replay.
#[local] Hint Extern 1 (replay_inv _ _ (clearInterval _ ?w)) => peel_replay w : replay.
#[local] Hint Extern 1 (replay_inv _ _ (set_visibilityListener _ ?w)) =>
  peel_replay w : replay.
#[local] Hint Extern 1 (replay_inv _ _ (set_connectionCheckInterval _ ?w)) =>
  peel_replay w : replay.
#[local] Hint Extern 1 (replay_inv _ _ (assign_wsRef _ ?w)) => peel_replay w : replay.
#[local] Hint Extern 1 (replay_inv _ _ (assign_reconnectTimeoutRef _ ?w)) =>
  peel_replay w : replay.
#[local] Hint Extern 1 (replay_inv _ _ (assign_reconnectAttemptsRef _ ?w)) =>
  peel_replay w : replay.
#[local] Hint Extern 1 (replay_inv _ _ (assign_pingIntervalRef _ ?w)) =>
  peel_replay w : replay.
#[local] Hint Extern 1 (replay_inv _ _ (assign_sessionIdRef _ ?w)) =>
  peel_replay w : replay.
#[local] Hint Extern 1 (replay_inv _ _ (assign_statusPollIntervalRef _ ?w)) =>
  peel_replay w : replay.
#[local] Hint Extern 2 (replay_inv _ _ (update_socket _ (with_handlers _ _) _)) =>
  (apply replay_update; [intros; by apply ok_with_handlers | ]) : replay.
#[local] Hint Extern 2 (replay_inv _ _ (update_socket _ (with_readyState CLOSED) _)) =>
  (apply replay_update; [intros; by apply ok_left_open | ]) : replay.
#[local] Hint Extern 2 (replay_inv _ _ (update_socket _ (with_readyState CLOSING) _)) =>
  (apply replay_update; [intros; by apply ok_left_open | ]) : replay.

Ltac crush_replay :=
  intros; repeat case_match; subst; cbv zeta; eauto 20 with replay.

Lemma send_on_replay p floor ws data w c :
  send_on ws data w = c ->
  replay_inv p floor w -> replay_inv p floor (world_of c).
Proof.
  intros <- Hinv. unfold send_on.
  destruct (sockets w !! ws) as [s|] eqn:Hs; [|done].
  destruct (ws_send data s) as [s'|] eqn:Hsend; [|done]. simpl.
  apply replay_update; [|done]. intros s0 Hs0 _ Hok.
  assert (s0 = s) as -> by congruence. by eapply ok_ws_send.
Qed.

Lemma setup_replay p floor cap ws w :
  replay_inv p floor w -> replay_inv p floor (setupWebSocketHandlers cap ws w).
Proof. unfold setupWebSocketHandlers. crush_replay. Qed.

#[local] Hint Resolve setup_replay : replay.

(** A fresh socket that is given its [onopen] handler at once. *)
Lemma replay_new_socket p floor address f w :
  (forall s, sent (f s) = sent s /\ readyState (f s) = readyState s
             /\ is_Some (onopen (f s))) ->
  replay_inv p floor w ->
  replay_inv p floor
    (update_socket (length (sockets w)) f
       (assign_wsRef (Some (length (sockets w))) (new_WebSocket address w))).
Proof.
  intros Hf [Hp Hsock]. split; [done|].
  intros i s Hi. simpl. destruct (decide (i = length (sockets w))) as [->|Hne].
  - rewrite list_lookup_alter_eq, lookup_app_r, Nat.sub_diag by done. simpl.
    intros [= <-]. destruct (Hf
      {| url := address; readyState := CONNECTING; onopen := None;
         onmessage := false; onerror := None; onclose := None; sent := [] |})
      as (Hsent & Hready & Hopen).
    unfold socket_ok. rewrite Hsent, Hready. simpl. split; [done|by intros _].
  - rewrite list_lookup_alter_ne by done. rewrite lookup_app_Some.
    intros [Hold|[Hge Hnew]]; [by eapply Hsock|].
    apply list_lookup_singleton_Some in Hnew as [Hidx _]. lia.
Qed.

Lemma timeout_callback_replay p floor cap throws w :
  replay_inv p floor w ->
  replay_inv p floor (reconnectTimeoutCallback cap throws w).
Proof.
  unfold reconnectTimeoutCallback. intros Hinv.
  repeat case_match; eauto with replay. cbv zeta.
  apply replay_new_socket; [|done]. intros s. simpl. eauto.
Qed.

Lemma keepalive_replay p floor cap ws w :
  replay_inv p floor w -> replay_inv p floor (keepalive cap ws w).
Proof.
  unfold keepalive. intros Hinv.
  destruct (sockets w !! ws) as [s|] eqn:Hs; [|crush_replay].
  case_match; [|crush_replay].
  pose proof (send_on_replay p floor ws (JSON_stringify ping_frame) w _ eq_refl Hinv)
    as Hsend.
  unfold send_on in Hsend. rewrite Hs in Hsend.
  destruct (ws_send _ s); [done | crush_replay].
Qed.

Lemma onmessage_replay p floor payload w :
  replay_inv p floor w -> replay_inv p floor (onmessage_handler payload w).
Proof. unfold onmessage_handler. crush_replay. Qed.

Lemma clear_replay p floor w :
  replay_inv p floor w -> replay_inv p floor (clearText w).
Proof.
  unfold clearText. intros Hinv. cbv zeta.
  repeat case_match; try crush_replay.
  eapply send_on_replay; [reflexivity|]. crush_replay.
Qed.

Lemma visibility_replay p floor cap hidden w :
  replay_inv p floor w -> replay_inv p floor (handleVisibilityChange cap hidden w).
Proof. unfold handleVisibilityChange. crush_replay. Qed.

Lemma poll_replay p floor cap outcome w :
  replay_inv p floor w -> replay_inv p floor (pollSessionStatus cap outcome w).
Proof. unfold pollSessionStatus. crush_replay. Qed.

Lemma render_replay p floor w :
  replay_inv p floor w -> replay_inv p floor (render w).
Proof. unfold render, effect_setup, effect_cleanup. crush_replay. Qed.

(** The socket becomes open and its handler sends the parameter frame as
    the first thing. *)
Lemma open_then_send p floor ws s w w1 :
  sockets w !! ws = Some s ->
  readyState s = CONNECTING ->
  sockets w1 = alter (with_readyState OPEN) ws (sockets w) ->
  recordingParamsRef (refs w1) = recordingParamsRef (refs w) ->
  replay_inv p floor w ->
  replay_inv p floor (world_of (send_on ws (JSON_stringify p) w1)).
Proof.
  intros Hs Hconn Hsock Hparams [Hp Hinv]. unfold send_on, ws_send.
  rewrite Hsock, list_lookup_alter_eq, Hs. simpl.
  unfold replay_inv. simpl. split; [congruence|].
  intros i s' Hi. rewrite Hsock. destruct (decide (i = ws)) as [->|Hne].
  - rewrite list_lookup_alter_eq, list_lookup_alter_eq, Hs. simpl.
    intros [= <-]. unfold socket_ok. simpl.
    pose proof (Hinv ws s Hi Hs) as Hok. unfold socket_ok in Hok.
    by destruct (sent s).
  - rewrite !list_lookup_alter_ne by done. by apply Hinv.
Qed.

Lemma dispatch_open_replay form floor ws s w :
  sockets w !! ws = Some s ->
  replay_inv (params_of form) floor w ->
  replay_inv (params_of form) floor (dispatch_open ws s w).
Proof.
  intros Hs Hinv. unfold dispatch_open. case_bool_decide as Hconn; [|done].
  cbv zeta. destruct (onopen s) as [[|cap]|] eqn:Hopen.
  - unfold start_onopen, cached_params_text. simpl recordingParamsRef.
    destruct Hinv as [Hp Hsock]. rewrite Hp.
    eapply open_then_send; [exact Hs | done | done | done | by split].
  - unfold reconnect_onopen. cbv zeta. simpl recordingParamsRef.
    destruct Hinv as [Hp Hsock]. rewrite Hp, replayed_params_text.
    pose proof (open_then_send (params_of form) floor ws s w
                  (assign_reconnectAttemptsRef 0
                     (update_socket ws (with_readyState OPEN) w))
                  Hs Hconn eq_refl eq_refl (conj Hp Hsock)) as Hsent.
    destruct (send_on _ _ _) as [w2|w2]; simpl in *; [|done].
    by apply setup_replay.
  - apply replay_update; [|done]. intros s0 Hs0 Hfloor Hok.
    assert (s0 = s) as -> by congruence.
    unfold socket_ok in *. simpl. destruct (sent s); [|done].
    destruct Hok as [_ Hhandler]. destruct (Hhandler Hconn) as [? ?]. congruence.
Qed.

Lemma step_replay form floor ev w :
  same_session ev ->
  replay_inv (params_of form) floor w ->
  replay_inv (params_of form) floor (step ev w).
Proof.
  intros Hev Hinv. destruct ev; simpl; try done.
  - by apply render_replay.
  - case_match; [done | by apply clear_replay].
  - case_match; [by apply visibility_replay | done].
  - destruct (timers w !! id) as [[delay [cap|cap]|period [cap ws|cap|cap]]|] eqn:Hid;
      simpl; try done.
    + apply timeout_callback_replay. crush_replay.
    + unfold closeRetryCallback. crush_replay.
    + by apply keepalive_replay.
    + unfold connectionCheck. crush_replay.
    + by apply poll_replay.
  - case_match; [|done]. by apply dispatch_open_replay.
  - case_match; [|done]. unfold dispatch_message.
    case_match; [by apply onmessage_replay | done].
  - case_match; [|done].
    unfold dispatch_error, reconnect_onerror, setup_onerror. crush_replay.
  - case_match; [|done].
    unfold dispatch_close, reconnect_onclose, setup_onclose. crush_replay.
  - case_match; [|done]. unfold dispatch_closing. crush_replay.
Qed.

Lemma run_replay form floor evs w :
  Forall same_session evs ->
  replay_inv (params_of form) floor w ->
  replay_inv (params_of form) floor (run evs w).
Proof.
  intros Hevs. revert w.
  induction Hevs as [|ev evs Hev _ IH]; intros w Hinv; [done|].
  simpl. apply IH. by apply step_replay.
Qed.

(** [startRecording] caches the parameters and creates the first socket of
    the session, which has sent nothing yet. *)
Lemma start_replay cap form now w :
  replay_inv (params_of form) (length (sockets w))
    (world_of (startRecording cap form now false w)).
Proof.
  unfold startRecording. cbv zeta. simpl world_of.
  apply setup_replay.
  match goal with
  | |- replay_inv _ _ (update_socket _ _ (assign_wsRef _ (new_WebSocket _ ?v))) =>
      change (length (sockets w)) with (length (sockets v))
  end.
  apply replay_new_socket; [intros s; simpl; eauto|].
  split; [done|]. simpl. intros i s Hi Hs. apply lookup_lt_Some in Hs. lia.
Qed.

(** What each of the two [onopen] handlers hands to the network. *)
Lemma initial_open_sends ws s w :
  sockets w !! ws = Some s ->
  readyState s = CONNECTING ->
  onopen s = Some StartOnOpen ->
  sent <$> sockets (step (SocketOpen ws) w) !! ws
    = Some (sent s ++ [cached_params_text w])%list.
Proof.
  intros Hs Hconn Hopen. simpl. rewrite Hs. unfold dispatch_open.
  rewrite bool_decide_eq_true_2 by done. cbv zeta. rewrite Hopen.
  unfold start_onopen, send_on, ws_send. simpl sockets.
  rewrite list_lookup_alter_eq, Hs. simpl.
  by rewrite list_lookup_alter_eq, list_lookup_alter_eq, Hs.
Qed.

Lemma reconnect_open_sends cap ws s p w :
  sockets w !! ws = Some s ->
  readyState s = CONNECTING ->
  onopen s = Some (ReconnectOnOpen cap) ->
  recordingParamsRef (refs w) = Some p ->
  sent <$> sockets (step (SocketOpen ws) w) !! ws
    = Some (sent s ++ [JSON_stringify (replayed_params p)])%list.
Proof.
  intros Hs Hconn Hopen Hp. simpl. rewrite Hs. unfold dispatch_open.
  rewrite bool_decide_eq_true_2 by done. cbv zeta. rewrite Hopen.
  unfold reconnect_onopen. cbv zeta. simpl recordingParamsRef. rewrite Hp.
  unfold send_on, ws_send. simpl sockets.
  rewrite list_lookup_alter_eq, Hs. simpl.
  unfold setupWebSocketHandlers. cbv zeta.
  destruct (pingIntervalRef _); simpl;
    by rewrite !list_lookup_alter_eq, Hs.
Qed.

(** C8 (as amended). Within one session (from [startRecording] on, as
    long as the user neither stops it nor starts another) the cached
    parameters never change; the handler of the initial open sends the serialised cache, the
    handler of a reconnect sends the serialisation of the object it
    rebuilds from the cache, and the two texts are the same; so on every
    socket of the session the first frame sent is that one text, and a
    socket that is open has sent it. *)
Theorem parameter_frame_fidelity
    (cap : TranscriptionState) (form : FormValues) (now : Z)
    (w : World) (evs : list Event) :
  Forall same_session evs ->
  JSON_stringify (replayed_params (params_of form)) = JSON_stringify (params_of form)
  /\ recordingParamsRef (refs (run evs (world_of (startRecording cap form now false w))))
       = Some (params_of form)
  /\ (forall ws s,
        sockets (run evs (world_of (startRecording cap form now false w))) !! ws
          = Some s ->
        readyState s = CONNECTING ->
        (onopen s = Some StartOnOpen ->
         sent <$> sockets (step (SocketOpen ws)
                    (run evs (world_of (startRecording cap form now false w)))) !! ws
           = Some (sent s ++ [JSON_stringify (params_of form)])%list)
        /\ (forall cap', onopen s = Some (ReconnectOnOpen cap') ->
            sent <$> sockets (step (SocketOpen ws)
                       (run evs (world_of (startRecording cap form now false w)))) !! ws
              = Some (sent s ++ [JSON_stringify (replayed_params (params_of form))])%list))
  /\ (forall i s,
        (length (sockets w) <= i)%nat ->
        sockets (run evs (world_of (startRecording cap form now false w))) !! i
          = Some s ->
        (forall first rest, sent s = first :: rest ->
           first = JSON_stringify (params_of form))
        /\ (readyState s = OPEN ->
            exists rest, sent s = JSON_stringify (params_of form) :: rest)).
Proof.
  intros Hevs.
  pose proof (run_replay form _ evs _ Hevs (start_replay cap form now w))
    as [Hp Hsock].
  split_and!.
  - apply replayed_params_text.
  - exact Hp.
  - intros ws s Hs Hconn. split.
    + intros Hopen. rewrite (initial_open_sends ws s) by done.
      unfold cached_params_text. by rewrite Hp.
    + intros cap' Hopen. by apply (reconnect_open_sends cap').
  - intros i s Hi Hs. pose proof (Hsock i s Hi Hs) as Hok.
    unfold socket_ok in Hok. split.
    + intros first rest Hsent. by rewrite Hsent in Hok.
    + intros Hopen. destruct (sent s) as [|first rest]; [by destruct Hok|].
      exists rest. by rewrite Hok.
Qed.

Lemma parameter_frame_fidelity_witness :
  (sent <$> sockets (run outage_and_resume
      (world_of (startRecording initial_state sample_form 1700 false initial_world))))
    = [[JSON_stringify (params_of sample_form)];
       [JSON_stringify (params_of sample_form)]]
  /\ forall i s,
       sockets (run outage_and_resume
         (world_of (startRecording initial_state sample_form 1700 false initial_world)))
         !! i = Some s ->
       readyState s = OPEN ->
       exists rest, sent s = JSON_stringify (params_of sample_form) :: rest.
Proof.
  split; [vm_compute; reflexivity |].
  intros i s Hs.
  apply (parameter_frame_fidelity initial_state sample_form 1700 initial_world
           outage_and_resume) with i.
  - repeat constructor.
  - simpl. lia.
  - exact Hs.
Defined.

(** * Further properties of the component *)

(** ** Foreground fast path and periodic sweep *)

(** X1. When the page becomes visible while the handler's session is
    active and the current socket is not open, the reconnect is armed with
    the 100 ms delay whatever the counter had accumulated, and the counter
    restarts at 1; the 3 s sweep in the same situation arms the delay of the
    accumulated counter.  Neither does anything while the socket is open,
    and the visibility handler does nothing when the page gets hidden. *)
Theorem foreground_reconnect_is_fast (cap : TranscriptionState) (w : World) :
  isRecording cap = true ->
  reconnect_refused cap w = false ->
  handleVisibilityChange cap true w = w
  /\ (not_open w = false ->
      handleVisibilityChange cap false w = w /\ connectionCheck cap w = w)
  /\ (not_open w = true ->
      timers (handleVisibilityChange cap false w) !! next_timer w
        = Some (Timeout 100 (ReconnectCallback cap))
      /\ reconnectAttemptsRef (refs (handleVisibilityChange cap false w)) = 1
      /\ timers (connectionCheck cap w) !! next_timer w
           = Some (Timeout (reconnect_delay (reconnectAttemptsRef (refs w)))
                     (ReconnectCallback cap))
      /\ reconnectAttemptsRef (refs (connectionCheck cap w))
           = reconnectAttemptsRef (refs w) + 1).
Proof.
  intros Hactive Hgo. split_and!.
  - reflexivity.
  - intros Hopen. unfold handleVisibilityChange, connectionCheck.
    by rewrite Hactive, Hopen.
  - intros Hlost. unfold handleVisibilityChange, connectionCheck.
    rewrite Hactive, Hlost. simpl.
    rewrite !reconnect_timers, !reconnect_refs by done. simpl.
    split_and!; try done; apply lookup_insert_eq.
Qed.

Lemma foreground_reconnect_is_fast_witness :
  reconnectAttemptsRef (refs four_failures) = 5
  /\ timers (handleVisibilityChange live_capture false four_failures) !! 11%positive
       = Some (Timeout 100 (ReconnectCallback live_capture))
  /\ timers (connectionCheck live_capture four_failures) !! 11%positive
       = Some (Timeout 10000 (ReconnectCallback live_capture)).
Proof.
  destruct (foreground_reconnect_is_fast live_capture four_failures)
    as (_ & _ & Hlost); [reflexivity | vm_compute; reflexivity |].
  destruct Hlost as (Hfast & _ & Hsweep & _); [vm_compute; reflexivity |].
  split_and!; [vm_compute; reflexivity | exact Hfast | exact Hsweep].
Defined.

(** ** The handlers a reconnect installs *)

(** X2. When a socket built by the reconnect path opens and the parameters
    are cached, the attempt counter is back at 0 (so the next reconnect
    waits 100 ms), the rebuilt parameter frame is the newest frame on that
    socket, and the keepalive now runs for that socket, the previous
    keepalive being cancelled.  When the cache is null the handler raises
    after resetting the counter: nothing is sent and no handler or
    keepalive is installed. *)
Theorem reconnect_open_resets_backoff
    (cap : TranscriptionState) (ws : SocketId) (s : Socket) (w : World) :
  sockets w !! ws = Some s ->
  readyState s = OPEN ->
  (forall p, recordingParamsRef (refs w) = Some p ->
     exists w',
       reconnect_onopen cap ws w = Normal w'
       /\ reconnectAttemptsRef (refs w') = 0
       /\ reconnect_delay (reconnectAttemptsRef (refs w')) = 100
       /\ sent <$> sockets w' !! ws
            = Some (sent s ++ [JSON_stringify (replayed_params p)])%list
       /\ pingIntervalRef (refs w') = Some (next_timer w)
       /\ timers w' !! next_timer w = Some (Interval 10000 (KeepaliveTick cap ws))
       /\ (forall old, pingIntervalRef (refs w) = Some old -> old <> next_timer w ->
             timers w' !! old = None))
  /\ (recordingParamsRef (refs w) = None ->
      reconnect_onopen cap ws w = Thrown (assign_reconnectAttemptsRef 0 w)).
Proof.
  intros Hs Hopen. split.
  - intros p Hp. unfold reconnect_onopen. cbv zeta. simpl recordingParamsRef.
    rewrite Hp. unfold send_on, ws_send. simpl sockets. rewrite Hs, Hopen.
    eexists. split; [reflexivity|].
    unfold setupWebSocketHandlers. cbv zeta. simpl pingIntervalRef.
    destruct (pingIntervalRef (refs w)) as [old|]; simpl;
      rewrite ?list_lookup_alter_eq, ?Hs; simpl;
      (split_and!; try done; try apply lookup_insert_eq).
    intros old' [= <-] Hne. rewrite lookup_insert_ne by done.
    apply lookup_delete_eq.
  - intros Hp. unfold reconnect_onopen. cbv zeta. simpl recordingParamsRef.
    by rewrite Hp.
Qed.

Lemma reconnect_open_resets_backoff_witness :
  exists w',
    reconnect_onopen live_capture 1%nat
      (update_socket 1%nat (with_readyState OPEN)
         (step (TimerFires 10%positive quiet) four_failures)) = Normal w'
    /\ reconnectAttemptsRef (refs w') = 0.
Proof.
  destruct (reconnect_open_resets_backoff live_capture 1%nat
              {| url := ws_url (Some (session_id 1700)); readyState := OPEN;
                 onopen := Some (ReconnectOnOpen live_capture); onmessage := false;
                 onerror := Some (ReconnectOnError live_capture);
                 onclose := Some (ReconnectOnClose live_capture); sent := [] |}
              (update_socket 1%nat (with_readyState OPEN)
                 (step (TimerFires 10%positive quiet) four_failures)))
    as [Hcached _]; [vm_compute; reflexivity | reflexivity |].
  destruct (Hcached (params_of sample_form)) as (w' & Hrun & Hzero & _);
    [vm_compute; reflexivity |].
  exists w'. by split.
Defined.

(** X3. Before it has opened, a socket built by the reconnect path
    reconnects on a close event unless the code is 1000; once
    [setupWebSocketHandlers] has run, its close handler ignores the code
    and arms a 500 ms retry that the ref [reconnectTimeoutRef] does not
    track.  Either way the socket ends closed, and with an inactive capture
    nothing else happens. *)
Theorem close_handlers (cap : TranscriptionState) (ws : SocketId) (s : Socket)
    (code : Z) (w : World) :
  sockets w !! ws = Some s ->
  readyState s <> CLOSED ->
  ready_of ws (dispatch_close ws s code w) = Some CLOSED
  /\ (onclose s = Some (ReconnectOnClose cap) ->
      (code = 1000 \/ isRecording cap = false ->
       dispatch_close ws s code w = update_socket ws (with_readyState CLOSED) w)
      /\ (code <> 1000 -> isRecording cap = true ->
          dispatch_close ws s code w
            = reconnectWebSocket cap (update_socket ws (with_readyState CLOSED) w)))
  /\ (onclose s = Some (SetupOnClose cap) ->
      (isRecording cap = false ->
       dispatch_close ws s code w = update_socket ws (with_readyState CLOSED) w)
      /\ (isRecording cap = true ->
          timers (dispatch_close ws s code w) !! next_timer w
            = Some (Timeout 500 (CloseRetryCallback cap))
          /\ refs (dispatch_close ws s code w) = refs w)).
Proof.
  intros Hs Hlive.
  assert (bool_decide (readyState s = CLOSED) = false) as Hdec
    by by apply bool_decide_eq_false_2.
  assert (forall v, ready_of ws v = readyState <$> sockets v !! ws) as Hready by done.
  split_and!.
  - unfold dispatch_close. rewrite Hdec. cbv zeta.
    assert (ready_of ws (update_socket ws (with_readyState CLOSED) w) = Some CLOSED)
      as Hclosed.
    { rewrite Hready. simpl. by rewrite list_lookup_alter_eq, Hs. }
    destruct (onclose s) as [[c|c]|]; [| |done].
    + unfold reconnect_onclose. case_match; [|done].
      rewrite Hready in *.
      by destruct (reconnect_frame c (update_socket ws (with_readyState CLOSED) w))
        as (_ & _ & -> & _).
    + unfold setup_onclose. by case_match.
  - intros Hc. unfold dispatch_close, reconnect_onclose. rewrite Hdec, Hc.
    cbv zeta. split.
    + intros [-> | ->]; [by rewrite andb_false_r | done].
    + intros Hcode ->. simpl.
      by destruct (Z.eqb_spec code 1000).
  - intros Hc. unfold dispatch_close, setup_onclose. rewrite Hdec, Hc.
    cbv zeta. split.
    + by intros ->.
    + intros ->. split; [|done]. simpl. apply lookup_insert_eq.
Qed.

Lemma close_handlers_witness :
  timers (dispatch_close 1%nat
            {| url := ws_url (Some (session_id 1700)); readyState := OPEN;
               onopen := Some (ReconnectOnOpen live_capture); onmessage := true;
               onerror := Some (SetupOnError live_capture);
               onclose := Some (SetupOnClose live_capture);
               sent := [JSON_stringify (params_of sample_form)] |}
            1000 resumed_after_clear) !! 8%positive
    = Some (Timeout 500 (CloseRetryCallback live_capture)).
Proof.
  destruct (close_handlers live_capture 1%nat
              {| url := ws_url (Some (session_id 1700)); readyState := OPEN;
                 onopen := Some (ReconnectOnOpen live_capture); onmessage := true;
                 onerror := Some (SetupOnError live_capture);
                 onclose := Some (SetupOnClose live_capture);
                 sent := [JSON_stringify (params_of sample_form)] |}
              1000 resumed_after_clear) as (_ & _ & Hsetup);
    [vm_compute; reflexivity | discriminate |].
  destruct Hsetup as [_ Harm]; [reflexivity |].
  destruct Harm as [Htimer _]; [reflexivity |].
  exact Htimer.
Defined.

(** ** The message router as a whole *)

(** X4. A payload that does not parse, a frame without a kind, the kinds
    pong and started, and every kind the router has no branch for leave the
    component exactly as it was. *)
Theorem router_ignores_unknown (data : Frame) (w : World) :
  (forall kind, data_type data = Some kind ->
     kind = "pong" \/ kind = "started" \/ kind ∉ handled_kinds) ->
  onmessage_handler None w = w
  /\ onmessage_handler (Some data) w = w.
Proof.
  intros Hkind. split; [done|].
  unfold onmessage_handler, type_is.
  destruct (data_type data) as [kind|] eqn:Htype; [|done].
  destruct (Hkind kind eq_refl) as [-> | [-> | Hnew]]; [done | done |].
  unfold handled_kinds in Hnew. rewrite !not_elem_of_cons in Hnew.
  destruct Hnew as (? & ? & ? & ? & ? & ? & ? & ? & ? & _).
  repeat (case_bool_decide; [congruence|]). done.
Qed.

Lemma router_ignores_unknown_witness :
  onmessage_handler
    (Some {| data_type := Some "progress"; data_text := Some "xyz";
             data_translated_text := None; data_message := None |})
    session_open = session_open.
Proof.
  destruct (router_ignores_unknown
              {| data_type := Some "progress"; data_text := Some "xyz";
                 data_translated_text := None; data_message := None |} session_open)
    as [_ Hsame]; [|exact Hsame].
  intros kind [= <-]. right. right. unfold handled_kinds.
  rewrite !not_elem_of_cons. split_and!; try discriminate. apply not_elem_of_nil.
Defined.

(** X5. Whatever the payload, the router neither touches a ref or a socket
    nor arms a timer, and it keeps the session id of the state; the only
    timer it can remove is the keepalive whose handle [pingIntervalRef]
    holds.  In particular an error frame leaves the transport as it is. *)
Theorem router_leaves_connection (payload : option Frame) (w : World) :
  refs (onmessage_handler payload w) = refs w
  /\ sockets (onmessage_handler payload w) = sockets w
  /\ rendered (onmessage_handler payload w) = rendered w
  /\ next_timer (onmessage_handler payload w) = next_timer w
  /\ sessionId (state (onmessage_handler payload w)) = sessionId (state w)
  /\ (forall id t, timers (onmessage_handler payload w) !! id = Some t ->
        timers w !! id = Some t)
  /\ (forall id, pingIntervalRef (refs w) <> Some id ->
        timers (onmessage_handler payload w) !! id = timers w !! id).
Proof.
  unfold onmessage_handler. destruct payload as [data|]; [|done].
  repeat case_match; simpl; split_and!; try done.
  - intros id t. rewrite lookup_delete_Some. tauto.
  - intros id Hne. apply lookup_delete_ne. simpl in *. congruence.
Qed.

Lemma text_frame_state data w :
  data_type data = Some "text" ->
  onmessage_handler (Some data) w =
    set_state {| isRecording := isRecording (state w);
                 text := js_or (data_text data) (text (state w));
                 translatedText := translatedText (state w);
                 error := error (state w); sessionId := sessionId (state w) |} w.
Proof.
  intros Htype. rewrite text_frame_step by done.
  destruct w as [[] ? ? ? ? ? ? ?].
  by destruct (data_text data) as [[|c rest]|].
Qed.

Lemma translation_frame_state data w :
  data_type data = Some "translated_text" ->
  onmessage_handler (Some data) w =
    set_state {| isRecording := isRecording (state w);
                 text := text (state w);
                 translatedText :=
                   js_or (data_translated_text data) (translatedText (state w));
                 error := error (state w); sessionId := sessionId (state w) |} w.
Proof.
  intros Htype. unfold onmessage_handler, type_is. rewrite Htype. simpl.
  destruct w as [[] ? ? ? ? ? ? ?].
  by destruct (data_translated_text data) as [[|c rest]|].
Qed.

(** X6. A text frame and a translation frame can be applied in either
    order with the same result; and of two text frames with non-empty text
    the later one alone decides the result. *)
Theorem text_and_translation_commute (a a' b : Frame) (w : World) :
  data_type a = Some "text" ->
  data_type a' = Some "text" ->
  data_type b = Some "translated_text" ->
  onmessage_handler (Some a) (onmessage_handler (Some b) w)
    = onmessage_handler (Some b) (onmessage_handler (Some a) w)
  /\ (truthy (data_text a') = true ->
      onmessage_handler (Some a') (onmessage_handler (Some a) w)
        = onmessage_handler (Some a') w).
Proof.
  intros Ha Ha' Hb.
  rewrite !(text_frame_state a), !(text_frame_state a'),
    !(translation_frame_state b) by done.
  split; [done|].
  intros Hfull. destruct (data_text a') as [[|c rest]|]; done.
Qed.

Lemma text_and_translation_commute_witness :
  onmessage_handler (Some (text_frame (Some "two")))
    (onmessage_handler (Some (translation_frame (Some "zwei"))) session_open)
  = onmessage_handler (Some (translation_frame (Some "zwei")))
      (onmessage_handler (Some (text_frame (Some "two"))) session_open).
Proof.
  destruct (text_and_translation_commute (text_frame (Some "two"))
              (text_frame (Some "two")) (translation_frame (Some "zwei")) session_open)
    as [Hcommute _]; [reflexivity | reflexivity | reflexivity |].
  exact Hcommute.
Defined.

(** ** The status poller against the router *)

(** X7. When the poller's guard passes, a successful response that reports
    recording has the effect of a text frame followed by a translation
    frame carrying the same two fields; a response that reports no
    recording only marks the state inactive and keeps both texts.  When the
    guard fails (inactive capture or no cached session id) no response has
    any effect. *)
Theorem poll_follows_frame_contract
    (cap : TranscriptionState) (data : StatusData) (w : World) :
  (isRecording cap = true -> truthy (sessionIdRef (refs w)) = true ->
   (status_is_recording data = true ->
    pollSessionStatus cap (ResponseOk data) w
      = onmessage_handler (Some (translation_frame (status_translated_text data)))
          (onmessage_handler (Some (text_frame (status_text data))) w))
   /\ (status_is_recording data = false ->
       pollSessionStatus cap (ResponseOk data) w
         = set_state {| isRecording := false; text := text (state w);
                        translatedText := translatedText (state w);
                        error := error (state w);
                        sessionId := sessionId (state w) |} w))
  /\ (isRecording cap = false \/ truthy (sessionIdRef (refs w)) = false ->
      forall outcome, pollSessionStatus cap outcome w = w).
Proof.
  split.
  - intros Hactive Hsid. split; intros Hrec.
    + rewrite (translation_frame_state (translation_frame _)) by done.
      rewrite (text_frame_state (text_frame _)) by done.
      unfold pollSessionStatus. by rewrite Hactive, Hsid, Hrec.
    + unfold pollSessionStatus. by rewrite Hactive, Hsid, Hrec.
  - intros Hguard outcome. unfold pollSessionStatus.
    destruct Hguard as [-> | ->]; [done | by rewrite orb_true_r].
Qed.

Lemma poll_follows_frame_contract_witness :
  pollSessionStatus live_capture
    (ResponseOk {| status_is_recording := true; status_text := Some "polled";
                   status_translated_text := None |}) session_open
  = onmessage_handler (Some (translation_frame None))
      (onmessage_handler (Some (text_frame (Some "polled"))) session_open).
Proof.
  destruct (poll_follows_frame_contract live_capture
              {| status_is_recording := true; status_text := Some "polled";
                 status_translated_text := None |} session_open) as [Hpass _].
  destruct Hpass as [Hrec _]; [reflexivity | vm_compute; reflexivity |].
  apply Hrec. reflexivity.
Defined.

(** ** [stopRecording] at its edges *)

Lemma stop_unfold w :
  stopRecording w =
    match wsRef (refs (cancel_tracked w)) with
    | Some ws =>
        match send_on ws (JSON_stringify stop_frame) (cancel_tracked w) with
        | Normal v =>
            Normal (forget_session (assign_wsRef None (update_socket ws ws_close v)))
        | Thrown v => Thrown v
        end
    | None => Normal (forget_session (cancel_tracked w))
    end.
Proof. reflexivity. Qed.

Lemma cancel_frame w :
  state (cancel_tracked w) = state w
  /\ rendered (cancel_tracked w) = rendered w
  /\ sockets (cancel_tracked w) = sockets w
  /\ wsRef (refs (cancel_tracked w)) = wsRef (refs w)
  /\ sessionIdRef (refs (cancel_tracked w)) = sessionIdRef (refs w)
  /\ recordingParamsRef (refs (cancel_tracked w)) = recordingParamsRef (refs w)
  /\ reconnectAttemptsRef (refs (cancel_tracked w)) = reconnectAttemptsRef (refs w)
  /\ reconnectTimeoutRef (refs (cancel_tracked w)) = None
  /\ pingIntervalRef (refs (cancel_tracked w)) = None
  /\ statusPollIntervalRef (refs (cancel_tracked w)) = None.
Proof.
  unfold cancel_tracked. cbv zeta.
  destruct (reconnectTimeoutRef (refs w)) as [tid|] eqn:Ht; simpl;
    destruct (pingIntervalRef (refs w)) as [pid|] eqn:Hp; simpl;
    destruct (statusPollIntervalRef (refs w)) as [sid|] eqn:Hs; simpl;
    rewrite ?Ht, ?Hp, ?Hs; done.
Qed.

Lemma cancel_timers w id :
  timers (cancel_tracked w) !! id =
    if bool_decide (reconnectTimeoutRef (refs w) = Some id
                    \/ pingIntervalRef (refs w) = Some id
                    \/ statusPollIntervalRef (refs w) = Some id)
    then None else timers w !! id.
Proof.
  unfold cancel_tracked. cbv zeta.
  destruct (reconnectTimeoutRef (refs w)) as [tid|] eqn:Ht; simpl;
    destruct (pingIntervalRef (refs w)) as [pid|] eqn:Hp; simpl;
    destruct (statusPollIntervalRef (refs w)) as [sid|] eqn:Hs; simpl;
    repeat match goal with
           | |- context [delete ?k _ !! ?i] =>
               destruct (decide (k = i)) as [->|];
               [rewrite lookup_delete_eq | rewrite lookup_delete_ne by done]
           end;
    first [ done
          | by rewrite bool_decide_eq_true_2 by auto
          | by rewrite bool_decide_eq_false_2
              by (intros [?|[?|?]]; congruence) ].
Qed.

(** X8. If the current socket is still connecting, [stopRecording] raises
    at the send: the three timers it tracks are already cancelled and
    their refs null, but the socket is neither closed nor forgotten, the
    cached session id and parameters stay, and the state still says
    recording. *)
Theorem stop_throws_while_connecting (ws : SocketId) (s : Socket) (w : World) :
  wsRef (refs w) = Some ws ->
  sockets w !! ws = Some s ->
  readyState s = CONNECTING ->
  stopRecording w = Thrown (cancel_tracked w)
  /\ state (cancel_tracked w) = state w
  /\ sockets (cancel_tracked w) = sockets w
  /\ wsRef (refs (cancel_tracked w)) = Some ws
  /\ sessionIdRef (refs (cancel_tracked w)) = sessionIdRef (refs w)
  /\ recordingParamsRef (refs (cancel_tracked w)) = recordingParamsRef (refs w)
  /\ reconnectTimeoutRef (refs (cancel_tracked w)) = None
  /\ pingIntervalRef (refs (cancel_tracked w)) = None
  /\ statusPollIntervalRef (refs (cancel_tracked w)) = None
  /\ (forall id, reconnectTimeoutRef (refs w) = Some id
                 \/ pingIntervalRef (refs w) = Some id
                 \/ statusPollIntervalRef (refs w) = Some id ->
        timers (cancel_tracked w) !! id = None).
Proof.
  intros Hws Hs Hconn.
  destruct (cancel_frame w) as (Hst & _ & Hsock & Hw & Hsid & Hp & _ & Ht & Hpi & Hpo).
  split_and!; try congruence.
  - rewrite stop_unfold, Hw, Hws. unfold send_on, ws_send.
    by rewrite Hsock, Hs, Hconn.
  - intros id Hid. rewrite cancel_timers. by rewrite bool_decide_eq_true_2.
Qed.

Lemma stop_throws_while_connecting_witness :
  stopRecording session_connecting = Thrown (cancel_tracked session_connecting)
  /\ state (cancel_tracked session_connecting) = state session_connecting.
Proof.
  destruct (stop_throws_while_connecting 0%nat
              {| url := ws_url (Some (session_id 1700)); readyState := CONNECTING;
                 onopen := Some StartOnOpen; onmessage := true;
                 onerror := Some (SetupOnError initial_state);
                 onclose := Some (SetupOnClose initial_state); sent := [] |}
              session_connecting)
    as (Hthrown & Hstate & _);
    [vm_compute; reflexivity | vm_compute; reflexivity | reflexivity |].
  by split.
Defined.

Lemma stopped_world_fixed w :
  wsRef (refs w) = None -> reconnectTimeoutRef (refs w) = None ->
  pingIntervalRef (refs w) = None -> statusPollIntervalRef (refs w) = None ->
  sessionIdRef (refs w) = None -> recordingParamsRef (refs w) = None ->
  isRecording (state w) = false ->
  stopRecording w = Normal w.
Proof.
  destruct w as [[] ? [] ? ? ? ? ?]. simpl. intros -> -> -> -> -> -> ->.
  reflexivity.
Qed.

(** X9. If there is no current socket, or the current socket is not
    connecting, [stopRecording] completes.  It keeps the transcript, the
    translation, the error and the session id of the state; it forgets the
    socket; if the socket was open the stop frame is the last frame sent on
    it and the socket is closing; and stopping again changes nothing. *)
Theorem stop_completes_and_keeps_transcript (w : World) :
  (forall ws s, wsRef (refs w) = Some ws -> sockets w !! ws = Some s ->
     readyState s <> CONNECTING) ->
  exists w',
    stopRecording w = Normal w'
    /\ state w' = {| isRecording := false; text := text (state w);
                     translatedText := translatedText (state w);
                     error := error (state w); sessionId := sessionId (state w) |}
    /\ wsRef (refs w') = None
    /\ (forall ws s, wsRef (refs w) = Some ws -> sockets w !! ws = Some s ->
          readyState s = OPEN ->
          sockets w' !! ws
            = Some (with_readyState CLOSING
                      (with_sent (sent s ++ [JSON_stringify stop_frame]) s)))
    /\ (forall ws, wsRef (refs w) <> Some ws -> sockets w' !! ws = sockets w !! ws)
    /\ stopRecording w' = Normal w'.
Proof.
  intros Hready.
  destruct (cancel_frame w) as (Hst & _ & Hsock & Hw & Hsid & Hp & _ & Ht & Hpi & Hpo).
  assert (forall v', refs v' = refs (cancel_tracked w) ->
            state v' = state w ->
            let w' := forget_session (assign_wsRef None v') in
            state w' = {| isRecording := false; text := text (state w);
                          translatedText := translatedText (state w);
                          error := error (state w);
                          sessionId := sessionId (state w) |}
            /\ wsRef (refs w') = None
            /\ stopRecording w' = Normal w') as Hfinish.
  { intros v' Hrefs Hstate. simpl. rewrite Hstate. split_and!; [done | done |].
    apply stopped_world_fixed; simpl; rewrite ?Hrefs; congruence. }
  rewrite stop_unfold, Hw.
  destruct (wsRef (refs w)) as [ws|] eqn:Hws.
  - unfold send_on, ws_send. rewrite Hsock.
    destruct (sockets w !! ws) as [s|] eqn:Hs.
    + pose proof (Hready ws s eq_refl Hs) as Hnot.
      assert (exists s'', (readyState s = OPEN ->
                             s'' = with_sent (sent s ++ [JSON_stringify stop_frame]) s)
                          /\ match readyState s with
                             | CONNECTING => None
                             | OPEN => Some (with_sent
                                               (sent s ++ [JSON_stringify stop_frame]) s)
                             | _ => Some s
                             end = Some s'') as (s'' & Hopen & ->).
      { destruct (readyState s); [done | | |]; eexists;
          (split; [|reflexivity]); intros Hstate;
          first [discriminate Hstate | reflexivity]. }
      eexists. split; [reflexivity|].
      destruct (Hfinish (update_socket ws ws_close
                           (update_socket ws (fun _ => s'') (cancel_tracked w))))
        as (Hstate' & Hws' & Hagain); [done | done |].
      split_and!; [exact Hstate' | exact Hws' | | | exact Hagain].
      * intros ws' s' [= <-] Hs' Hisopen. simpl.
        rewrite !list_lookup_alter_eq, Hsock, Hs. simpl.
        assert (s' = s) as -> by congruence. rewrite (Hopen Hisopen).
        unfold ws_close. simpl. by rewrite Hisopen.
      * intros ws' Hne. simpl.
        rewrite !list_lookup_alter_ne by congruence. by rewrite Hsock.
    + eexists. split; [reflexivity|].
      destruct (Hfinish (update_socket ws ws_close (cancel_tracked w)))
        as (Hstate' & Hws' & Hagain); [done | done |].
      split_and!; [exact Hstate' | exact Hws' | | | exact Hagain].
      * intros ws' s' [= <-] Hs'. congruence.
      * intros ws' Hne. simpl.
        rewrite !list_lookup_alter_ne by congruence. by rewrite Hsock.
  - eexists. split; [reflexivity|]. simpl. rewrite Hst.
    split_and!; [done | done | done | | ].
    + intros ws _. by rewrite Hsock.
    + apply stopped_world_fixed; simpl; congruence.
Qed.

Lemma stop_completes_and_keeps_transcript_witness :
  exists w',
    stopRecording session_open = Normal w'
    /\ text (state w') = "abc"
    /\ stopRecording w' = Normal w'.
Proof.
  destruct (stop_completes_and_keeps_transcript session_open)
    as (w' & Hstop & Hstate & _ & _ & _ & Hagain).
  - intros ws s Hws Hs. vm_compute in Hws. injection Hws as <-.
    vm_compute in Hs. injection Hs as <-. discriminate.
  - exists w'. split_and!; [done | | done]. rewrite Hstate. vm_compute. reflexivity.
Defined.

(** ** Intervals: none leaks, and the effect's closures are fresh *)

Lemma tracked_from w w' :
  (forall id period callback,
      timers w' !! id = Some (Interval period callback) ->
      timers w !! id = Some (Interval period callback)) ->
  pingIntervalRef (refs w') = pingIntervalRef (refs w) ->
  statusPollIntervalRef (refs w') = statusPollIntervalRef (refs w) ->
  connectionCheckInterval w' = connectionCheckInterval w ->
  isRecording (rendered w') = isRecording (rendered w) ->
  visibilityListener w' = visibilityListener w ->
  tracked_intervals w -> tracked_intervals w'.
Proof.
  intros Hsub Hping Hpoll Hsweep Hrendered Hlistener [Hint Hvis].
  split.
  - intros id period callback Hid. apply Hsub, Hint in Hid.
    destruct callback; simpl in *; by rewrite ?Hping, ?Hpoll, ?Hsweep, ?Hrendered.
  - intros cap. rewrite Hlistener, Hrendered. apply Hvis.
Qed.

Lemma tracked_same w w' :
  timers w' = timers w ->
  pingIntervalRef (refs w') = pingIntervalRef (refs w) ->
  statusPollIntervalRef (refs w') = statusPollIntervalRef (refs w) ->
  connectionCheckInterval w' = connectionCheckInterval w ->
  isRecording (rendered w') = isRecording (rendered w) ->
  visibilityListener w' = visibilityListener w ->
  tracked_intervals w -> tracked_intervals w'.
Proof. intros Ht. apply tracked_from. intros id p c. by rewrite Ht. Qed.

Lemma tracked_clear id w :
  tracked_intervals w -> tracked_intervals (clearTimeout id w).
Proof.
  apply tracked_from; try done.
  intros i p c. simpl. rewrite lookup_delete_Some. tauto.
Qed.

Lemma tracked_setTimeout callback delay w :
  tracked_intervals w -> tracked_intervals (setTimeout callback delay w).
Proof.
  apply tracked_from; try done.
  intros i p c. simpl. rewrite lookup_insert_Some.
  intros [[_ ?]|[_ ?]]; [discriminate | done].
Qed.

Lemma tracked_reconnect cap w :
  tracked_intervals w -> tracked_intervals (reconnectWebSocket cap w).
Proof.
  destruct (reconnect_refused cap w) eqn:Hgo.
  { by rewrite reconnect_refused_true. }
  destruct (reconnect_frame cap w) as (_ & Hr & _ & Hl & Hc & _ & Hp & _ & _ & Hs).
  apply tracked_from; try done; [|by rewrite Hr].
  intros i p c. rewrite reconnect_timers by done. rewrite lookup_insert_Some.
  intros [[_ ?]|[_ Hold]]; [discriminate|].
  destruct (reconnectTimeoutRef (refs w)); [|done].
  by apply lookup_delete_Some in Hold as [_ ?].
Qed.

(** Installing the keepalive: the handle stored before is cancelled first. *)
Lemma tracked_setup cap ws w :
  tracked_intervals w -> tracked_intervals (setupWebSocketHandlers cap ws w).
Proof.
  intros [Hint Hvis]. unfold setupWebSocketHandlers. cbv zeta.
  destruct (pingIntervalRef (refs w)) as [old|] eqn:Hold;
    (split; [|exact Hvis]); intros id period callback; simpl;
    rewrite lookup_insert_Some;
    (intros [[<- [= <- <-]]|[Hne Hid]]; [done|]).
  - apply lookup_delete_Some in Hid as [Hneq Hid].
    pose proof (Hint _ _ _ Hid) as Hok.
    destruct callback; simpl in *; try done.
    destruct Hok as [Href _]. congruence.
  - pose proof (Hint _ _ _ Hid) as Hok.
    destruct callback; simpl in *; try done.
    destruct Hok as [Href _]. congruence.
Qed.

Lemma tracked_cancel w :
  tracked_intervals w -> tracked_intervals (cancel_tracked w).
Proof.
  intros [Hint Hvis].
  destruct (cancel_frame w) as (_ & Hrendered & _ & _ & _ & _ & _ & _ & Hping & Hpoll).
  split.
  - intros id period callback Hid. rewrite cancel_timers in Hid.
    case_bool_decide as Htracked; [done|].
    pose proof (Hint _ _ _ Hid) as Hok.
    destruct callback; simpl in *; rewrite ?Hrendered.
    + destruct Hok as [Href _]. tauto.
    + assert (connectionCheckInterval (cancel_tracked w) = connectionCheckInterval w)
        as -> by (unfold cancel_tracked; by repeat case_match).
      done.
    + destruct Hok as [Href _]. tauto.
  - intros cap.
    assert (visibilityListener (cancel_tracked w) = visibilityListener w) as ->
      by (unfold cancel_tracked; by repeat case_match).
    rewrite Hrendered. apply Hvis.
Qed.

Lemma cleanup_timers w :
  timers (effect_cleanup w) =
    match statusPollIntervalRef (refs w) with
    | Some poll =>
        delete poll match connectionCheckInterval w with
                    | Some sweep => delete sweep (timers w)
                    | None => timers w
                    end
    | None => match connectionCheckInterval w with
              | Some sweep => delete sweep (timers w)
              | None => timers w
              end
    end.
Proof.
  unfold effect_cleanup. cbv zeta. simpl.
  destruct (connectionCheckInterval w); simpl;
    by destruct (statusPollIntervalRef (refs w)).
Qed.

(** The cleanup leaves no sweep and no poller behind. *)
Lemma cleanup_removes w :
  tracked_intervals w ->
  forall id period callback,
    timers (effect_cleanup w) !! id = Some (Interval period callback) ->
    timers w !! id = Some (Interval period callback)
    /\ exists cap ws, callback = KeepaliveTick cap ws.
Proof.
  intros [Hint _] id period callback. rewrite cleanup_timers. intros Hid.
  assert (timers w !! id = Some (Interval period callback)
          /\ connectionCheckInterval w <> Some id
          /\ statusPollIntervalRef (refs w) <> Some id) as (Hw & Hsweep & Hpoll).
  { destruct (statusPollIntervalRef (refs w)) as [poll|],
      (connectionCheckInterval w) as [sweep|];
      rewrite ?lookup_delete_Some in Hid; split_and!;
      try tauto; try congruence; intros [= <-]; tauto. }
  split; [done|]. pose proof (Hint _ _ _ Hw) as Hok.
  destruct callback; simpl in Hok; [by eauto | |]; by destruct Hok.
Qed.

Lemma cleanup_frame w :
  refs (effect_cleanup w) = refs w
  /\ rendered (effect_cleanup w) = rendered w
  /\ state (effect_cleanup w) = state w
  /\ sockets (effect_cleanup w) = sockets w
  /\ next_timer (effect_cleanup w) = next_timer w.
Proof. unfold effect_cleanup. cbv zeta. by repeat case_match. Qed.

Lemma tracked_render w :
  tracked_intervals w -> tracked_intervals (render w).
Proof.
  intros Htracked. unfold render. cbv zeta. simpl state.
  destruct (Bool.eqb_spec (isRecording (rendered w)) (isRecording (state w)))
    as [Heq|Hne].
  - revert Htracked. apply tracked_same; try done; simpl; congruence.
  - destruct Htracked as [Hint Hvis].
    assert (forall id period callback,
              timers (effect_cleanup (set_rendered (state w) w)) !! id
                = Some (Interval period callback) ->
              timers w !! id = Some (Interval period callback)
              /\ exists cap ws, callback = KeepaliveTick cap ws) as Hleft.
    { intros id period callback Hid.
      rewrite cleanup_timers in Hid. simpl in Hid.
      rewrite <- cleanup_timers in Hid. by eapply cleanup_removes. }
    destruct (cleanup_frame (set_rendered (state w) w)) as (Hr & Hrd & _ & _ & _).
    split; [|intros cap; simpl; rewrite Hrd; simpl; by intros [= <-]].
    intros id period callback. simpl. rewrite !lookup_insert_Some.
    intros [[<- [= <- <-]]|[Hne1 [[<- [= <- <-]]|[Hne2 Hid]]]].
    + simpl. by rewrite Hrd.
    + simpl. by rewrite Hrd.
    + destruct (Hleft id period callback Hid) as [Hw (cap & ws & ->)].
      simpl. rewrite Hr. apply (Hint _ _ _ Hw).
Qed.

Create HintDb tracked discriminated.

Ltac peel_tracked w :=
  apply (tracked_same w);
  [reflexivity | reflexivity | reflexivity | reflexivity | reflexivity | reflexivity | ].

#[local] Hint Resolve tracked_clear tracked_setTimeout tracked_reconnect
  tracked_setup tracked_cancel tracked_render : tracked.
#[local] Hint Extern 1 (tracked_intervals (clearInterval _ _)) =>
  apply tracked_clear : tracked.
#[local] Hint Extern 1 (tracked_intervals (set_state _ ?w)) => peel_tracked w : tracked.
#[local] Hint Extern 1 (tracked_intervals (setState _ ?w)) => peel_tracked w : tracked.
#[local] Hint Extern 1 (tracked_intervals (new_WebSocket _ ?w)) =>
  peel_tracked w : tracked.
#[local] Hint Extern 1 (tracked_intervals (update_socket _ _ ?w)) =>
  peel_tracked w : tracked.
#[local] Hint Extern 1 (tracked_intervals (assign_wsRef _ ?w)) =>
  peel_tracked w : tracked.
#[local] Hint Extern 1 (tracked_intervals (assign_reconnectTimeoutRef _ ?w)) =>
  peel_tracked w : tracked.
#[local] Hint Extern 1 (tracked_intervals (assign_reconnectAttemptsRef _ ?w)) =>
  peel_tracked w : tracked.
#[local] Hint Extern 1 (tracked_intervals (assign_sessionIdRef _ ?w)) =>
  peel_tracked w : tracked.
#[local] Hint Extern 1 (tracked_intervals (assign_recordingParamsRef _ ?w)) =>
  peel_tracked w : tracked.
#[local] Hint Extern 1 (tracked_intervals (forget_session ?w)) =>
  peel_tracked w : tracked.

Ltac crush_tracked :=
  intros; repeat case_match; subst; cbv zeta; eauto 20 with tracked.

Lemma send_on_tracked ws data w c :
  send_on ws data w = c ->
  tracked_intervals w -> tracked_intervals (world_of c).
Proof.
  intros <-. unfold send_on. destruct (sockets w !! ws); [|done].
  destruct (ws_send data _); simpl; crush_tracked.
Qed.

Lemma stop_tracked w :
  tracked_intervals w -> tracked_intervals (world_of (stopRecording w)).
Proof.
  intros Htracked. rewrite stop_unfold.
  apply tracked_cancel in Htracked.
  destruct (wsRef (refs (cancel_tracked w))); [|simpl; crush_tracked].
  destruct (send_on _ _ _) as [v|v] eqn:Hsend;
    apply send_on_tracked in Hsend; try done; simpl in *; crush_tracked.
Qed.

Lemma start_tracked cap form now throws w :
  tracked_intervals w ->
  tracked_intervals (world_of (startRecording cap form now throws w)).
Proof. unfold startRecording. crush_tracked; simpl; crush_tracked. Qed.

Lemma reconnect_onopen_tracked cap ws w :
  tracked_intervals w -> tracked_intervals (world_of (reconnect_onopen cap ws w)).
Proof.
  unfold reconnect_onopen. intros Htracked. cbv zeta.
  destruct (recordingParamsRef _); [|simpl; crush_tracked].
  destruct (send_on _ _ _) as [v|v] eqn:Hsend;
    apply send_on_tracked in Hsend; simpl world_of in *; crush_tracked.
Qed.

Lemma clear_tracked w :
  tracked_intervals w -> tracked_intervals (clearText w).
Proof.
  unfold clearText. intros Htracked. cbv zeta.
  destruct (wsRef _); [|crush_tracked].
  case_match; [|crush_tracked].
  eapply send_on_tracked; [reflexivity|]. crush_tracked.
Qed.

Lemma step_tracked ev w :
  tracked_intervals w -> tracked_intervals (step ev w).
Proof.
  intros Htracked. destruct ev; simpl.
  - by apply tracked_render.
  - case_match; [done | by apply start_tracked].
  - case_match; [by apply stop_tracked | done].
  - case_match; [done | by apply clear_tracked].
  - case_match; [|done]. unfold handleVisibilityChange. crush_tracked.
  - destruct (timers w !! id) as [[delay [cap|cap]|period [cap ws|cap|cap]]|] eqn:Hid;
      simpl; try done.
    + unfold reconnectTimeoutCallback. crush_tracked.
    + unfold closeRetryCallback. crush_tracked.
    + unfold keepalive. destruct (sockets w !! ws); [|crush_tracked].
      case_match; [|crush_tracked].
      destruct (ws_send _ _); crush_tracked.
    + unfold connectionCheck. crush_tracked.
    + unfold pollSessionStatus. crush_tracked.
  - case_match; [|done]. unfold dispatch_open.
    case_match; [|done]. cbv zeta.
    destruct (onopen _) as [[|cap]|].
    + unfold start_onopen. eapply send_on_tracked; [reflexivity|]. crush_tracked.
    + apply reconnect_onopen_tracked. crush_tracked.
    + crush_tracked.
  - case_match; [|done]. unfold dispatch_message.
    case_match; [|done]. unfold onmessage_handler. crush_tracked.
  - case_match; [|done].
    unfold dispatch_error, reconnect_onerror, setup_onerror. crush_tracked.
  - case_match; [|done].
    unfold dispatch_close, reconnect_onclose, setup_onclose. crush_tracked.
  - case_match; [|done]. unfold dispatch_closing. crush_tracked.
Qed.

Lemma initial_tracked : tracked_intervals initial_world.
Proof.
  split.
  - intros id period callback. vm_compute. intros Hid.
    repeat (destruct id as [id|id|]; try discriminate);
      injection Hid as <- <-; done.
  - intros cap. vm_compute. by intros [= <-].
Qed.

Lemma run_tracked evs w :
  tracked_intervals w -> tracked_intervals (run evs w).
Proof.
  revert w. induction evs as [|ev evs IH]; intros w Htracked; [done|].
  simpl. apply IH. by apply step_tracked.
Qed.

(** X10. In every state the component can reach from mounting, at most one
    keepalive, at most one sweep and at most one status poller are
    running, each under the handle its ref holds and with the period of
    the source: 10000, 3000 and 1000 ms. *)
Theorem no_interval_leak (evs : list Event) :
  (forall i j p q c d ws ws',
      timers (run evs initial_world) !! i = Some (Interval p (KeepaliveTick c ws)) ->
      timers (run evs initial_world) !! j = Some (Interval q (KeepaliveTick d ws')) ->
      i = j /\ pingIntervalRef (refs (run evs initial_world)) = Some i /\ p = 10000)
  /\ (forall i j p q c d,
        timers (run evs initial_world) !! i = Some (Interval p (ConnectionCheck c)) ->
        timers (run evs initial_world) !! j = Some (Interval q (ConnectionCheck d)) ->
        i = j /\ connectionCheckInterval (run evs initial_world) = Some i /\ p = 3000)
  /\ (forall i j p q c d,
        timers (run evs initial_world) !! i = Some (Interval p (PollSessionStatus c)) ->
        timers (run evs initial_world) !! j = Some (Interval q (PollSessionStatus d)) ->
        i = j /\ statusPollIntervalRef (refs (run evs initial_world)) = Some i
        /\ p = 1000).
Proof.
  destruct (run_tracked evs _ initial_tracked) as [Hint _].
  split_and!; intros i j p q c d; intros;
    repeat match goal with
           | H : timers _ !! _ = Some _ |- _ => apply Hint in H; simpl in H
           end;
    intuition congruence.
Qed.

Lemma no_interval_leak_witness :
  pingIntervalRef (refs (run start_then_render initial_world)) = Some 3%positive
  /\ connectionCheckInterval (run start_then_render initial_world) = Some 4%positive
  /\ statusPollIntervalRef (refs (run start_then_render initial_world))
       = Some 5%positive.
Proof.
  destruct (no_interval_leak start_then_render) as (Hkeep & Hsweep & Hpoll).
  destruct (Hkeep 3%positive 3%positive 10000 10000 initial_state initial_state
              0%nat 0%nat) as (_ & Hk & _); [vm_compute; reflexivity .. |].
  destruct (Hsweep 4%positive 4%positive 3000 3000 live_capture live_capture)
    as (_ & Hs & _); [vm_compute; reflexivity .. |].
  destruct (Hpoll 5%positive 5%positive 1000 1000 live_capture live_capture)
    as (_ & Hp & _); [vm_compute; reflexivity .. |].
  exact (conj Hk (conj Hs Hp)).
Defined.

(** X11. In every reachable state the sweep, the status poller and the
    visibility listener hold closures that captured the recording flag of
    the last render.  Hence, while the last render showed no recording, a
    visibility change and a tick of the sweep or of the poller change
    nothing. *)
Theorem effect_closures_follow_render (evs : list Event) :
  (forall cap, visibilityListener (run evs initial_world) = Some cap ->
     isRecording cap = isRecording (rendered (run evs initial_world)))
  /\ (forall id p cap,
        timers (run evs initial_world) !! id = Some (Interval p (ConnectionCheck cap))
        \/ timers (run evs initial_world) !! id
             = Some (Interval p (PollSessionStatus cap)) ->
        isRecording cap = isRecording (rendered (run evs initial_world)))
  /\ (isRecording (rendered (run evs initial_world)) = false ->
      (forall hidden,
         step (VisibilityChange hidden) (run evs initial_world) = run evs initial_world)
      /\ (forall id p cap env,
            timers (run evs initial_world) !! id = Some (Interval p (ConnectionCheck cap))
            \/ timers (run evs initial_world) !! id
                 = Some (Interval p (PollSessionStatus cap)) ->
            step (TimerFires id env) (run evs initial_world) = run evs initial_world)).
Proof.
  destruct (run_tracked evs _ initial_tracked) as [Hint Hvis].
  assert (forall id p cap,
            timers (run evs initial_world) !! id = Some (Interval p (ConnectionCheck cap))
            \/ timers (run evs initial_world) !! id
                 = Some (Interval p (PollSessionStatus cap)) ->
            isRecording cap = isRecording (rendered (run evs initial_world))) as Hfresh.
  { intros id p cap [Hid|Hid]; apply Hint in Hid; simpl in Hid; tauto. }
  split_and!; [done | done |].
  intros Hoff. split.
  - intros hidden. simpl.
    destruct (visibilityListener (run evs initial_world)) as [cap|] eqn:Hl; [|done].
    unfold handleVisibilityChange. rewrite (Hvis cap eq_refl), Hoff.
    by destruct hidden.
  - intros id p cap env Hid. pose proof (Hfresh _ _ _ Hid) as Hcap.
    rewrite Hoff in Hcap. simpl.
    destruct Hid as [-> | ->]; simpl.
    + unfold connectionCheck. by rewrite Hcap.
    + unfold pollSessionStatus. by rewrite Hcap.
Qed.

Lemma effect_closures_follow_render_witness :
  isRecording (rendered (run outage_then_stop initial_world)) = false
  /\ step (VisibilityChange false) (run outage_then_stop initial_world)
       = run outage_then_stop initial_world.
Proof.
  destruct (effect_closures_follow_render outage_then_stop) as (_ & _ & Hidle).
  split; [vm_compute; reflexivity |].
  destruct Hidle as [Hvis _]; [vm_compute; reflexivity |].
  exact (Hvis false).
Defined.

(** ** Unmounting *)

Lemma lookup_cancel handle table id t :
  cancel handle table !! id = Some t <-> handle <> Some id /\ table !! id = Some t.
Proof.
  destruct handle as [h|]; simpl.
  - rewrite lookup_delete_Some. split.
    + intros [Hne Hid]. split; [congruence | done].
    + intros [Hne Hid]. split; [congruence | done].
  - split; [intros Hid; split; [discriminate | done] | by intros [_ Hid]].
Qed.

Lemma unmount_cleanup_timers w :
  timers (unmount_cleanup w) =
    cancel (statusPollIntervalRef (refs w))
      (cancel (pingIntervalRef (refs w))
         (cancel (reconnectTimeoutRef (refs w)) (timers w))).
Proof.
  unfold unmount_cleanup. cbv zeta.
  destruct (wsRef (refs w)); simpl;
    destruct (reconnectTimeoutRef (refs w)); simpl;
    destruct (pingIntervalRef (refs w)); simpl;
    by destruct (statusPollIntervalRef (refs w)).
Qed.

Lemma unmount_cleanup_frame w :
  refs (unmount_cleanup w) = refs w
  /\ state (unmount_cleanup w) = state w
  /\ connectionCheckInterval (unmount_cleanup w) = connectionCheckInterval w
  /\ sockets (unmount_cleanup w) =
       match wsRef (refs w) with
       | Some ws => alter ws_close ws (sockets w)
       | None => sockets w
       end.
Proof.
  unfold unmount_cleanup. cbv zeta.
  destruct (wsRef (refs w)); simpl;
    destruct (reconnectTimeoutRef (refs w)); simpl;
    destruct (pingIntervalRef (refs w)); simpl;
    by destruct (statusPollIntervalRef (refs w)).
Qed.

Lemma unmount_timers w id t :
  timers (unmount w) !! id = Some t ->
  timers w !! id = Some t
  /\ reconnectTimeoutRef (refs w) <> Some id
  /\ pingIntervalRef (refs w) <> Some id
  /\ statusPollIntervalRef (refs w) <> Some id
  /\ connectionCheckInterval w <> Some id.
Proof.
  unfold unmount. rewrite cleanup_timers.
  destruct (unmount_cleanup_frame w) as (-> & _ & -> & _).
  rewrite unmount_cleanup_timers.
  change (match statusPollIntervalRef (refs w) with
          | Some poll => delete poll ?m
          | None => ?m'
          end) with (cancel (statusPollIntervalRef (refs w)) m).
  intros Hid.
  assert (cancel (statusPollIntervalRef (refs w))
            (cancel (connectionCheckInterval w)
               (cancel (statusPollIntervalRef (refs w))
                  (cancel (pingIntervalRef (refs w))
                     (cancel (reconnectTimeoutRef (refs w)) (timers w))))) !! id
          = Some t) as Hall.
  { revert Hid. by destruct (statusPollIntervalRef (refs w)),
      (connectionCheckInterval w). }
  rewrite !lookup_cancel in Hall. tauto.
Qed.

(** X12. When the component unmounts in any state it can reach, no interval
    and no reconnect timeout stays pending: the only timers that can
    survive are retries armed by a close handler.  The current socket is
    neither open nor connecting any more.  The cached session id and
    parameters and the state are left as they were. *)
Theorem unmount_cancels_tracked_timers (evs : list Event) :
  (forall id t, timers (unmount (run evs initial_world)) !! id = Some t ->
     exists delay cap, t = Timeout delay (CloseRetryCallback cap))
  /\ (forall ws s, wsRef (refs (run evs initial_world)) = Some ws ->
        sockets (unmount (run evs initial_world)) !! ws = Some s ->
        readyState s = CLOSING \/ readyState s = CLOSED)
  /\ refs (unmount (run evs initial_world)) = refs (run evs initial_world)
  /\ state (unmount (run evs initial_world)) = state (run evs initial_world).
Proof.
  pose proof (run_tracked evs _ initial_tracked) as [Hint _].
  pose proof (run_pending evs _ initial_pending) as Hone.
  set (w := run evs initial_world) in *. clearbody w.
  destruct (unmount_cleanup_frame w) as (Hrefs & Hstate & _ & Hsock).
  destruct (cleanup_frame (unmount_cleanup w)) as (Hr & _ & Hs & Hso & _).
  split_and!.
  - intros id t Hid.
    apply unmount_timers in Hid as (Hw & Hrt & Hping & Hpoll & Hsweep).
    destruct t as [delay [cap|cap]|period callback]; [|by eauto|].
    + apply Hone in Hw as [Hw _]. congruence.
    + apply Hint in Hw. destruct callback; simpl in Hw; exfalso; tauto.
  - intros ws s Hws. unfold unmount. rewrite Hso, Hsock, Hws.
    rewrite list_lookup_alter_eq, fmap_Some. intros (s0 & _ & ->).
    unfold ws_close. destruct (readyState s0) eqn:Hstate0; simpl; auto.
  - unfold unmount. by rewrite Hr.
  - unfold unmount. by rewrite Hs.
Qed.

Lemma unmount_cancels_tracked_timers_witness :
  exists s,
    sockets (unmount (run start_then_render initial_world)) !! 0%nat = Some s
    /\ (readyState s = CLOSING \/ readyState s = CLOSED).
Proof.
  destruct (unmount_cancels_tracked_timers start_then_render) as (_ & Hsock & _).
  eexists. split; [vm_compute; reflexivity|].
  eapply (Hsock 0%nat); vm_compute; reflexivity.
Defined.

(** ** Sessions: what is cached, and where the sockets connect *)

Lemma session_from w w' :
  reconnectAttemptsRef (refs w') = reconnectAttemptsRef (refs w) ->
  sessionIdRef (refs w') = sessionIdRef (refs w) ->
  recordingParamsRef (refs w') = recordingParamsRef (refs w) ->
  reconnectTimeoutRef (refs w') = reconnectTimeoutRef (refs w) ->
  sessionId (state w') = sessionId (state w) ->
  sockets w' = sockets w ->
  (forall id delay cap,
      timers w' !! id = Some (Timeout delay (ReconnectCallback cap)) ->
      timers w !! id = Some (Timeout delay (ReconnectCallback cap))) ->
  session_consistent w -> session_consistent w'.
Proof.
  intros Ha Hs Hp Ht Hst Hso Hsub (Hge & Hboth & Hsame & Hpend & Haddr).
  unfold session_consistent. rewrite Ha, Hs, Hp, Ht, Hst, Hso.
  split_and!; try done.
  intros id delay cap Hid. by apply Hsub, Hpend in Hid.
Qed.

Lemma session_same w w' :
  reconnectAttemptsRef (refs w') = reconnectAttemptsRef (refs w) ->
  sessionIdRef (refs w') = sessionIdRef (refs w) ->
  recordingParamsRef (refs w') = recordingParamsRef (refs w) ->
  reconnectTimeoutRef (refs w') = reconnectTimeoutRef (refs w) ->
  sessionId (state w') = sessionId (state w) ->
  sockets w' = sockets w ->
  timers w' = timers w ->
  session_consistent w -> session_consistent w'.
Proof.
  intros Ha Hs Hp Ht Hst Hso Htm. apply session_from; try done.
  intros id delay cap. by rewrite Htm.
Qed.

Lemma session_clear id w :
  session_consistent w -> session_consistent (clearTimeout id w).
Proof.
  apply session_from; try done.
  intros i delay cap. simpl. rewrite lookup_delete_Some. tauto.
Qed.

Lemma session_setInterval callback period w :
  session_consistent w -> session_consistent (setInterval callback period w).
Proof.
  apply session_from; try done.
  intros i delay cap. simpl. rewrite lookup_insert_Some.
  intros [[_ ?]|[_ ?]]; [discriminate | done].
Qed.

Lemma session_close_retry cap delay w :
  session_consistent w ->
  session_consistent (setTimeout (CloseRetryCallback cap) delay w).
Proof.
  apply session_from; try done.
  intros i d c. simpl. rewrite lookup_insert_Some.
  intros [[_ ?]|[_ ?]]; [discriminate | done].
Qed.

Lemma session_update_socket ws f w :
  (forall s, sockets w !! ws = Some s -> url (f s) = url s) ->
  session_consistent w -> session_consistent (update_socket ws f w).
Proof.
  intros Hurl (Hge & Hboth & Hsame & Hpend & Haddr).
  split_and!; try done. simpl.
  apply Forall_alter; [done|].
  intros s Hs [now Hnow]. exists now. by rewrite Hurl.
Qed.

Lemma session_new_socket now w :
  session_consistent w ->
  session_consistent (new_WebSocket (ws_url (Some (session_id now))) w).
Proof.
  intros (Hge & Hboth & Hsame & Hpend & Haddr).
  split_and!; try done. simpl.
  apply Forall_app. split; [done|].
  apply Forall_singleton. by exists now.
Qed.

Lemma session_attempts v w :
  0 <= v ->
  session_consistent w -> session_consistent (assign_reconnectAttemptsRef v w).
Proof. intros Hv (Hge & Hboth & Hsame & Hpend & Haddr). by split_and!. Qed.

Lemma refused_false_session cap w :
  reconnect_refused cap w = false -> is_Some (sessionIdRef (refs w)).
Proof.
  unfold reconnect_refused. destruct (sessionIdRef (refs w)); [by eauto|].
  by destruct (isRecording cap).
Qed.

Lemma session_reconnect cap w :
  session_consistent w -> session_consistent (reconnectWebSocket cap w).
Proof.
  intros Hinv. destruct (reconnect_refused cap w) eqn:Hgo.
  { by rewrite reconnect_refused_true. }
  destruct Hinv as (Hge & Hboth & Hsame & Hpend & Haddr).
  destruct (reconnect_frame cap w) as (Hst & _ & Hso & _ & _ & _ & _ & Hs & Hp & _).
  unfold session_consistent. rewrite Hs, Hp, Hst, Hso.
  split_and!; try done.
  - rewrite reconnect_refs by done. simpl. lia.
  - intros id delay c. rewrite reconnect_timers, reconnect_refs by done. simpl.
    rewrite lookup_insert_Some. intros [[-> _]|[Hne Hold]].
    { split; [done | by eapply refused_false_session]. }
    exfalso. destruct (reconnectTimeoutRef (refs w)) as [old|] eqn:Href.
    + apply lookup_delete_Some in Hold as [Hneq Hold].
      apply Hpend in Hold as [Hold _]. congruence.
    + apply Hpend in Hold as [Hold _]. congruence.
Qed.

Create HintDb session discriminated.

Ltac peel_session w :=
  apply (session_same w);
  [reflexivity | reflexivity | reflexivity | reflexivity | reflexivity
  | reflexivity | reflexivity | ].

Ltac keeps_url :=
  let s := fresh "s" in
  intros s _; first [reflexivity | unfold ws_close; by destruct (readyState s)].

#[local] Hint Resolve session_clear session_setInterval session_close_retry
  session_new_socket session_reconnect : session.
#[local] Hint Extern 1 (session_consistent (clearInterval _ _)) =>
  apply session_clear : session.
#[local] Hint Extern 1 (session_consistent (update_socket _ _ _)) =>
  apply session_update_socket; [keeps_url|] : session.
#[local] Hint Extern 1 (session_consistent (assign_reconnectAttemptsRef 0 _)) =>
  apply session_attempts; [done|] : session.
#[local] Hint Extern 1 (session_consistent (set_state _ ?w)) => peel_session w : session.
#[local] Hint Extern 1 (session_consistent (setState _ ?w)) => peel_session w : session.
#[local] Hint Extern 1 (session_consistent (set_rendered _ ?w)) =>
  peel_session w : session.
#[local] Hint Extern 1 (session_consistent (set_visibilityListener _ ?w)) =>
  peel_session w : session.
#[local] Hint Extern 1 (session_consistent (set_connectionCheckInterval _ ?w)) =>
  peel_session w : session.
#[local] Hint Extern 1 (session_consistent (assign_wsRef _ ?w)) =>
  peel_session w : session.
#[local] Hint Extern 1 (session_consistent (assign_pingIntervalRef _ ?w)) =>
  peel_session w : session.
#[local] Hint Extern 1 (session_consistent (assign_statusPollIntervalRef _ ?w)) =>
  peel_session w : session.

Ltac crush_session :=
  intros; repeat case_match; subst; cbv zeta; eauto 20 with session.

Lemma send_on_refs ws data w :
  refs (world_of (send_on ws data w)) = refs w.
Proof. by destruct (send_on_world ws data w) as [->|[s' ->]]. Qed.

Lemma ws_send_url data s s' : ws_send data s = Some s' -> url s' = url s.
Proof. unfold ws_send. destruct (readyState s); intros; by simplify_eq. Qed.

Lemma session_sent ws data s s' w :
  sockets w !! ws = Some s -> ws_send data s = Some s' ->
  session_consistent w -> session_consistent (update_socket ws (fun _ => s') w).
Proof.
  intros Hs Hsend. apply session_update_socket. intros s0 Hs0.
  assert (s0 = s) as -> by congruence. by eapply ws_send_url.
Qed.

Lemma send_on_session ws data w c :
  send_on ws data w = c ->
  session_consistent w -> session_consistent (world_of c).
Proof.
  intros <-. unfold send_on. destruct (sockets w !! ws) as [s|] eqn:Hs; [|done].
  destruct (ws_send data s) as [s'|] eqn:Hsend; [|done]. simpl.
  by eapply session_sent.
Qed.

Lemma setup_session cap ws w :
  session_consistent w -> session_consistent (setupWebSocketHandlers cap ws w).
Proof. unfold setupWebSocketHandlers. crush_session. Qed.

#[local] Hint Resolve setup_session : session.

(** The reconnect callback connects to the cached session. *)
Lemma timeout_callback_session cap throws w :
  is_Some (sessionIdRef (refs w)) ->
  session_consistent w ->
  session_consistent (reconnectTimeoutCallback cap throws w).
Proof.
  intros [sid Hsid] Hinv. unfold reconnectTimeoutCallback.
  destruct (negb (isRecording cap)); [done|].
  destruct throws; [crush_session|]. cbv zeta. rewrite Hsid.
  destruct Hinv as (Hge & Hboth & Hsame & Hpend & Haddr).
  destruct (Hsame _ Hsid) as [_ [now ->]].
  assert (session_consistent w) by by split_and!.
  crush_session.
Qed.

Lemma cancel_session w :
  session_consistent w -> session_consistent (cancel_tracked w).
Proof.
  intros (Hge & Hboth & Hsame & Hpend & Haddr).
  destruct (cancel_frame w) as (Hst & _ & Hso & _ & Hs & Hp & Ha & Ht & _).
  unfold session_consistent. rewrite Hst, Hso, Hs, Hp, Ha, Ht.
  split_and!; try done.
  intros id delay cap. rewrite cancel_timers.
  case_bool_decide as Htracked; [done|].
  intros Hid. apply Hpend in Hid as [Hid _]. tauto.
Qed.

Lemma forget_session_consistent w :
  reconnectTimeoutRef (refs w) = None ->
  session_consistent w -> session_consistent (forget_session w).
Proof.
  intros Hnone (Hge & Hboth & Hsame & Hpend & Haddr).
  split_and!; try done.
  intros id delay cap Hid. apply Hpend in Hid as [Hid _]. simpl in *. congruence.
Qed.

Lemma stop_session w :
  session_consistent w -> session_consistent (world_of (stopRecording w)).
Proof.
  intros Hinv. rewrite stop_unfold.
  destruct (cancel_frame w) as (_ & _ & _ & _ & _ & _ & _ & Hnone & _).
  apply cancel_session in Hinv.
  destruct (wsRef (refs (cancel_tracked w))) as [ws|];
    [|simpl; by apply forget_session_consistent].
  pose proof (send_on_refs ws (JSON_stringify stop_frame) (cancel_tracked w)) as Hrefs.
  destruct (send_on _ _ _) as [v|v] eqn:Hsend;
    apply send_on_session in Hsend; try done; simpl in *.
  apply forget_session_consistent; [simpl; by rewrite Hrefs|].
  crush_session.
Qed.

Lemma start_unfold cap form now throws w :
  startRecording cap form now throws w =
    if throws then Thrown (begin_session form now w)
    else
      Normal (setupWebSocketHandlers cap (length (sockets w))
                (update_socket (length (sockets w)) (with_onopen (Some StartOnOpen))
                   (assign_wsRef (Some (length (sockets w)))
                      (new_WebSocket (ws_url (Some (session_id now)))
                         (begin_session form now w))))).
Proof. reflexivity. Qed.

Lemma begin_session_consistent form now w :
  session_consistent w -> session_consistent (begin_session form now w).
Proof.
  intros (Hge & Hboth & Hsame & Hpend & Haddr).
  split_and!; simpl; try done.
  - intros sid [= <-]. eauto.
  - intros id delay cap Hid. apply Hpend in Hid as [Hid _]. eauto.
Qed.

#[local] Hint Resolve begin_session_consistent : session.

Lemma start_session cap form now throws w :
  session_consistent w ->
  session_consistent (world_of (startRecording cap form now throws w)).
Proof. rewrite start_unfold. destruct throws; simpl; crush_session. Qed.

Lemma reconnect_onopen_session cap ws w :
  session_consistent w -> session_consistent (world_of (reconnect_onopen cap ws w)).
Proof.
  unfold reconnect_onopen. intros Hinv. cbv zeta.
  destruct (recordingParamsRef _); [|simpl; crush_session].
  destruct (send_on _ _ _) as [v|v] eqn:Hsend;
    apply send_on_session in Hsend; simpl world_of in *; crush_session.
Qed.

Lemma clear_session w :
  session_consistent w -> session_consistent (clearText w).
Proof.
  unfold clearText. intros Hinv. cbv zeta.
  destruct (wsRef _); [|crush_session].
  case_match; [|crush_session].
  eapply send_on_session; [reflexivity|]. crush_session.
Qed.

Lemma step_session ev w :
  session_consistent w -> session_consistent (step ev w).
Proof.
  intros Hinv. destruct ev; simpl.
  - unfold render, effect_setup, effect_cleanup. crush_session.
  - case_match; [done | by apply start_session].
  - case_match; [by apply stop_session | done].
  - case_match; [done | by apply clear_session].
  - case_match; [|done]. unfold handleVisibilityChange. crush_session.
  - destruct (timers w !! id) as [[delay [cap|cap]|period [cap ws|cap|cap]]|] eqn:Hid;
      simpl; try done.
    + apply timeout_callback_session; [|by apply session_clear].
      destruct Hinv as (_ & _ & _ & Hpend & _). by apply Hpend in Hid as [_ ?].
    + unfold closeRetryCallback. crush_session.
    + unfold keepalive. destruct (sockets w !! ws) as [s|] eqn:Hs; [|crush_session].
      case_match; [|crush_session].
      destruct (ws_send _ _) as [s'|] eqn:Hsend; [|crush_session].
      by eapply session_sent.
    + unfold connectionCheck. crush_session.
    + unfold pollSessionStatus. crush_session.
  - case_match; [|done]. unfold dispatch_open.
    case_match; [|done]. cbv zeta.
    destruct (onopen _) as [[|cap]|].
    + unfold start_onopen. eapply send_on_session; [reflexivity|]. crush_session.
    + apply reconnect_onopen_session. crush_session.
    + crush_session.
  - case_match; [|done]. unfold dispatch_message.
    case_match; [|done]. unfold onmessage_handler. crush_session.
  - case_match; [|done].
    unfold dispatch_error, reconnect_onerror, setup_onerror. crush_session.
  - case_match; [|done].
    unfold dispatch_close, reconnect_onclose, setup_onclose. crush_session.
  - case_match; [|done]. unfold dispatch_closing. crush_session.
Qed.

Lemma initial_session : session_consistent initial_world.
Proof.
  split_and!; try done.
  intros id delay cap. vm_compute. intros Hid.
  repeat (destruct id as [id|id|]; try discriminate).
Qed.

Lemma run_session evs w :
  session_consistent w -> session_consistent (run evs w).
Proof.
  revert w. induction evs as [|ev evs IH]; intros w Hinv; [done|].
  simpl. apply IH. by apply step_session.
Qed.

Lemma session_address_not_null now : ws_url (Some (session_id now)) <> ws_url None.
Proof.
  unfold ws_url, session_id. intros Heq.
  apply (inj (String.app _)) in Heq. discriminate.
Qed.



(** ** An outage, end to end *)

Lemma run_cons ev evs w : run (ev :: evs) w = run evs (step ev w).
Proof. reflexivity. Qed.

Lemma reconnect_next_timer cap w :
  reconnect_refused cap w = false ->
  next_timer (reconnectWebSocket cap w) = Pos.succ (next_timer w).
Proof.
  intros Hgo. unfold reconnectWebSocket. rewrite Hgo. cbv zeta.
  by destruct (reconnectTimeoutRef (refs w)).
Qed.

Lemma sweep_fires sweep period cap env w :
  timers w !! sweep = Some (Interval period (ConnectionCheck cap)) ->
  isRecording cap = true ->
  not_open w = true ->
  step (TimerFires sweep env) w = reconnectWebSocket cap w.
Proof.
  intros Hsweep Hactive Hlost. simpl. rewrite Hsweep. simpl.
  unfold connectionCheck. by rewrite Hactive, Hlost.
Qed.

Lemma reconnect_fires id delay cap env w :
  timers w !! id = Some (Timeout delay (ReconnectCallback cap)) ->
  isRecording cap = true ->
  constructor_throws env = false ->
  refs (step (TimerFires id env) w)
    = refs (assign_wsRef (Some (length (sockets w))) w)
  /\ timers (step (TimerFires id env) w) = delete id (timers w)
  /\ next_timer (step (TimerFires id env) w) = next_timer w
  /\ sockets (step (TimerFires id env) w)
       = (sockets w ++ [reconnecting_socket cap (ws_url (sessionIdRef (refs w)))])%list.
Proof.
  intros Hid Hactive Hctor. simpl. rewrite Hid. simpl.
  unfold reconnectTimeoutCallback. rewrite Hactive, Hctor. simpl.
  split_and!; try done.
  rewrite <- (Nat.add_0_r (length (sockets w))).
  by rewrite alter_app_r.
Qed.

Lemma reconnect_opens cap ws s p w :
  sockets w !! ws = Some s ->
  readyState s = CONNECTING ->
  onopen s = Some (ReconnectOnOpen cap) ->
  recordingParamsRef (refs w) = Some p ->
  step (SocketOpen ws) w =
    setupWebSocketHandlers cap ws
      (update_socket ws
         (fun _ => with_sent (sent s ++ [JSON_stringify (replayed_params p)])
                     (with_readyState OPEN s))
         (assign_reconnectAttemptsRef 0
            (update_socket ws (with_readyState OPEN) w))).
Proof.
  intros Hs Hstate Honopen Hp. simpl. rewrite Hs.
  unfold dispatch_open. rewrite Hstate, Honopen. simpl bool_decide. cbv iota zeta.
  unfold reconnect_onopen. cbv zeta. simpl recordingParamsRef. rewrite Hp.
  unfold send_on. simpl sockets. rewrite list_lookup_alter_eq, Hs. simpl.
  reflexivity.
Qed.

Lemma setup_result cap ws w :
  timers (setupWebSocketHandlers cap ws w) !! next_timer w
    = Some (Interval 10000 (KeepaliveTick cap ws))
  /\ pingIntervalRef (refs (setupWebSocketHandlers cap ws w)) = Some (next_timer w)
  /\ wsRef (refs (setupWebSocketHandlers cap ws w)) = wsRef (refs w)
  /\ reconnectAttemptsRef (refs (setupWebSocketHandlers cap ws w))
       = reconnectAttemptsRef (refs w)
  /\ sockets (setupWebSocketHandlers cap ws w)
       = alter (with_handlers (Some (SetupOnError cap)) (Some (SetupOnClose cap)))
           ws (sockets w).
Proof.
  unfold setupWebSocketHandlers. cbv zeta.
  destruct (pingIntervalRef (refs w)); simpl;
    split_and!; try done; apply lookup_insert_eq.
Qed.

(** X14. An outage is repaired in three events.  Let the sweep be running
    for an active capture, the current socket not open and the session
    cached.  After the sweep ticks, the reconnect timeout it armed fires
    and the new socket opens, that socket is the current one, it is open at
    the address of the cached session with the handlers of
    [setupWebSocketHandlers], the rebuilt parameters are the only frame
    sent on it, the attempt counter is back at 0, the reconnect timeout is
    spent and the keepalive runs for the new socket. *)
Theorem outage_is_repaired
    (sweep : TimerId) (period : Z) (cap : TranscriptionState) (env env' : Env)
    (p : JValue) (w : World) :
  timers w !! sweep = Some (Interval period (ConnectionCheck cap)) ->
  isRecording cap = true ->
  not_open w = true ->
  reconnect_refused cap w = false ->
  recordingParamsRef (refs w) = Some p ->
  constructor_throws env' = false ->
  wsRef (refs (run (repair sweep env env' w) w)) = Some (length (sockets w))
  /\ sockets (run (repair sweep env env' w) w) !! length (sockets w)
       = Some {| url := ws_url (sessionIdRef (refs w)); readyState := OPEN;
                 onopen := Some (ReconnectOnOpen cap); onmessage := true;
                 onerror := Some (SetupOnError cap);
                 onclose := Some (SetupOnClose cap);
                 sent := [JSON_stringify (replayed_params p)] |}
  /\ reconnectAttemptsRef (refs (run (repair sweep env env' w) w)) = 0
  /\ timers (run (repair sweep env env' w) w) !! next_timer w = None
  /\ pingIntervalRef (refs (run (repair sweep env env' w) w))
       = Some (Pos.succ (next_timer w))
  /\ timers (run (repair sweep env env' w) w) !! Pos.succ (next_timer w)
       = Some (Interval 10000 (KeepaliveTick cap (length (sockets w)))).
Proof.
  intros Hsweep Hactive Hlost Hgo Hp Hctor.
  unfold repair. rewrite !run_cons.
  rewrite (sweep_fires _ _ _ _ _ Hsweep Hactive Hlost).
  destruct (reconnect_frame cap w) as (_ & _ & Hso & _ & _ & _ & _ & Hsid & Hpar & _).
  pose proof (reconnect_next_timer cap w Hgo) as Hnext.
  assert (timers (reconnectWebSocket cap w) !! next_timer w
          = Some (Timeout (reconnect_delay (reconnectAttemptsRef (refs w)))
                    (ReconnectCallback cap))) as Harmed.
  { rewrite reconnect_timers by done. apply lookup_insert_eq. }
  destruct (reconnect_fires _ _ _ env' _ Harmed Hactive Hctor)
    as (Hrefs2 & Htimers2 & Hnext2 & Hsockets2).
  rewrite Hso, Hsid in Hsockets2. rewrite Hso in Hrefs2. rewrite Hnext in Hnext2.
  set (w2 := step (TimerFires (next_timer w) env') (reconnectWebSocket cap w)) in *.
  clearbody w2.
  assert (sockets w2 !! length (sockets w)
          = Some (reconnecting_socket cap (ws_url (sessionIdRef (refs w))))) as Hnew.
  { rewrite Hsockets2. by apply list_lookup_middle. }
  assert (recordingParamsRef (refs w2) = Some p) as Hp2.
  { rewrite Hrefs2. simpl. by rewrite Hpar. }
  change (run [] ?x) with x.
  rewrite (reconnect_opens cap _ _ p _ Hnew eq_refl eq_refl Hp2).
  match goal with
  | |- context [setupWebSocketHandlers cap ?ws ?v] =>
      destruct (setup_result cap ws v) as (Hkeep & Hping & Hws & Hcount & Hsock)
  end.
  rewrite Hws, Hcount, Hping, Hsock. simpl next_timer in *. rewrite Hnext2 in *.
  split_and!.
  - simpl. by rewrite Hrefs2.
  - simpl. rewrite !list_lookup_alter_eq, Hnew. reflexivity.
  - reflexivity.
  - unfold setupWebSocketHandlers. cbv zeta. simpl.
    assert (timers w2 !! next_timer w = None) as Hspent.
    { rewrite Htimers2. apply lookup_delete_eq. }
    destruct (pingIntervalRef (refs w2)) as [old|]; simpl;
      rewrite Hnext2, lookup_insert_ne by lia;
      [rewrite lookup_delete_None; by right | done].
  - reflexivity.
  - exact Hkeep.
Qed.

Lemma outage_is_repaired_witness :
  reconnectAttemptsRef
    (refs (run (repair 4%positive quiet quiet cleared_offline) cleared_offline)) = 0
  /\ pingIntervalRef
       (refs (run (repair 4%positive quiet quiet cleared_offline) cleared_offline))
     = Some (Pos.succ (next_timer cleared_offline)).
Proof.
  destruct (outage_is_repaired 4%positive 3000 live_capture quiet quiet
              (params_of sample_form) cleared_offline)
    as (_ & _ & Hcount & _ & Hping & _); try (vm_compute; reflexivity).
  exact (conj Hcount Hping).
Defined.

(** ** The platform default *)

Lemma app_cons c s t : (String c s ++ t)%string = String c (s ++ t).
Proof. reflexivity. Qed.

Lemma prefix_cons c needle d hay :
  String.prefix (String c needle) (String d hay)
    = if Ascii.ascii_dec c d then String.prefix needle hay else false.
Proof. reflexivity. Qed.

Lemma prefix_spec needle hay :
  String.prefix needle hay = true <-> exists post, hay = (needle ++ post)%string.
Proof.
  revert hay. induction needle as [|c needle IH]; intros hay.
  - split; [intros _; by exists hay | by destruct hay].
  - destruct hay as [|d hay].
    + split; [done | intros [post Hpost]; by rewrite app_cons in Hpost].
    + rewrite prefix_cons. destruct (Ascii.ascii_dec c d) as [<-|Hne].
      * rewrite IH. split; intros [post Hpost]; exists post.
        -- by rewrite app_cons, Hpost.
        -- rewrite app_cons in Hpost. by simplify_eq.
      * split; [done|]. intros [post Hpost]. rewrite app_cons in Hpost.
        by simplify_eq.
Qed.

(** [includes] is the substring test. *)
Lemma includes_spec needle hay :
  includes needle hay = true
  <-> exists pre post, hay = (pre ++ needle ++ post)%string.
Proof.
  induction hay as [|d hay IH].
  - change (includes needle EmptyString)
      with (String.prefix needle EmptyString || false).
    rewrite orb_false_r, prefix_spec. split.
    + intros [post Hpost]. by exists EmptyString, post.
    + intros (pre & post & Hhay). destruct pre as [|c pre];
        [by exists post | by rewrite app_cons in Hhay].
  - change (includes needle (String d hay))
      with (String.prefix needle (String d hay) || includes needle hay).
    rewrite orb_true_iff, prefix_spec, IH. split.
    + intros [[post Hpost]|(pre & post & Hhay)].
      * by exists EmptyString, post.
      * exists (String d pre), post. by rewrite app_cons, Hhay.
    + intros (pre & post & Hhay). destruct pre as [|c pre].
      * left. by exists post.
      * right. rewrite app_cons in Hhay. simplify_eq. by exists pre, post.
Qed.

Lemma app_assoc_string (a b c : string) : ((a ++ b) ++ c = a ++ (b ++ c))%string.
Proof.
  induction a as [|x a IH]; [done|]. by rewrite !app_cons, IH.
Qed.

Lemma darwin_includes_win platform :
  includes "darwin" platform = true -> includes "win" platform = true.
Proof.
  rewrite !includes_spec. intros (pre & post & ->).
  exists (pre ++ "dar")%string, post.
  by rewrite app_assoc_string.
Qed.

(** X15. [getDefaultRecognizerType] tests for a substring, and the order of
    its tests decides: a platform text that contains darwin also contains
    win, and is still given macos.  The answer is windows exactly when win
    occurs and neither mac nor darwin does, google exactly when neither
    mac nor win occurs, and there is no fourth answer. *)
Theorem darwin_is_not_windows (platform : string) :
  (forall pre post, platform = (pre ++ "darwin" ++ post)%string ->
     includes "win" platform = true
     /\ getDefaultRecognizerType platform = "macos")
  /\ (getDefaultRecognizerType platform = "windows"
      <-> includes "win" platform = true /\ includes "mac" platform = false
          /\ includes "darwin" platform = false)
  /\ (getDefaultRecognizerType platform = "google"
      <-> includes "win" platform = false /\ includes "mac" platform = false)
  /\ (getDefaultRecognizerType platform = "macos"
      \/ getDefaultRecognizerType platform = "windows"
      \/ getDefaultRecognizerType platform = "google").
Proof.
  pose proof (darwin_includes_win platform) as Hdarwin.
  unfold getDefaultRecognizerType. split_and!.
  - intros pre post Hplatform.
    assert (includes "darwin" platform = true) as Hin
      by (apply includes_spec; eauto).
    rewrite Hin, orb_true_r. auto.
  - destruct (includes "mac" platform), (includes "darwin" platform),
      (includes "win" platform); simpl; split; try done;
      intros (? & ? & ?); done.
  - destruct (includes "mac" platform), (includes "darwin" platform),
      (includes "win" platform); simpl; split; try done;
      try (intros [? ?]; done).
    by specialize (Hdarwin eq_refl).
  - destruct (includes "mac" platform), (includes "darwin" platform),
      (includes "win" platform); simpl; auto.
Qed.

Lemma darwin_is_not_windows_witness :
  includes "win" "darwin x86_64" = true
  /\ getDefaultRecognizerType "darwin x86_64" = "macos".
Proof.
  destruct (darwin_is_not_windows "darwin x86_64") as (Hdarwin & _).
  exact (Hdarwin EmptyString " x86_64" eq_refl).
Defined.

(** ** Saving and clearing the transcript *)

Lemma occurrences_app c s t :
  occurrences c (s ++ t) = (occurrences c s + occurrences c t)%nat.
Proof.
  induction s as [|d s IH]; [done|].
  rewrite app_cons. simpl. rewrite IH. lia.
Qed.

Lemma length_app_string s t :
  String.length (s ++ t) = (String.length s + String.length t)%nat.
Proof.
  induction s as [|d s IH]; [done|]. rewrite app_cons. simpl. by rewrite IH.
Qed.

Lemma replaced_is_clean s :
  occurrences colon (replace_colon_dot s) = 0%nat
  /\ occurrences full_stop (replace_colon_dot s) = 0%nat
  /\ String.length (replace_colon_dot s) = String.length s.
Proof.
  induction s as [|c s (IHc & IHd & IHl)]; [done|]. simpl.
  rewrite IHc, IHd, IHl. split_and!; try done.
  - destruct (Ascii.eqb_spec c colon) as [->|Hc]; [done|].
    destruct (Ascii.eqb_spec c full_stop) as [->|Hd]; [done|]. simpl.
    by destruct (Ascii.eqb_spec c colon).
  - destruct (Ascii.eqb_spec c colon) as [->|Hc]; [done|].
    destruct (Ascii.eqb_spec c full_stop) as [->|Hd]; [done|]. simpl.
    by destruct (Ascii.eqb_spec c full_stop).
Qed.

(** X16. The name given to a downloaded transcript has no colon and one
    full stop only, the one of its extension, whatever the clock text is;
    it starts with the prefix of the template and is fifteen characters
    longer than the clock text.  The replacement keeps a text that has
    neither a colon nor a full stop, and replacing twice is replacing
    once. *)
Theorem download_name_is_portable (iso : string) :
  occurrences colon (download_name iso) = 0%nat
  /\ occurrences full_stop (download_name iso) = 1%nat
  /\ String.length (download_name iso) = (15 + String.length iso)%nat
  /\ String.prefix "transcript_" (download_name iso) = true
  /\ (occurrences colon iso = 0%nat -> occurrences full_stop iso = 0%nat ->
      replace_colon_dot iso = iso)
  /\ replace_colon_dot (replace_colon_dot iso) = replace_colon_dot iso.
Proof.
  destruct (replaced_is_clean iso) as (Hc & Hd & Hl).
  assert (forall s, occurrences colon s = 0%nat -> occurrences full_stop s = 0%nat ->
                    replace_colon_dot s = s) as Hkeep.
  { induction s as [|c s IH]; [done|]. simpl.
    destruct (Ascii.eqb_spec c colon) as [->|Hcolon]; [done|].
    destruct (Ascii.eqb_spec c full_stop) as [->|Hstop]; [done|]. simpl.
    intros Hs Ht. by rewrite IH. }
  unfold download_name. split_and!.
  - rewrite !occurrences_app, Hc. reflexivity.
  - rewrite !occurrences_app, Hd. reflexivity.
  - rewrite !length_app_string, Hl. simpl. lia.
  - apply prefix_spec. eauto.
  - apply Hkeep.
  - by apply Hkeep.
Qed.

Lemma download_name_is_portable_witness :
  replace_colon_dot "2024-05-01T10-20-30-123Z" = "2024-05-01T10-20-30-123Z".
Proof.
  destruct (download_name_is_portable "2024-05-01T10-20-30-123Z")
    as (_ & _ & _ & _ & Hkeep & _).
  apply Hkeep; reflexivity.
Defined.

Ltac absent :=
  let Hin := fresh "Hin" in
  rewrite ?elem_of_cons, elem_of_nil; intros Hin;
  repeat (destruct Hin as [Hin|Hin]; [discriminate|]); done.



Lemma send_on_state ws data w :
  state (world_of (send_on ws data w)) = state w.
Proof. by destruct (send_on_world ws data w) as [->|[s' ->]]. Qed.

Lemma clear_state w :
  state (clearText w)
    = {| isRecording := isRecording (state w); text := EmptyString;
         translatedText := EmptyString; error := error (state w);
         sessionId := sessionId (state w) |}.
Proof.
  unfold clearText. cbv zeta.
  destruct (wsRef _); [|done]. case_match; [|done].
  by rewrite send_on_state.
Qed.

Lemma prefix_app s t : String.prefix s (s ++ t) = true.
Proof. apply prefix_spec. eauto. Qed.

Lemma prefix_same s : String.prefix s s = true.
Proof.
  induction s as [|c s IH]; [done|]. rewrite prefix_cons.
  by destruct (Ascii.ascii_dec c c).
Qed.

Lemma rule_nonempty s t : truthy (Some (s ++ translation_rule ++ t)%string) = true.
Proof. by destruct s. Qed.

(** X18. The clear button, enabled.  An original text is always offered to
    the clipboard before it is erased, as the head of what is copied; the
    translation follows it, after the rule, when translation is switched
    on and there is one.  Nothing is copied exactly when there is no
    original text and translation is switched off, and then the
    translation shown is erased uncopied.  The erasure does not depend on
    the clipboard accepting: both texts are empty afterwards either way. *)
Theorem clear_copies_first
    (translating accepted : bool) (w : World) :
  clear_enabled (rendered w) = true ->
  step ClickClear w = clearText w
  /\ text (state (step ClickClear w)) = EmptyString
  /\ translatedText (state (step ClickClear w)) = EmptyString
  /\ (text (rendered w) <> EmptyString ->
      head (copy_before_clear translating (rendered w) accepted)
        = Some (ClipboardWrite (textToCopy translating (rendered w)))
      /\ String.prefix (text (rendered w)) (textToCopy translating (rendered w))
         = true)
  /\ (translating = true -> translatedText (rendered w) <> EmptyString ->
      head (copy_before_clear translating (rendered w) accepted)
        = Some (ClipboardWrite
                  (text (rendered w) ++ translation_rule
                     ++ translatedText (rendered w))))
  /\ (copy_before_clear translating (rendered w) accepted = []
      <-> text (rendered w) = EmptyString /\ translating = false).
Proof.
  unfold clear_enabled. intros Henabled.
  assert (step ClickClear w = clearText w) as Hstep.
  { unfold step. apply negb_true_iff in Henabled. by rewrite Henabled. }
  rewrite Hstep, clear_state. simpl.
  unfold copy_before_clear, textToCopy.
  split_and!; try done.
  - intros Htext. destruct (text (rendered w)) as [|c rest] eqn:Ht; [done|].
    destruct translating, (translatedText (rendered w)) as [|d more]; simpl;
      rewrite ?rule_nonempty.
    all: split; [done|]; destruct (Ascii.ascii_dec c c); [|done];
      first [apply prefix_same | apply prefix_app].
  - intros -> Htr. destruct (translatedText (rendered w)) as [|d more]; [done|].
    change (true && truthy (Some (String d more))) with true. cbv iota.
    by rewrite rule_nonempty.
  - destruct (text (rendered w)) as [|c rest] eqn:Ht,
      (translatedText (rendered w)) as [|d more] eqn:Htr; try done;
      destruct translating; simpl; try rewrite rule_nonempty;
      split; try done; try (intros [? ?]; done).
Qed.

Lemma clear_copies_first_witness :
  copy_before_clear false (rendered (set_rendered translation_only initial_world)) true
    = [].
Proof.
  destruct (clear_copies_first false true
              (set_rendered translation_only initial_world))
    as (_ & _ & _ & _ & _ & Hnone); [reflexivity|].
  apply Hnone. split; reflexivity.
Defined.

(** ** Starting *)

Lemma start_normal cap form now w :
  startRecording cap form now false w =
    Normal (setupWebSocketHandlers cap (length (sockets w))
              (update_socket (length (sockets w)) (with_onopen (Some StartOnOpen))
                 (assign_wsRef (Some (length (sockets w)))
                    (new_WebSocket (ws_url (Some (session_id now)))
                       (begin_session form now w))))).
Proof. reflexivity. Qed.

Lemma start_sockets cap form now w :
  sockets (world_of (startRecording cap form now false w))
    = (sockets w ++ [first_socket cap now])%list.
Proof.
  rewrite start_normal. simpl world_of.
  match goal with
  | |- context [setupWebSocketHandlers cap ?ws ?v] =>
      destruct (setup_result cap ws v) as (_ & _ & _ & _ & ->)
  end.
  simpl. rewrite <- (Nat.add_0_r (length (sockets w))).
  by rewrite !alter_app_r.
Qed.

Lemma start_timers cap form now w id :
  timers (world_of (startRecording cap form now false w)) !! id =
    if decide (id = next_timer w)
    then Some (Interval 10000 (KeepaliveTick cap (length (sockets w))))
    else if decide (pingIntervalRef (refs w) = Some id) then None
    else timers w !! id.
Proof.
  rewrite start_normal. unfold setupWebSocketHandlers. cbv zeta. simpl.
  destruct (pingIntervalRef (refs w)) as [old|]; simpl.
  - destruct (decide (id = next_timer w)) as [->|Hne].
    + apply lookup_insert_eq.
    + rewrite lookup_insert_ne by done.
      destruct (decide (Some old = Some id)) as [[= ->]|Hold].
      * apply lookup_delete_eq.
      * apply lookup_delete_ne. congruence.
  - destruct (decide (id = next_timer w)) as [->|Hne].
    + apply lookup_insert_eq.
    + by rewrite lookup_insert_ne by done.
Qed.

Lemma start_refs cap form now w :
  refs (world_of (startRecording cap form now false w))
    = {| wsRef := Some (length (sockets w));
         reconnectTimeoutRef := reconnectTimeoutRef (refs w);
         reconnectAttemptsRef := 0;
         pingIntervalRef := Some (next_timer w);
         sessionIdRef := Some (session_id now);
         recordingParamsRef := Some (params_of form);
         statusPollIntervalRef := statusPollIntervalRef (refs w) |}.
Proof.
  rewrite start_normal. unfold setupWebSocketHandlers. cbv zeta. simpl.
  by destruct (pingIntervalRef (refs w)).
Qed.

Lemma start_state cap form now throws w :
  state (world_of (startRecording cap form now throws w)) = fresh_state now.
Proof.
  rewrite start_unfold. destruct throws; [done|].
  unfold setupWebSocketHandlers. cbv zeta. simpl.
  by destruct (pingIntervalRef (refs w)).
Qed.

(** X19. What [startRecording] leaves.  The transcript, the translation and
    the error are reset and the state names the new session; the id, the
    parameters and a counter of 0 are cached.  If the constructor returns,
    a connecting socket at the session's address is appended and becomes
    the current one, the keepalive is re-armed for it and the keepalive of
    before is cancelled; no other timer is touched, so a timeout that was
    pending stays pending, and no socket of before is closed.  If the
    constructor raises, the state and the cache are already those of the
    new session while sockets, timers and the current socket are those of
    before. *)
Theorem start_outcome
    (cap : TranscriptionState) (form : FormValues) (now : Z) (w : World) :
  (exists w',
     startRecording cap form now false w = Normal w'
     /\ state w' = fresh_state now
     /\ refs w'
          = {| wsRef := Some (length (sockets w));
               reconnectTimeoutRef := reconnectTimeoutRef (refs w);
               reconnectAttemptsRef := 0;
               pingIntervalRef := Some (next_timer w);
               sessionIdRef := Some (session_id now);
               recordingParamsRef := Some (params_of form);
               statusPollIntervalRef := statusPollIntervalRef (refs w) |}
     /\ sockets w' = (sockets w ++ [first_socket cap now])%list
     /\ timers w' !! next_timer w
          = Some (Interval 10000 (KeepaliveTick cap (length (sockets w))))
     /\ (forall id, id <> next_timer w -> pingIntervalRef (refs w) = Some id ->
           timers w' !! id = None)
     /\ (forall id, id <> next_timer w -> pingIntervalRef (refs w) <> Some id ->
           timers w' !! id = timers w !! id))
  /\ (exists w',
        startRecording cap form now true w = Thrown w'
        /\ state w' = fresh_state now
        /\ sessionIdRef (refs w') = Some (session_id now)
        /\ recordingParamsRef (refs w') = Some (params_of form)
        /\ reconnectAttemptsRef (refs w') = 0
        /\ wsRef (refs w') = wsRef (refs w)
        /\ sockets w' = sockets w
        /\ timers w' = timers w).
Proof.
  split.
  - exists (world_of (startRecording cap form now false w)).
    split_and!.
    + by rewrite start_normal.
    + apply start_state.
    + apply start_refs.
    + apply start_sockets.
    + rewrite start_timers. by rewrite decide_True.
    + intros id Hne Hold. rewrite start_timers.
      rewrite decide_False by done. by rewrite decide_True.
    + intros id Hne Hold. rewrite start_timers.
      rewrite decide_False by done. by rewrite decide_False.
  - exists (begin_session form now w). by split_and!.
Qed.

Lemma click_start form now throws w :
  isRecording (rendered w) = false ->
  step (ClickStart form now throws) w
    = world_of (startRecording (rendered w) form now throws w).
Proof. unfold step. by intros ->. Qed.

Lemma stale_handlers_are_inert cap ws id period s code env w :
  isRecording cap = false ->
  sockets w !! ws = Some s ->
  readyState s = CONNECTING ->
  onerror s = Some (SetupOnError cap) ->
  onclose s = Some (SetupOnClose cap) ->
  timers w !! id = Some (Interval period (KeepaliveTick cap ws)) ->
  step (SocketError ws) w = w
  /\ step (SocketClose ws code) w = update_socket ws (with_readyState CLOSED) w
  /\ step (TimerFires id env) (update_socket ws (with_readyState CLOSED) w)
       = update_socket ws (with_readyState CLOSED) w.
Proof.
  intros Hidle Hs Hstate Herror Hclose Hid. split_and!.
  - unfold step. rewrite Hs. unfold dispatch_error.
    rewrite Hstate, Herror. unfold setup_onerror. by rewrite Hidle.
  - unfold step. rewrite Hs. unfold dispatch_close.
    rewrite Hstate, Hclose. unfold setup_onclose. by rewrite Hidle.
  - unfold step.
    change (timers (update_socket ws (with_readyState CLOSED) w)) with (timers w).
    rewrite Hid. unfold run_interval, keepalive.
    change (sockets (update_socket ws (with_readyState CLOSED) w))
      with (alter (with_readyState CLOSED) ws (sockets w)).
    rewrite list_lookup_alter_eq, Hs. simpl. by rewrite Hidle.
Qed.

(** X20. The handlers of a session's first socket do not reconnect.  The
    start button is enabled only while the rendered state is inactive, and
    that state is what [onerror], [onclose] and the keepalive installed by
    [startRecording] capture.  So on the first socket an error event
    changes nothing, a close event only marks the socket closed and arms no
    timer, and a tick of the keepalive on the closed socket changes
    nothing, although the state says recording. *)
Theorem first_socket_handlers_are_inert
    (form : FormValues) (now : Z) (code : Z) (env : Env) (w : World) :
  isRecording (rendered w) = false ->
  isRecording (state (step (ClickStart form now false) w)) = true
  /\ wsRef (refs (step (ClickStart form now false) w)) = Some (length (sockets w))
  /\ step (SocketError (length (sockets w))) (step (ClickStart form now false) w)
       = step (ClickStart form now false) w
  /\ step (SocketClose (length (sockets w)) code) (step (ClickStart form now false) w)
       = update_socket (length (sockets w)) (with_readyState CLOSED)
           (step (ClickStart form now false) w)
  /\ step (TimerFires (next_timer w) env)
       (step (SocketClose (length (sockets w)) code)
          (step (ClickStart form now false) w))
       = step (SocketClose (length (sockets w)) code)
           (step (ClickStart form now false) w).
Proof.
  intros Hidle. rewrite (click_start _ _ _ _ Hidle).
  pose proof (start_sockets (rendered w) form now w) as Hsockets.
  pose proof (start_timers (rendered w) form now w (next_timer w)) as Hkeep.
  rewrite decide_True in Hkeep by done.
  assert (sockets (world_of (startRecording (rendered w) form now false w))
            !! length (sockets w) = Some (first_socket (rendered w) now)) as Hfirst.
  { rewrite Hsockets. by apply list_lookup_middle. }
  destruct (stale_handlers_are_inert (rendered w) (length (sockets w))
              (next_timer w) 10000 (first_socket (rendered w) now) code env
              (world_of (startRecording (rendered w) form now false w))
              Hidle Hfirst eq_refl eq_refl eq_refl Hkeep)
    as (Herror & Hclose & Htick).
  split_and!.
  - by rewrite start_state.
  - by rewrite start_refs.
  - exact Herror.
  - exact Hclose.
  - rewrite Hclose. exact Htick.
Qed.

Lemma first_socket_handlers_are_inert_witness :
  step (SocketError (length (sockets initial_world)))
    (step (ClickStart sample_form 1700 false) initial_world)
    = step (ClickStart sample_form 1700 false) initial_world.
Proof.
  destruct (first_socket_handlers_are_inert sample_form 1700 1006 quiet initial_world)
    as (_ & _ & Herror & _); [reflexivity|].
  exact Herror.
Defined.

Lemma start_outcome_witness :
  exists w',
    startRecording initial_state sample_form 1700 false initial_world = Normal w'
    /\ timers w' !! 1%positive = timers initial_world !! 1%positive.
Proof.
  destruct (start_outcome initial_state sample_form 1700 initial_world)
    as [(w' & Hrun & _ & _ & _ & _ & _ & Hkept) _].
  exists w'. split; [exact Hrun|].
  apply Hkept; by vm_compute.
Defined.

(** ** Stopping, in a reachable state *)

Lemma stop_timers w :
  timers (world_of (stopRecording w)) = timers (cancel_tracked w).
Proof.
  rewrite stop_unfold.
  destruct (wsRef (refs (cancel_tracked w))) as [ws|]; [|done].
  destruct (send_on_world ws (JSON_stringify stop_frame) (cancel_tracked w))
    as [Hsame|[s' Hsent]];
    destruct (send_on _ _ _); simpl in *; by subst.
Qed.

Lemma stop_sweep w :
  connectionCheckInterval (world_of (stopRecording w)) = connectionCheckInterval w.
Proof.
  assert (connectionCheckInterval (cancel_tracked w) = connectionCheckInterval w)
    as Hcancel by (unfold cancel_tracked; by repeat case_match).
  rewrite stop_unfold.
  destruct (wsRef (refs (cancel_tracked w))) as [ws|]; [|done].
  destruct (send_on_world ws (JSON_stringify stop_frame) (cancel_tracked w))
    as [Hsame|[s' Hsent]];
    destruct (send_on _ _ _); simpl in *; by subst.
Qed.

(** X21. Stopping in any state the component can reach.  Whether
    [stopRecording] completes or raises at the send, afterwards no
    keepalive, no status poller and no reconnect timeout is pending: what
    is left is the connection sweep, under its handle, and retries armed by
    a close handler.  When it completes, the current socket, the cached
    session id and parameters and the three timer refs are null. *)
Theorem stop_leaves_sweep_only (evs : list Event) :
  (forall id t,
     timers (world_of (stopRecording (run evs initial_world))) !! id = Some t ->
     (exists cap,
        t = Interval 3000 (ConnectionCheck cap)
        /\ connectionCheckInterval (world_of (stopRecording (run evs initial_world)))
             = Some id)
     \/ (exists delay cap, t = Timeout delay (CloseRetryCallback cap)))
  /\ (forall w', stopRecording (run evs initial_world) = Normal w' ->
        refs w' = {| wsRef := None; reconnectTimeoutRef := None;
                     reconnectAttemptsRef
                       := reconnectAttemptsRef (refs (run evs initial_world));
                     pingIntervalRef := None; sessionIdRef := None;
                     recordingParamsRef := None; statusPollIntervalRef := None |}).
Proof.
  pose proof (run_tracked evs _ initial_tracked) as [Hint _].
  pose proof (run_pending evs _ initial_pending) as Hone.
  set (w := run evs initial_world) in *. clearbody w.
  split.
  - intros id t. rewrite stop_timers, stop_sweep, cancel_timers.
    case_bool_decide as Htracked; [done|]. intros Hid.
    destruct t as [delay [cap|cap]|period callback].
    + apply Hone in Hid as [Hid _]. tauto.
    + right. eauto.
    + apply Hint in Hid. destruct callback as [cap ws|cap|cap]; simpl in Hid.
      * tauto.
      * left. exists cap. destruct Hid as (Hid & -> & _). done.
      * tauto.
  - intros w' Hstop. rewrite stop_unfold in Hstop.
    destruct (cancel_frame w) as (_ & _ & _ & Hws & Hsid & Hp & Ha & Ht & Hpi & Hpo).
    destruct (wsRef (refs (cancel_tracked w))) as [ws|] eqn:Hcur.
    + pose proof (send_on_refs ws (JSON_stringify stop_frame) (cancel_tracked w))
        as Hrefs.
      destruct (send_on _ _ _) as [v|v]; [|done].
      injection Hstop as <-. simpl in *. by rewrite Hrefs, Ha, Ht, Hpi, Hpo.
    + injection Hstop as <-. simpl. by rewrite Hcur, Ha, Ht, Hpi, Hpo.
Qed.

Lemma stop_leaves_sweep_only_witness :
  exists w',
    stopRecording (run start_then_render initial_world) = Thrown w'
    /\ connectionCheckInterval (world_of (stopRecording
                                            (run start_then_render initial_world)))
         = Some 4%positive.
Proof.
  destruct (stop_leaves_sweep_only start_then_render) as [Hleft _].
  eexists. split; [vm_compute; reflexivity|].
  destruct (Hleft 4%positive (Interval 3000 (ConnectionCheck live_capture)))
    as [(cap & _ & Hsweep)|(delay & cap & Hno)];
    [vm_compute; reflexivity | exact Hsweep | discriminate Hno].
Defined.

(** ** Rendering again *)

Lemma effect_frame cap w :
  state (effect_setup cap (effect_cleanup w)) = state w
  /\ rendered (effect_setup cap (effect_cleanup w)) = rendered w.
Proof.
  destruct (cleanup_frame w) as (_ & Hrendered & Hstate & _).
  by rewrite <- Hstate, <- Hrendered.
Qed.

Lemma render_fixed w : rendered w = state w -> render w = w.
Proof.
  destruct w as [current previous r t n s l c]. simpl. intros ->.
  unfold render. simpl. by rewrite Bool.eqb_reflx.
Qed.

(** X22. Rendering is idempotent: a render that follows a render without
    a state change in between re-runs no effect and changes nothing,
    whatever the first one did.  After a render the rendered state is the
    current state; the render leaves the state and the sockets as they
    were; and when the recording flag is the one of the previous render it
    does nothing but commit the state. *)
Theorem render_is_idempotent (w : World) :
  render (render w) = render w
  /\ rendered (render w) = state w
  /\ state (render w) = state w
  /\ sockets (render w) = sockets w
  /\ (isRecording (rendered w) = isRecording (state w) ->
      render w = set_rendered (state w) w).
Proof.
  assert (rendered (render w) = state w /\ state (render w) = state w) as [Hr Hs].
  { unfold render. cbv zeta. simpl state. case_match; [done|].
    destruct (effect_frame (state w) (set_rendered (state w) w)) as [-> ->].
    done. }
  split_and!; try done.
  - apply render_fixed. congruence.
  - unfold render. cbv zeta. simpl state. case_match; [done|].
    destruct (cleanup_frame (set_rendered (state w) w)) as (_ & _ & _ & Hso & _).
    transitivity (sockets (effect_cleanup (set_rendered (state w) w))); [done|].
    by rewrite Hso.
  - intros Hsame. unfold render. cbv zeta. simpl state.
    by rewrite Hsame, Bool.eqb_reflx.
Qed.

(** * Across sessions and renders: C8, C2 and C7 *)

(** C8, counterexample to the claim as stated.  In [overlapping_sessions]
    socket 0 is the initial socket of the session started at 1700 and has
    sent that session's parameters; socket 1 was built for the same
    session by the reconnect path and is still connecting when the user,
    after the poller reported the end of the recording, starts the session
    of 1800 with other settings.  When socket 1 opens, the frame sent on
    it is built from the cache as it is then: the parameters of the later
    session, a text different from the one of the initial open. *)
Lemma reconnect_replays_later_session :
  (url <$> sockets overlapping_sessions !! 0%nat)
    = Some (ws_url (Some (session_id 1700)))
  /\ (sent <$> sockets overlapping_sessions !! 0%nat)
       = Some [JSON_stringify (params_of sample_form)]
  /\ (url <$> sockets overlapping_sessions !! 1%nat)
       = Some (ws_url (Some (session_id 1700)))
  /\ (onopen <$> sockets overlapping_sessions !! 1%nat)
       = Some (Some (ReconnectOnOpen live_capture))
  /\ (readyState <$> sockets overlapping_sessions !! 1%nat) = Some CONNECTING
  /\ (sent <$> sockets (step (SocketOpen 1%nat) overlapping_sessions) !! 1%nat)
       = Some [JSON_stringify (replayed_params (params_of other_form))]
  /\ JSON_stringify (replayed_params (params_of other_form))
       <> JSON_stringify (params_of sample_form).
Proof.
  split_and!; try (vm_compute; reflexivity).
  intros Heq. vm_compute in Heq. discriminate.
Qed.

(** ** After a stop: nothing reconnects until the next start *)

Lemma dormant_from n w w' :
  sessionIdRef (refs w') = sessionIdRef (refs w) ->
  length (sockets w') = length (sockets w) ->
  (forall id delay cap,
      timers w' !! id = Some (Timeout delay (ReconnectCallback cap)) ->
      timers w !! id = Some (Timeout delay (ReconnectCallback cap))) ->
  dormant n w -> dormant n w'.
Proof.
  intros Hs Hl Hsub (Hsid & Hnone & Hlen).
  split_and!; [congruence | | congruence].
  intros id delay cap Hid. by apply Hsub, Hnone in Hid.
Qed.

Lemma dormant_same n w w' :
  sessionIdRef (refs w') = sessionIdRef (refs w) ->
  length (sockets w') = length (sockets w) ->
  timers w' = timers w ->
  dormant n w -> dormant n w'.
Proof.
  intros Hs Hl Ht. apply dormant_from; try done.
  intros id delay cap. by rewrite Ht.
Qed.

Lemma dormant_clear n id w : dormant n w -> dormant n (clearTimeout id w).
Proof.
  apply dormant_from; try done.
  intros i delay cap. simpl. rewrite lookup_delete_Some. tauto.
Qed.

Lemma dormant_setInterval n callback period w :
  dormant n w -> dormant n (setInterval callback period w).
Proof.
  apply dormant_from; try done.
  intros i delay cap. simpl. rewrite lookup_insert_Some.
  intros [[_ ?]|[_ ?]]; [discriminate | done].
Qed.

Lemma dormant_close_retry n cap delay w :
  dormant n w -> dormant n (setTimeout (CloseRetryCallback cap) delay w).
Proof.
  apply dormant_from; try done.
  intros i d c. simpl. rewrite lookup_insert_Some.
  intros [[_ ?]|[_ ?]]; [discriminate | done].
Qed.

Lemma dormant_update_socket n ws f w :
  dormant n w -> dormant n (update_socket ws f w).
Proof. apply dormant_same; try done. simpl. apply length_alter. Qed.

Lemma dormant_refuses n cap w : dormant n w -> reconnectWebSocket cap w = w.
Proof.
  intros (Hsid & _). apply reconnect_refused_true.
  unfold reconnect_refused. rewrite Hsid. simpl. by rewrite orb_true_r.
Qed.

Lemma dormant_reconnect n cap w :
  dormant n w -> dormant n (reconnectWebSocket cap w).
Proof. intros Hd. by rewrite (dormant_refuses n). Qed.

Lemma dormant_forget n w : dormant n w -> dormant n (assign_sessionIdRef None w).
Proof. intros (Hsid & Hnone & Hlen). by split_and!. Qed.

Create HintDb dormant discriminated.

Ltac peel_dormant w :=
  apply (dormant_same _ w); [reflexivity | reflexivity | reflexivity | ].

#[local] Hint Resolve dormant_clear dormant_setInterval dormant_close_retry
  dormant_update_socket dormant_reconnect dormant_forget : dormant.
#[local] Hint Extern 1 (dormant _ (clearInterval _ _)) =>
  apply dormant_clear : dormant.
#[local] Hint Extern 1 (dormant _ (set_state _ ?w)) => peel_dormant w : dormant.
#[local] Hint Extern 1 (dormant _ (setState _ ?w)) => peel_dormant w : dormant.
#[local] Hint Extern 1 (dormant _ (set_rendered _ ?w)) => peel_dormant w : dormant.
#[local] Hint Extern 1 (dormant _ (set_visibilityListener _ ?w)) =>
  peel_dormant w : dormant.
#[local] Hint Extern 1 (dormant _ (set_connectionCheckInterval _ ?w)) =>
  peel_dormant w : dormant.
#[local] Hint Extern 1 (dormant _ (assign_wsRef _ ?w)) => peel_dormant w : dormant.
#[local] Hint Extern 1 (dormant _ (assign_reconnectTimeoutRef _ ?w)) =>
  peel_dormant w : dormant.
#[local] Hint Extern 1 (dormant _ (assign_reconnectAttemptsRef _ ?w)) =>
  peel_dormant w : dormant.
#[local] Hint Extern 1 (dormant _ (assign_pingIntervalRef _ ?w)) =>
  peel_dormant w : dormant.
#[local] Hint Extern 1 (dormant _ (assign_recordingParamsRef _ ?w)) =>
  peel_dormant w : dormant.
#[local] Hint Extern 1 (dormant _ (assign_statusPollIntervalRef _ ?w)) =>
  peel_dormant w : dormant.

Ltac crush_dormant :=
  intros; repeat case_match; subst; cbv zeta; eauto 20 with dormant.

Lemma send_on_dormant n ws data w c :
  send_on ws data w = c -> dormant n w -> dormant n (world_of c).
Proof.
  intros <-. destruct (send_on_world ws data w) as [->|[s' ->]]; crush_dormant.
Qed.

Lemma setup_dormant n cap ws w :
  dormant n w -> dormant n (setupWebSocketHandlers cap ws w).
Proof. unfold setupWebSocketHandlers. crush_dormant. Qed.

#[local] Hint Resolve setup_dormant : dormant.

Lemma cancel_dormant n w : dormant n w -> dormant n (cancel_tracked w).
Proof.
  destruct (cancel_frame w) as (_ & _ & Hso & _ & Hsid & _).
  apply dormant_from; [done | by rewrite Hso |].
  intros id delay cap. rewrite cancel_timers. by case_bool_decide.
Qed.

Lemma stop_dormant n w : dormant n w -> dormant n (world_of (stopRecording w)).
Proof.
  intros Hd. rewrite stop_unfold. apply cancel_dormant in Hd.
  destruct (wsRef (refs (cancel_tracked w))) as [ws|];
    [|simpl; unfold forget_session; crush_dormant].
  destruct (send_on _ _ _) as [v|v] eqn:Hsend;
    apply (send_on_dormant n) in Hsend; try done; simpl in *.
  unfold forget_session. crush_dormant.
Qed.

Lemma reconnect_onopen_dormant n cap ws w :
  dormant n w -> dormant n (world_of (reconnect_onopen cap ws w)).
Proof.
  unfold reconnect_onopen. intros Hd. cbv zeta.
  destruct (recordingParamsRef _); [|simpl; crush_dormant].
  destruct (send_on _ _ _) as [v|v] eqn:Hsend;
    apply (send_on_dormant n) in Hsend; simpl world_of in *; crush_dormant.
Qed.

Lemma clear_dormant n w : dormant n w -> dormant n (clearText w).
Proof.
  unfold clearText. intros Hd. cbv zeta.
  destruct (wsRef _); [|crush_dormant].
  case_match; [|crush_dormant].
  eapply send_on_dormant; [reflexivity|]. crush_dormant.
Qed.

Lemma step_dormant n ev w :
  not_a_start ev -> dormant n w -> dormant n (step ev w).
Proof.
  intros Hev Hd. destruct ev; simpl; try done.
  - unfold render, effect_setup, effect_cleanup. crush_dormant.
  - case_match; [by apply stop_dormant | done].
  - case_match; [done | by apply clear_dormant].
  - case_match; [|done]. unfold handleVisibilityChange. crush_dormant.
  - destruct (timers w !! id) as [[delay [cap|cap]|period [cap ws|cap|cap]]|] eqn:Hid;
      simpl; try done.
    + by destruct Hd as (_ & Hnone & _); apply Hnone in Hid.
    + unfold closeRetryCallback. crush_dormant.
    + unfold keepalive. destruct (sockets w !! ws) as [s|] eqn:Hs; [|crush_dormant].
      case_match; [|crush_dormant].
      destruct (ws_send _ _) as [s'|] eqn:Hsend; crush_dormant.
    + unfold connectionCheck. crush_dormant.
    + unfold pollSessionStatus. crush_dormant.
  - case_match; [|done]. unfold dispatch_open.
    case_match; [|done]. cbv zeta.
    destruct (onopen _) as [[|cap]|].
    + unfold start_onopen. eapply send_on_dormant; [reflexivity|]. crush_dormant.
    + apply reconnect_onopen_dormant. crush_dormant.
    + crush_dormant.
  - case_match; [|done]. unfold dispatch_message.
    case_match; [|done]. unfold onmessage_handler. crush_dormant.
  - case_match; [|done].
    unfold dispatch_error, reconnect_onerror, setup_onerror. crush_dormant.
  - case_match; [|done].
    unfold dispatch_close, reconnect_onclose, setup_onclose. crush_dormant.
  - case_match; [|done]. unfold dispatch_closing. crush_dormant.
Qed.

Lemma run_dormant n evs w :
  Forall not_a_start evs -> dormant n w -> dormant n (run evs w).
Proof.
  intros Hevs. revert w.
  induction Hevs as [|ev evs Hev _ IH]; intros w Hd; [done|].
  simpl. apply IH. by apply step_dormant.
Qed.

(** A completed stop leaves the component dormant, when no reconnect
    timeout but the tracked one was pending. *)
Lemma stop_leaves_dormant w w' :
  one_pending_reconnect w ->
  stopRecording w = Normal w' ->
  dormant (length (sockets w')) w'.
Proof.
  intros Hone Hstop.
  destruct (stop_normal_refs _ _ Hstop) as (_ & Hsid & _).
  split_and!; [done | | done].
  intros id delay cap Hid.
  assert (w' = world_of (stopRecording w)) as -> by by rewrite Hstop.
  rewrite stop_timers, cancel_timers in Hid.
  case_bool_decide as Htracked; [done|].
  apply Hone in Hid as [Hid _]. tauto.
Qed.

(** A timeout that fires while the component is dormant only leaves the
    table of timers. *)
Lemma dormant_timeout_idle n id delay callback env w :
  dormant n w ->
  timers w !! id = Some (Timeout delay callback) ->
  step (TimerFires id env) w = clearTimeout id w.
Proof.
  intros Hd Hid. unfold step. rewrite Hid.
  destruct callback as [cap|cap]; simpl.
  - by destruct Hd as (_ & Hnone & _); apply Hnone in Hid.
  - unfold closeRetryCallback. destruct (isRecording cap); [|done].
    apply (dormant_refuses n). by apply dormant_clear.
Qed.




(** ** The stopped frame and the render that follows: C7 *)

Lemma old_from w w' :
  statusPollIntervalRef (refs w') = statusPollIntervalRef (refs w) ->
  (next_timer w <= next_timer w')%positive ->
  poll_handle_old w -> poll_handle_old w'.
Proof.
  intros Href Hnext Hold id Hid. rewrite Href in Hid.
  apply Hold in Hid. lia.
Qed.

Lemma old_setTimeout callback delay w :
  poll_handle_old w -> poll_handle_old (setTimeout callback delay w).
Proof. apply old_from; [done | simpl; lia]. Qed.

Lemma old_setInterval callback period w :
  poll_handle_old w -> poll_handle_old (setInterval callback period w).
Proof. apply old_from; [done | simpl; lia]. Qed.

Lemma old_forget w : poll_handle_old (assign_statusPollIntervalRef None w).
Proof. intros id. simpl. discriminate. Qed.

Lemma old_effect_setup cap w : poll_handle_old (effect_setup cap w).
Proof. intros id. simpl. intros [= <-]. lia. Qed.

Create HintDb old discriminated.

Ltac peel_old w := apply (old_from w); [reflexivity | reflexivity | ].

#[local] Hint Resolve old_setTimeout old_setInterval old_forget
  old_effect_setup : old.
#[local] Hint Extern 1 (poll_handle_old (clearTimeout _ ?w)) => peel_old w : old.
#[local] Hint Extern 1 (poll_handle_old (clearInterval _ ?w)) => peel_old w : old.
#[local] Hint Extern 1 (poll_handle_old (set_state _ ?w)) => peel_old w : old.
#[local] Hint Extern 1 (poll_handle_old (setState _ ?w)) => peel_old w : old.
#[local] Hint Extern 1 (poll_handle_old (set_rendered _ ?w)) => peel_old w : old.
#[local] Hint Extern 1 (poll_handle_old (new_WebSocket _ ?w)) => peel_old w : old.
#[local] Hint Extern 1 (poll_handle_old (update_socket _ _ ?w)) => peel_old w : old.
#[local] Hint Extern 1 (poll_handle_old (assign_wsRef _ ?w)) => peel_old w : old.
#[local] Hint Extern 1 (poll_handle_old (assign_reconnectTimeoutRef _ ?w)) =>
  peel_old w : old.
#[local] Hint Extern 1 (poll_handle_old (assign_reconnectAttemptsRef _ ?w)) =>
  peel_old w : old.
#[local] Hint Extern 1 (poll_handle_old (assign_pingIntervalRef _ ?w)) =>
  peel_old w : old.
#[local] Hint Extern 1 (poll_handle_old (assign_sessionIdRef _ ?w)) =>
  peel_old w : old.
#[local] Hint Extern 1 (poll_handle_old (assign_recordingParamsRef _ ?w)) =>
  peel_old w : old.

Ltac crush_old :=
  intros; repeat case_match; subst; cbv zeta; eauto 20 with old.

Lemma reconnect_old cap w :
  poll_handle_old w -> poll_handle_old (reconnectWebSocket cap w).
Proof. unfold reconnectWebSocket. crush_old. Qed.

#[local] Hint Resolve reconnect_old : old.

Lemma send_on_old ws data w c :
  send_on ws data w = c -> poll_handle_old w -> poll_handle_old (world_of c).
Proof.
  intros <-. destruct (send_on_world ws data w) as [->|[s' ->]]; crush_old.
Qed.

Lemma setup_old cap ws w :
  poll_handle_old w -> poll_handle_old (setupWebSocketHandlers cap ws w).
Proof. unfold setupWebSocketHandlers. crush_old. Qed.

#[local] Hint Resolve setup_old : old.

Lemma stop_old w :
  poll_handle_old w -> poll_handle_old (world_of (stopRecording w)).
Proof.
  intros Hold. rewrite stop_unfold.
  assert (poll_handle_old (cancel_tracked w)) as Hcancel.
  { unfold cancel_tracked. crush_old. }
  destruct (wsRef (refs (cancel_tracked w))) as [ws|];
    [|simpl; unfold forget_session; crush_old].
  destruct (send_on _ _ _) as [v|v] eqn:Hsend;
    apply send_on_old in Hsend; simpl world_of in *;
    first [done | unfold forget_session; crush_old].
Qed.

Lemma onmessage_old payload w :
  poll_handle_old w -> poll_handle_old (onmessage_handler payload w).
Proof. unfold onmessage_handler. crush_old. Qed.

Lemma clear_old w : poll_handle_old w -> poll_handle_old (clearText w).
Proof.
  unfold clearText. intros Hold. cbv zeta.
  destruct (wsRef _); [|crush_old]. case_match; [|crush_old].
  eapply send_on_old; [reflexivity|]. crush_old.
Qed.

Lemma start_old cap form now throws w :
  poll_handle_old w ->
  poll_handle_old (world_of (startRecording cap form now throws w)).
Proof.
  intros Hold. rewrite start_unfold. unfold begin_session.
  destruct throws; simpl; crush_old.
Qed.

Lemma step_old ev w : poll_handle_old w -> poll_handle_old (step ev w).
Proof.
  intros Hold. destruct ev; simpl.
  - unfold render. crush_old.
  - case_match; [done | by apply start_old].
  - case_match; [by apply stop_old | done].
  - case_match; [done | by apply clear_old].
  - case_match; [|done]. unfold handleVisibilityChange. crush_old.
  - destruct (timers w !! id) as [[delay [cap|cap]|period [cap ws|cap|cap]]|] eqn:Hid;
      simpl; try done.
    + unfold reconnectTimeoutCallback. crush_old.
    + unfold closeRetryCallback. crush_old.
    + unfold keepalive. destruct (sockets w !! ws) as [s|] eqn:Hs; [|crush_old].
      case_match; [|crush_old].
      destruct (ws_send _ _) as [s'|] eqn:Hsend; crush_old.
    + unfold connectionCheck. crush_old.
    + unfold pollSessionStatus. crush_old.
  - case_match; [|done]. unfold dispatch_open.
    case_match; [|done]. cbv zeta.
    destruct (onopen _) as [[|cap]|].
    + unfold start_onopen. eapply send_on_old; [reflexivity|]. crush_old.
    + unfold reconnect_onopen. cbv zeta.
      destruct (recordingParamsRef _); [|simpl; crush_old].
      destruct (send_on _ _ _) as [v|v] eqn:Hsend;
        apply send_on_old in Hsend; simpl world_of in *; crush_old.
    + crush_old.
  - case_match; [|done]. unfold dispatch_message.
    case_match; [by apply onmessage_old | done].
  - case_match; [|done].
    unfold dispatch_error, reconnect_onerror, setup_onerror. crush_old.
  - case_match; [|done].
    unfold dispatch_close, reconnect_onclose, setup_onclose. crush_old.
  - case_match; [|done]. unfold dispatch_closing. crush_old.
Qed.

Lemma initial_old : poll_handle_old initial_world.
Proof. apply old_effect_setup. Qed.

Lemma run_old evs w : poll_handle_old w -> poll_handle_old (run evs w).
Proof.
  revert w. induction evs as [|ev evs IH]; intros w Hold; [done|].
  simpl. apply IH. by apply step_old.
Qed.

Lemma onmessage_tracked payload w :
  tracked_intervals w -> tracked_intervals (onmessage_handler payload w).
Proof. unfold onmessage_handler. crush_tracked. Qed.

Lemma render_commits w : rendered (render w) = state w /\ state (render w) = state w.
Proof.
  unfold render. cbv zeta. simpl state. case_match; [done|].
  by destruct (effect_frame (state w) (set_rendered (state w) w)) as [-> ->].
Qed.

(** The stopped branch of the router, written out. *)
Lemma stopped_frame_step data w :
  data_type data = Some "stopped" ->
  onmessage_handler (Some data) w =
    match pingIntervalRef (refs w) with
    | Some id =>
        clearInterval id
          (setState (fun prev =>
             {| isRecording := false; text := text prev;
                translatedText := translatedText prev;
                error := None; sessionId := sessionId prev |}) w)
    | None =>
        setState (fun prev =>
          {| isRecording := false; text := text prev;
             translatedText := translatedText prev;
             error := None; sessionId := sessionId prev |}) w
    end.
Proof.
  intros Htype. unfold onmessage_handler, type_is. rewrite Htype. reflexivity.
Qed.

(** The cleanup of a re-run effect removes the timer the poller's ref
    holds, and the two handles the setup then hands out are new. *)
Lemma rerun_removes_poll cap w poll :
  statusPollIntervalRef (refs w) = Some poll ->
  (poll < next_timer w)%positive ->
  timers (effect_setup cap (effect_cleanup w)) !! poll = None.
Proof.
  intros Href Hold. unfold effect_setup. cbv zeta. simpl.
  rewrite cleanup_next_timer.
  rewrite !lookup_insert_ne by lia.
  rewrite cleanup_timers, Href. apply lookup_delete_eq.
Qed.

(** C7, counterexample to the claim as stated.  In [session_open] the
    keepalive is timer 3 and the status poll is timer 5.  After the
    stopped frame was processed ([stopped_by_server]) the keepalive is
    gone but the status poll is still pending, and it still works: when it
    ticks before the component re-renders, the request is made and the
    text of the response is taken over.  Once the component has
    re-rendered, timer 5 is gone and a status poll (timer 7) is running
    again. *)
Lemma stopped_frame_keeps_status_poll :
  pingIntervalRef (refs session_open) = Some 3%positive
  /\ statusPollIntervalRef (refs session_open) = Some 5%positive
  /\ timers session_open !! 5%positive
       = Some (Interval 1000 (PollSessionStatus live_capture))
  /\ stopped_by_server = step (SocketMessage 0%nat (Some stopped_frame)) session_open
  /\ timers stopped_by_server !! 3%positive = None
  /\ timers stopped_by_server !! 5%positive
       = Some (Interval 1000 (PollSessionStatus live_capture))
  /\ text (state stopped_by_server) = "abc"
  /\ text (state (step (TimerFires 5%positive still_recording) stopped_by_server))
       = "xyz"
  /\ timers (step Render stopped_by_server) !! 5%positive = None
  /\ statusPollIntervalRef (refs (step Render stopped_by_server)) = Some 7%positive
  /\ timers (step Render stopped_by_server) !! 7%positive
       = Some (Interval 1000 (PollSessionStatus (state stopped_by_server)))
  /\ ~ (timers stopped_by_server !! 3%positive = None
        /\ timers stopped_by_server !! 5%positive = None).
Proof.
  split_and!; try (vm_compute; reflexivity).
  intros [_ Hpoll]. vm_compute in Hpoll. discriminate.
Qed.

(** C7 (as amended). Processing a stopped frame marks recording inactive,
    clears the visible error and cancels the keepalive timer; it leaves
    every other timer, the status poll among them, and every ref as they
    were.  The status poll is cancelled by the render that follows: when
    recording was active in the previous render, the cleanup of the effect
    removes the timer under the handle the ref held, and the effect
    installs a fresh 1 s status poll whose closure captured the inactive
    state, so that each of its ticks returns at once.  In a state the
    component can reach from mounting, after the frame no keepalive is
    pending at all, the old handle needs no side condition, and after the
    render the poller under the ref is the only one and inactive. *)
Theorem stopped_frame_effect (data : Frame) (w : World) :
  data_type data = Some "stopped" ->
  state (onmessage_handler (Some data) w) =
    {| isRecording := false; text := text (state w);
       translatedText := translatedText (state w);
       error := None; sessionId := sessionId (state w) |}
  /\ refs (onmessage_handler (Some data) w) = refs w
  /\ (forall id, pingIntervalRef (refs w) = Some id ->
        timers (onmessage_handler (Some data) w) !! id = None)
  /\ (forall id, pingIntervalRef (refs w) <> Some id ->
        timers (onmessage_handler (Some data) w) !! id = timers w !! id)
  /\ (isRecording (rendered w) = true ->
      statusPollIntervalRef (refs (render (onmessage_handler (Some data) w)))
        = Some (Pos.succ (next_timer w))
      /\ timers (render (onmessage_handler (Some data) w)) !! Pos.succ (next_timer w)
           = Some (Interval 1000
                     (PollSessionStatus (state (onmessage_handler (Some data) w))))
      /\ (forall outcome v,
            pollSessionStatus (state (onmessage_handler (Some data) w)) outcome v = v)
      /\ (forall poll, statusPollIntervalRef (refs w) = Some poll ->
            (poll < next_timer w)%positive ->
            timers (render (onmessage_handler (Some data) w)) !! poll = None))
  /\ (forall evs, w = run evs initial_world ->
      (forall id period cap ws,
         timers (onmessage_handler (Some data) w) !! id
           <> Some (Interval period (KeepaliveTick cap ws)))
      /\ (isRecording (rendered w) = true ->
          forall poll, statusPollIntervalRef (refs w) = Some poll ->
            timers (render (onmessage_handler (Some data) w)) !! poll = None)
      /\ (forall id period cap,
            timers (render (onmessage_handler (Some data) w)) !! id
              = Some (Interval period (PollSessionStatus cap)) ->
            statusPollIntervalRef (refs (render (onmessage_handler (Some data) w)))
              = Some id
            /\ period = 1000
            /\ isRecording cap = false)).
Proof.
  intros Htype.
  pose proof (stopped_frame_step data w Htype) as Hstep.
  set (w' := onmessage_handler (Some data) w) in *.
  assert (state w' =
            {| isRecording := false; text := text (state w);
               translatedText := translatedText (state w);
               error := None; sessionId := sessionId (state w) |}
          /\ refs w' = refs w /\ rendered w' = rendered w
          /\ next_timer w' = next_timer w) as (Hstate & Hrefs & Hrendered & Hnext).
  { rewrite Hstep. by destruct (pingIntervalRef (refs w)). }
  assert (forall id, pingIntervalRef (refs w) = Some id -> timers w' !! id = None)
    as Hping.
  { intros id Hid. rewrite Hstep, Hid. simpl. apply lookup_delete_eq. }
  assert (isRecording (rendered w) = true ->
          render w' = effect_setup (state w')
                        (effect_cleanup (set_rendered (state w') w'))) as Hrerun.
  { intros Hwas. apply render_reruns_effect. by rewrite Hrendered, Hwas, Hstate. }
  assert (isRecording (rendered w) = true ->
          forall poll, statusPollIntervalRef (refs w) = Some poll ->
            (poll < next_timer w)%positive ->
            timers (render w') !! poll = None) as Hgone.
  { intros Hwas poll Hpoll Hold. rewrite Hrerun by done.
    apply rerun_removes_poll; simpl; by rewrite ?Hrefs, ?Hnext. }
  split_and!; try done.
  - intros id Hother. rewrite Hstep.
    destruct (pingIntervalRef (refs w)) as [ping|]; [|done].
    simpl. apply lookup_delete_ne. congruence.
  - intros Hwas. rewrite Hrerun by done.
    destruct (setup_installs_poll (state w')
                (effect_cleanup (set_rendered (state w') w'))) as [Href Htimer].
    rewrite cleanup_next_timer in Href, Htimer. simpl next_timer in Href, Htimer.
    rewrite Hnext in Href, Htimer.
    split_and!; [done | done | |].
    + intros outcome v. apply inactive_poller_idle. by rewrite Hstate.
    + rewrite <- Hrerun by done. by apply Hgone.
  - intros evs Hreach.
    assert (tracked_intervals w) as Htracked.
    { rewrite Hreach. apply run_tracked, initial_tracked. }
    assert (poll_handle_old w) as Hfresh.
    { rewrite Hreach. apply run_old, initial_old. }
    pose proof (onmessage_tracked (Some data) w Htracked) as Hafter.
    fold w' in Hafter.
    pose proof (tracked_render w' Hafter) as [Hrender _].
    split_and!.
    + intros id period cap ws Hid. destruct Hafter as [Hint _].
      apply Hint in Hid as Hok. simpl in Hok. destruct Hok as [Href _].
      rewrite Hrefs in Href. apply Hping in Href. congruence.
    + intros Hwas poll Hpoll. apply Hgone; [done | done | by apply Hfresh].
    + intros id period cap Hid. apply Hrender in Hid. simpl in Hid.
      destruct Hid as (Href & Hperiod & Hcap). split_and!; [done | done |].
      destruct (render_commits w') as [Hr _]. by rewrite Hcap, Hr, Hstate.
Qed.

Lemma stopped_frame_effect_witness :
  isRecording (state (onmessage_handler (Some stopped_frame)
                        (run [ClickStart sample_form 1700 false; Render;
                              SocketOpen 0%nat] initial_world))) = false
  /\ timers (render (onmessage_handler (Some stopped_frame)
                       (run [ClickStart sample_form 1700 false; Render;
                             SocketOpen 0%nat] initial_world))) !! 5%positive = None.
Proof.
  destruct (stopped_frame_effect stopped_frame
              (run [ClickStart sample_form 1700 false; Render; SocketOpen 0%nat]
                 initial_world))
    as (Hstate & _ & _ & _ & _ & Hreach); [reflexivity |].
  destruct (Hreach [ClickStart sample_form 1700 false; Render; SocketOpen 0%nat]
              eq_refl) as (_ & Hgone & _).
  split.
  - rewrite Hstate. reflexivity.
  - apply Hgone; vm_compute; reflexivity.
Defined.
